(** * Hourly regularisation of weather-station logs

    A shallow embedding of [station_reconstruct/dat_to_nc.py]
    (class [DatToNcConverter]): the per-file pipeline
    [resample_to_hourly_steps], the folder loop [extract], the projection
    [transform] and the back-conversion [transform_df_to_tas].

    Numbers are IEEE binary64 values (Rocq's primitive floats), the missing
    marker is NaN, as in pandas.  A data frame is a list of labelled rows,
    each row a finite map from column names to cells.  A Python exception
    is the result [None].

    Two smaller parts follow: the sample windows of [netcdfloader.py] and
    the layer sizes of [model/attention_module.py]. *)

From Stdlib Require Import ZArith Floats.PrimFloat Uint63 String Lia.
From stdpp Require Import base option list sorting gmap strings.

Set Warnings "-inexact-float".
Local Open Scope Z_scope.

(** ** Floating-point helpers (numpy / pandas reductions) *)

Module Float64.

Definition nan : float := PrimFloat.nan.

(** [pd.isna] on a float. *)
Definition isnan (x : float) : bool := PrimFloat.is_nan x.
Definition notna (x : float) : bool := negb (isnan x).

Definition of_Z (z : Z) : float :=
  match z with
  | Z0 => 0%float
  | Zpos _ => PrimFloat.of_uint63 (Uint63.of_Z z)
  | Zneg p => (- PrimFloat.of_uint63 (Uint63.of_Z (Zpos p)))%float
  end.

Definition of_nat (n : nat) : float := of_Z (Z.of_nat n).

(** [np.rint]: round to the nearest integer, ties to even.  Below 2^52 the
    sum with 2^52 is rounded by the hardware exactly that way; from 2^52 on
    every binary64 value is an integer already. *)
Definition two52 : float := 4503599627370496%float.

Definition rint (x : float) : float :=
  let a := PrimFloat.abs x in
  if (a <? two52)%float then
    let r := ((a + two52) - two52)%float in
    if PrimFloat.get_sign x then (- r)%float else r
  else x.

Fixpoint pow10 (d : nat) : float :=
  match d with
  | O => 1%float
  | S d' => (10 * pow10 d')%float
  end.

(** [np.round(x, decimals)] for [decimals >= 0]: scale, [rint], unscale. *)
Definition round_digits (decimals : nat) (x : float) : float :=
  match decimals with
  | O => rint x
  | _ => (rint (x * pow10 decimals) / pow10 decimals)%float
  end.

(** [ndarray.sum()] on a binary64 vector: numpy's pairwise summation
    ([pairwise_sum] of [loops_utils.h.src]) added to the identity of the
    reduction.  Fewer than 8 values are added one after the other; up to
    128 values go through 8 accumulators, which take the values in blocks of
    8 and are then added in pairs, the values left over being added last; a
    longer vector is cut in two near the middle, on a multiple of 8.  (The
    short loop starts from -0.0; numpy versions differ in this, which shows
    only in the sign of a sum of zeros.) *)
Definition sum_unrolled (a : list float) : float :=
  let n := length a in
  let r := fold_left (fun r i => zip_with PrimFloat.add r (take 8 (drop i a)))
             (map (fun b => 8 * b)%nat (seq 1 (n / 8 - 1)%nat)) (take 8 a) in
  let r_ (j : nat) := nth j r 0%float in
  let res := (((r_ 0%nat + r_ 1%nat) + (r_ 2%nat + r_ 3%nat))
              + ((r_ 4%nat + r_ 5%nat) + (r_ 6%nat + r_ 7%nat)))%float in
  fold_left PrimFloat.add (drop (n - n mod 8)%nat a) res.

Fixpoint pairwise_sum_rec (depth : nat) (a : list float) : float :=
  let n := length a in
  if (n <? 8)%nat then fold_left PrimFloat.add a (-0)%float
  else if (n <=? 128)%nat then sum_unrolled a
  else
    match depth with
    | O => nan
    | S depth' =>
        let n2 := (n / 2)%nat in
        let n2 := (n2 - n2 mod 8)%nat in
        (pairwise_sum_rec depth' (take n2 a) + pairwise_sum_rec depth' (drop n2 a))%float
    end.

(** The recursion halves the vector, so its length bounds the depth: the
    [nan] of an exhausted depth is never returned ([pairwise_sum_unfold]). *)
Definition pairwise_sum (a : list float) : float := pairwise_sum_rec (length a) a.

Definition sum (a : list float) : float := (0 + pairwise_sum a)%float.

(** Reductions that skip NaN ([skipna=True], the pandas default).
    [nanops.nanmean] puts 0 in the place of every NaN, sums the whole vector
    and divides by the number of values that are not NaN. *)
Definition fill0 (xs : list float) : list float :=
  map (fun x => if isnan x then 0%float else x) xs.

Definition count (xs : list float) : nat := length (List.filter notna xs).

Definition nanmean (xs : list float) : float :=
  match count xs with
  | O => nan
  | n => (sum (fill0 xs) / of_nat n)%float
  end.

(** [Series.unique] keeps the first occurrence of every value (float
    equality), [Series.nunique] counts them without the NaNs. *)
Fixpoint unique_from (seen xs : list float) : list float :=
  match xs with
  | [] => []
  | x :: t =>
      if existsb (PrimFloat.eqb x) seen then unique_from seen t
      else x :: unique_from (x :: seen) t
  end.

Definition unique (xs : list float) : list float := unique_from [] xs.

Definition nunique (xs : list float) : nat :=
  length (unique (List.filter notna xs)).

End Float64.

(** ** Timestamps: Python's [datetime(year, month, day, hour, minute)] *)

Module Datetime.

Definition is_leap (y : Z) : bool :=
  (y mod 4 =? 0) && (negb (y mod 100 =? 0) || (y mod 400 =? 0)).

Definition days_in_month (y m : Z) : Z :=
  if m =? 2 then (if is_leap y then 29 else 28)
  else if (m =? 4) || (m =? 6) || (m =? 9) || (m =? 11) then 30
  else 31.

Definition days_before_year (y : Z) : Z :=
  let p := y - 1 in p * 365 + p / 4 - p / 100 + p / 400.

Definition days_before_month (y m : Z) : Z :=
  foldr Z.add 0 (map (fun k => days_in_month y (Z.of_nat k)) (seq 1 (Z.to_nat (m - 1)))).

(** Proleptic Gregorian ordinal, 0001-01-01 is day 1. *)
Definition ymd2ord (y m d : Z) : Z :=
  days_before_year y + days_before_month y m + d.

(** The timestamp in minutes; [None] is the [ValueError] of a field out of
    range. *)
Definition datetime (y mo d h mi : Z) : option Z :=
  if (1 <=? y) && (y <=? 9999) && (1 <=? mo) && (mo <=? 12)
     && (1 <=? d) && (d <=? days_in_month y mo)
     && (0 <=? h) && (h <=? 23) && (0 <=? mi) && (mi <=? 59)
  then Some ((ymd2ord y mo d * 24 + h) * 60 + mi)
  else None.

(** [Timestamp.floor("h")], the label of the hourly bin of a timestamp. *)
Definition floor_hour (t : Z) : Z := 60 * (t / 60).

(** [DatetimeIndex.minute]. *)
Definition minute_of (t : Z) : Z := t mod 60.

(** The minutes that [datetime64[ns]] can hold: 1677-09-21 00:13 to
    2262-04-11 23:47 ([Timestamp.min] and [Timestamp.max], to the minute). *)
Definition ns_min : Z := (ymd2ord 1677 9 21 * 24 + 0) * 60 + 13.
Definition ns_max : Z := (ymd2ord 2262 4 11 * 24 + 23) * 60 + 47.

Definition in_ns_range (t : Z) : bool := (ns_min <=? t) && (t <=? ns_max).

End Datetime.

(** ** Data frames *)

(** The missing marker of a cell type and [pd.isna] on it. *)
Class Missing (A : Type) := { missing : A; isna : A -> bool }.

#[export] Instance float_missing : Missing float :=
  {| missing := Float64.nan; isna := Float64.isnan |}.

(** A cell of an object column: a number or an 8x8 array. *)
Inductive cell : Type :=
  | Num (x : float)
  | Grid (g : list (list float)).

#[export] Instance cell_missing : Missing cell :=
  {| missing := Num Float64.nan;
     isna c := match c with Num x => Float64.isnan x | Grid _ => false end |}.

(** A row is its index label and its cells by column name; a column that a
    row does not hold reads as missing. *)
Record DataFrame (A : Type) : Type := mkDataFrame {
  columns : list string;
  rows : list (Z * gmap string A)
}.
Arguments mkDataFrame {A} _ _.
Arguments columns {A} _.
Arguments rows {A} _.

Definition index {A} (df : DataFrame A) : list Z := map fst (rows df).

Definition cell_at {A} `{Missing A} (r : gmap string A) (c : string) : A :=
  default missing (r !! c).

Definition empty_frame {A} : DataFrame A := mkDataFrame [] [].

Definition frame_map {A B} (f : A -> B) (df : DataFrame A) : DataFrame B :=
  mkDataFrame (columns df) (map (fun r => (r.1, f <$> r.2)) (rows df)).

(** [df[c] = ...]: a new column goes last, an existing one is overwritten. *)
Definition set_column {A} (c : string) (f : Z * gmap string A -> A)
    (df : DataFrame A) : DataFrame A :=
  mkDataFrame
    (if bool_decide (c ∈ columns df) then columns df else columns df ++ [c])
    (map (fun r => (r.1, <[c := f r]> r.2)) (rows df)).

(** [df.replace(to_replace, value)] on a numeric frame. *)
Definition replace_value (to_replace value x : float) : float :=
  if (x =? to_replace)%float then value else x.

Definition replace (to_replace value : float) (df : DataFrame float) : DataFrame float :=
  frame_map (replace_value to_replace value) df.

(** [df.fillna(value)]: no cell of a column of the frame stays missing,
    whether the row holds a NaN there or nothing at all. *)
Definition fillna (value : float) (df : DataFrame float) : DataFrame float :=
  mkDataFrame (columns df)
    (map (fun r =>
            (r.1, ((fun x => if Float64.isnan x then value else x) <$> r.2)
                    ∪ list_to_map (map (fun c => (c, value)) (columns df))))
       (rows df)).

(** [df[cols]] for columns known to be present. *)
Definition select_columns {A} (cols : list string) (df : DataFrame A) : DataFrame A :=
  mkDataFrame cols
    (map (fun r => (r.1, filter (fun kv => kv.1 ∈ cols) r.2)) (rows df)).

(** [df.drop(columns=cols)]; [None] is the [KeyError] of an absent label. *)
Definition drop_columns {A} (cols : list string) (df : DataFrame A)
    : option (DataFrame A) :=
  if forallb (fun c => bool_decide (c ∈ columns df)) cols then
    Some (mkDataFrame
            (List.filter (fun c => negb (bool_decide (c ∈ cols))) (columns df))
            (map (fun r => (r.1, filter (fun kv => kv.1 ∉ cols) r.2)) (rows df)))
  else None.

(** [df.dropna(subset=cols)]: a row goes when any of the listed columns is
    missing in it; [None] is the [KeyError] of an absent label. *)
Definition dropna {A} `{Missing A} (subset : list string) (df : DataFrame A)
    : option (DataFrame A) :=
  if forallb (fun c => bool_decide (c ∈ columns df)) subset then
    Some (mkDataFrame (columns df)
            (List.filter (fun r => negb (existsb (fun c => isna (cell_at r.2 c)) subset))
               (rows df)))
  else None.

(** [df.rename(columns=m)]: labels outside [m] stay. *)
Definition rename_label (m : list (string * string)) (c : string) : string :=
  match List.find (fun kv => String.eqb kv.1 c) m with
  | Some kv => kv.2
  | None => c
  end.

Definition rename {A} (m : list (string * string)) (df : DataFrame A) : DataFrame A :=
  mkDataFrame (map (rename_label m) (columns df))
    (map (fun r => (r.1, kmap (rename_label m) r.2)) (rows df)).

(** [pd.concat([a, b])]: rows of [a] then rows of [b], columns united. *)
Definition pd_concat {A} (a b : DataFrame A) : DataFrame A :=
  mkDataFrame
    (columns a ++ List.filter (fun c => negb (bool_decide (c ∈ columns a))) (columns b))
    (rows a ++ rows b).

(** [df.loc[key, col] = value] with a two-dimensional array as the value of
    one cell of an object frame.  pandas cannot make a new column from such
    a value: with the label new as well it enlarges the row axis and then
    raises [IndexError] ([ValueError] in older versions), with the label
    present it raises [ValueError].  Under an existing column the array
    becomes the value of the cell, in a new row when the label is new. *)
Definition loc_set {A} `{Missing A} (df : DataFrame A) (key : Z) (col : string) (v : A)
    : option (DataFrame A) :=
  if bool_decide (col ∈ columns df) then
    if existsb (fun r => r.1 =? key) (rows df) then
      Some (mkDataFrame (columns df)
              (map (fun r => if r.1 =? key then (r.1, <[col := v]> r.2) else r) (rows df)))
    else
      Some (mkDataFrame (columns df)
              (rows df
               ++ [(key, <[col := v]> (list_to_map (map (fun c => (c, missing)) (columns df))))]))
  else None.

(** ** The converter *)

(** One line of a [.dat] log: the five date columns ([year mon day hour
    min], integers) and the sensor readings by column name. *)
Record RawRecord : Type := mkRawRecord {
  year : Z;
  mon : Z;
  day : Z;
  hour : Z;
  minute : Z;
  readings : gmap string float
}.

(** What [pd.read_csv] returns for one file: the sensor column names of the
    header line and the records in file order. *)
Record RawTable : Type := mkRawTable {
  header : list string;
  records : list RawRecord
}.

(** [self.tas_sensor], set by [__init__]. *)
Definition tas_sensor : string := "mcp9808".

(** The reserved "no reading" value of the log format. *)
Definition sentinel : float := (-999.99)%float.

(** [get_tas_format_config()["digit_precision"]]. *)
Definition digit_precision : nat := 2.

Definition C_to_K (c : float) : float := (c + 273.15)%float.
Definition K_to_C (k : float) : float := (k - 273.15)%float.

(** [df.apply(lambda row: datetime(...), axis=1)], then the date columns are
    dropped and the new column becomes the index. *)
Definition to_datetime (r : RawRecord) : option Z :=
  Datetime.datetime (year r) (mon r) (day r) (hour r) (minute r).

(** Lines 133-141.  On a table without lines [df.apply] returns a frame,
    which line 133 cannot assign to one column ([ValueError]).  A sensor
    column that is itself named [datetime] is overwritten by line 133 and
    leaves the columns with [set_index]. *)
Definition set_index_datetime (t : RawTable) : option (DataFrame float) :=
  match records t with
  | [] => None
  | _ =>
      labels ← mapM to_datetime (records t);
      Some (mkDataFrame
              (List.filter (fun c => negb (String.eqb c "datetime")) (header t))
              (zip labels (map (fun r => delete "datetime"%string (readings r)) (records t))))
  end.

(** Whether the index is a [DatetimeIndex]: labels that [datetime64[ns]]
    cannot hold stay Python objects, and [df.resample] refuses such an index
    ([TypeError]). *)
Definition datetime_index {A} (df : DataFrame A) : bool :=
  forallb Datetime.in_ns_range (index df).

(** [df[cols].mean(axis=1)] of one row. *)
Definition mean_axis1 (cols : list string) (r : gmap string float) : float :=
  Float64.nanmean (map (cell_at r) cols).

(** Lines 144-148: [df["tas"] = df[[self.tas_sensor]].mean(axis=1)] and
    [df["tas"] = df["tas"] + 273.15]; [None] is the [KeyError] of a frame
    without the sensor column. *)
Definition add_tas (df : DataFrame float) : option (DataFrame float) :=
  if bool_decide (tas_sensor ∈ columns df) then
    let df1 := set_column "tas" (fun r => mean_axis1 [tas_sensor] r.2) df in
    Some (set_column "tas" (fun r => C_to_K (cell_at r.2 "tas")) df1)
  else None.

(** *** [df.resample("h")]

    pandas bins a view of the frame sorted by time with a stable sort, takes
    the first bin at the hour of the earliest label and the last at the hour
    of the latest, and yields every bin between them, empty ones included;
    a bin is labelled by the start of its hour. *)
Fixpoint insert_by_time {A} (r : Z * A) (l : list (Z * A)) : list (Z * A) :=
  match l with
  | [] => [r]
  | r' :: l' => if r.1 <? r'.1 then r :: l else r' :: insert_by_time r l'
  end.

Definition sort_by_time {A} (l : list (Z * A)) : list (Z * A) :=
  fold_left (fun acc r => insert_by_time r acc) l [].

Definition hour_bins (labels : list Z) : list Z :=
  match labels with
  | [] => []
  | t :: ts =>
      let lo := Datetime.floor_hour (foldr Z.min t ts) in
      let hi := Datetime.floor_hour (foldr Z.max t ts) in
      map (fun i => lo + 60 * Z.of_nat i) (seq 0 (S (Z.to_nat ((hi - lo) / 60))))
  end.

Definition hour_group {A} (h : Z) (df : DataFrame A) : list (Z * gmap string A) :=
  List.filter (fun r => Datetime.floor_hour r.1 =? h) (sort_by_time (rows df)).

Definition resample {A} (df : DataFrame A) : list (Z * list (Z * gmap string A)) :=
  map (fun h => (h, hour_group h df)) (hour_bins (index df)).

(** The values of one column in a group of rows ([hour_data[c].values]). *)
Definition column_values {A} `{Missing A} (c : string) (l : list (Z * gmap string A))
    : list A :=
  map (fun r => cell_at r.2 c) l.

(** Lines 151-156. *)
Definition custom_aggregation (series : list float) : float :=
  if (Float64.nunique series <=? 2)%nat then Float64.nan
  else Float64.nanmean series.

(** [df.resample("h").apply(f)]: [f] reduces every column of every bin. *)
Definition resample_apply (f : list float -> float) (df : DataFrame float)
    : DataFrame float :=
  mkDataFrame (columns df)
    (map (fun g => (g.1, list_to_map (map (fun c => (c, f (column_values c g.2))) (columns df))))
       (resample df)).

(** *** Grid mode *)

Abbreviation grid := (list (list float)).

(** [np.nan * np.zeros((8, 8))]. *)
Definition nan_grid : grid := replicate 8 (replicate 8 Float64.nan).

(** A numpy index on an axis of length [n]: negative indices count from the
    end, anything else out of range raises [IndexError]. *)
Definition norm_index (n i : Z) : option nat :=
  if (0 <=? i) && (i <? n) then Some (Z.to_nat i)
  else if (- n <=? i) && (i <? 0) then Some (Z.to_nat (i + n))
  else None.

(** [a[row, col] = v] on an 8x8 array. *)
Definition grid_set (g : grid) (row col : Z) (v : float) : option grid :=
  r ← norm_index 8 row;
  c ← norm_index 8 col;
  line ← g !! r;
  Some (<[r := <[c := v]> line]> g).

Definition grid_get (g : grid) (r c : nat) : option float :=
  line ← g !! r; line !! c.

(** An array of 8 lines of 8 cells. *)
Definition grid_shape (g : grid) : Prop :=
  length g = 8%nat /\ Forall (fun line => length line = 8%nat) g.

Section Converter.

(** [mapping_rule] of [map_minutes_to_grid.py], which is not among the
    sources: the table from a minute of the hour to a (row, col) pair.
    [None] is the [KeyError] of a minute the table does not hold. *)
Variable mapping_rule : Z -> option (Z * Z).

(** [self.hourly]. *)
Variable hourly : bool.

(** One turn of the loop of lines 168-170. *)
Definition place (g : grid) (rd : Z * float) : option grid :=
  cellpos ← mapping_rule rd.1;
  grid_set g cellpos.1 cellpos.2 rd.2.

Fixpoint place_all (g : grid) (rds : list (Z * float)) : option grid :=
  match rds with
  | [] => Some g
  | rd :: rest => g' ← place g rd; place_all g' rest
  end.

(** Whether the table sends the minute of a reading to the cell [(r, c)]. *)
Definition maps_to (r c : nat) (rd : Z * float) : bool :=
  match mapping_rule rd.1 with
  | Some cellpos =>
      bool_decide (norm_index 8 cellpos.1 = Some r /\ norm_index 8 cellpos.2 = Some c)
  | None => false
  end.

(** The value of the last reading of a list that the table sends to the cell
    [(r, c)], if there is one. *)
Definition last_write (r c : nat) (rds : list (Z * float)) : option float :=
  snd <$> last (List.filter (maps_to r c) rds).

(** [zip(hour_data.index.minute, hour_data["tas"].values)]. *)
Definition minute_temps (hour_data : list (Z * gmap string float)) : list (Z * float) :=
  map (fun r => (Datetime.minute_of r.1, cell_at r.2 "tas")) hour_data.

(** Lines 165-172: for every bin the array is built and then assigned to
    the cell of the bin under the label [temp]. *)
Fixpoint grid_loop (hourly_df : DataFrame cell)
    (groups : list (Z * list (Z * gmap string float))) : option (DataFrame cell) :=
  match groups with
  | [] => Some hourly_df
  | g :: rest =>
      hourly_temp_array ← place_all nan_grid (minute_temps g.2);
      hourly_df ← loc_set hourly_df g.1 "temp" (Grid hourly_temp_array);
      grid_loop hourly_df rest
  end.

(** Lines 163-172; [hourly_df] starts with the column [tas] and no row. *)
Definition grid_resample (df : DataFrame float) : option (DataFrame cell) :=
  grid_loop (mkDataFrame ["tas"] []) (resample df).

(** Lines 131-174. *)
Definition resample_to_hourly_steps (t : RawTable) : option (DataFrame cell) :=
  df ← set_index_datetime t;
  df ← add_tas (replace sentinel Float64.nan df);
  if datetime_index df then
    if hourly then Some (frame_map Num (resample_apply custom_aggregation df))
    else grid_resample df
  else None.

(** *** The folder loop *)

(** [file.endswith(suffix)]. *)
Definition endswith (suffix s : string) : bool :=
  let n := String.length s in
  let m := String.length suffix in
  (m <=? n)%nat && String.eqb (substring (n - m) m s) suffix.

Fixpoint insert_by_name {A} (f : string * A) (l : list (string * A)) : list (string * A) :=
  match l with
  | [] => [f]
  | f' :: l' => if String.ltb f.1 f'.1 then f :: l else f' :: insert_by_name f l'
  end.

(** [get_files]: the [.dat] entries of the directory, sorted by name.  Each
    entry carries the table [pd.read_csv] reads from it. *)
Definition get_files (listing : list (string * RawTable)) : list (string * RawTable) :=
  fold_left (fun acc f => insert_by_name f acc)
    (List.filter (fun f => endswith ".dat" f.1) listing) [].

Definition convert_to_dataframe (file : string * RawTable) : option (DataFrame cell) :=
  resample_to_hourly_steps file.2.

Definition append_to_dataframes (dataframe df : DataFrame cell) : DataFrame cell :=
  pd_concat dataframe df.

Fixpoint extract_loop (dataframe : DataFrame cell) (files : list (string * RawTable))
    : option (DataFrame cell) :=
  match files with
  | [] => Some dataframe
  | file :: rest =>
      df ← convert_to_dataframe file;
      extract_loop (append_to_dataframes dataframe df) rest
  end.

(** Lines 115-127; [first_n_files = None] takes every file. *)
Definition extract (files : list (string * RawTable)) (first_n_files : option nat)
    : option (DataFrame cell) :=
  extract_loop empty_frame (take (default (length files) first_n_files) files).

(** *** Projection *)

Definition mapping : list (string * string) :=
  [("tas", "tas"); ("vis_light", "vis_light"); ("uv_light", "uv_light");
   ("ir_light", "ir_light")]%string.

(** [list(set(columns).intersection(set(mapping.keys())))]; Python leaves
    the order of the result open, here it is the frame's. *)
Definition intersect_columns (cols : list string) : list string :=
  List.filter (fun c => bool_decide (c ∈ map fst mapping)) (remove_dups cols).

(** Lines 177-199 on [self.dataframe]. *)
Definition transform (dataframe : DataFrame cell) : option (DataFrame cell) :=
  let projected := select_columns (intersect_columns (columns dataframe)) dataframe in
  kept ← (if hourly then dropna ["tas"%string] projected else Some projected);
  Some (rename mapping kept).

(** [execute] up to the hand-over to [load]. *)
Definition execute (listing : list (string * RawTable)) : option (DataFrame cell) :=
  dataframe ← extract (get_files listing) None;
  transform dataframe.

End Converter.

(** *** Back-conversion to the log format *)

(** Lines 260-269. *)
Definition transform_df_to_tas (df : DataFrame float) : option (DataFrame float) :=
  df ← drop_columns [tas_sensor] df;
  let df := rename [("tas"%string, tas_sensor)] df in
  if bool_decide (tas_sensor ∈ columns df) then
    let df := set_column tas_sensor (fun r => K_to_C (cell_at r.2 tas_sensor)) df in
    let df := frame_map (Float64.round_digits digit_precision) df in
    Some (fillna sentinel df)
  else None.

(** The temperature of one reading through lines 145-148, and back through
    lines 265-268. *)
Definition tas_of_reading (c : float) : float := C_to_K (Float64.nanmean [c]).

Definition exported_value (k : float) : float :=
  let x := Float64.round_digits digit_precision (K_to_C k) in
  if Float64.isnan x then sentinel else x.

(** A Celsius value with two decimals, [k / 100]. *)
Definition centi (k : Z) : float := (Float64.of_Z k / 100)%float.

(** ** Reference notions the properties are stated with *)

(** [s] is a binary64 sum of the values of [l]: every value enters the sum
    once, in some order and under some grouping of the additions. *)
Inductive float_sum : list float -> float -> Prop :=
  | float_sum_empty : float_sum [] 0%float
  | float_sum_empty_neg : float_sum [] (-0)%float
  | float_sum_one (x : float) : float_sum [x] x
  | float_sum_add (l1 l2 : list float) (s1 s2 : float) :
      float_sum l1 s1 -> float_sum l2 s2 -> float_sum (l1 ++ l2) (s1 + s2)%float
  | float_sum_perm (l l' : list float) (s : float) :
      l ≡ₚ l' -> float_sum l s -> float_sum l' s.

(** What one value of a vector contributes to the sum of [nanmean]: nothing
    where 0 stands for a NaN, itself otherwise. *)
Definition leaf (x : float) : list float := if Float64.isnan x then [] else [x].

(** [m] is the arithmetic mean of [xs] in binary64: a sum of the values
    over their number. *)
Definition arithmetic_mean (xs : list float) (m : float) : Prop :=
  exists s, float_sum xs s /\ m = (s / Float64.of_nat (length xs))%float.

(** [d] lists the distinct values of [series], each once: every value of
    [series] compares equal to a value of [d], and no value of [d] compares
    equal to one listed before it. *)
Definition distinct_values (series d : list float) : Prop :=
  (forall x, x ∈ series -> exists y, y ∈ d /\ (x =? y)%float = true) /\
  (forall y, y ∈ d -> y ∈ series) /\
  (forall (i j : nat) a b, (i < j)%nat -> d !! i = Some a -> d !! j = Some b ->
     (b =? a)%float = false).

(** The aggregation rule of scalar mode on the values of one hour: with
    [series] the values that are not missing, the aggregate is missing when
    [series] holds at most two distinct values, and the arithmetic mean of
    [series] otherwise. *)
Definition aggregation_rule (group : list float) (v : float) : Prop :=
  let series := List.filter (fun x => negb (PrimFloat.is_nan x)) group in
  exists d, distinct_values series d /\
    if (length d <=? 2)%nat then v = PrimFloat.nan else arithmetic_mean series v.

(** The rows of [l] labelled with a minute of the hour that starts at [h]:
    [g] holds them by time, rows of one label in the order of [l]. *)
Definition rows_of_hour {A} (h : Z) (l g : list (Z * A)) : Prop :=
  StronglySorted (fun a b => a.1 <= b.1) g /\
  forall t, List.filter (fun r => r.1 =? t) g =
            if (h <=? t) && (t <? h + 60) then List.filter (fun r => r.1 =? t) l else [].

(** The hours [H0], [H0 + 1h], ..., [H0 + n h]. *)
Definition hours_from (H0 : Z) (n : nat) : list Z :=
  map (fun i => H0 + 60 * Z.of_nat i) (seq 0 (S n)).

(** The labels span the hours [H0 .. H0 + n h]: [H0] starts an hour, some
    label lies in the first of these hours, some in the last, none
    outside. *)
Definition spans_hours (labels : list Z) (H0 : Z) (n : nat) : Prop :=
  H0 mod 60 = 0 /\
  (exists t, t ∈ labels /\ H0 <= t < H0 + 60) /\
  (exists t, t ∈ labels /\ H0 + 60 * Z.of_nat n <= t < H0 + 60 * Z.of_nat n + 60) /\
  (forall t, t ∈ labels -> H0 <= t < H0 + 60 * Z.of_nat n + 60).

(** The round trip of one two-decimal Celsius value [k / 100]: Kelvin and
    back, rounded, compares equal to the rounded value, and the value
    exported after the selector stage compares equal to the value itself. *)
Definition roundtrip_ok (k : Z) : bool :=
  let c := centi k in
  (Float64.round_digits digit_precision (K_to_C (C_to_K c))
   =? Float64.round_digits digit_precision c)%float
  && (exported_value (tas_of_reading c) =? c)%float.

(** [roundtrip_ok] on the [n] values from [k] upwards. *)
Fixpoint roundtrip_range (n : nat) (k : Z) : bool :=
  match n with
  | O => true
  | S n' => roundtrip_ok k && roundtrip_range n' (k + 1)
  end.

(** ** Sample inputs *)

(** A mapping table that fills the grid row by row, one cell per minute. *)
Definition row_major_rule (m : Z) : option (Z * Z) :=
  if (0 <=? m) && (m <? 60) then Some (m / 8, m mod 8) else None.

(** A mapping table that sends each pair of minutes [2k], [2k+1] to one
    cell. *)
Definition paired_rule (m : Z) : option (Z * Z) :=
  if (0 <=? m) && (m <? 60) then Some ((m / 2) / 8, (m / 2) mod 8) else None.

(** A reading of 17 May 2023 with the station's two sensor columns. *)
Definition reading_at (h mi : Z) (celsius : float) : RawRecord :=
  mkRawRecord 2023 5 17 h mi
    {[ "mcp9808"%string := celsius; "vis_light"%string := 3.5%float ]}.

Definition station_header : list string := ["mcp9808"; "vis_light"]%string.

(** A working frame that already has a column named [tas]. *)
Definition clash_frame : DataFrame float :=
  mkDataFrame ["mcp9808"; "tas"]%string
    [(0, {[ "mcp9808"%string := 20%float; "tas"%string := 5%float ]})].

(** The spec's example hour: 20.0, 22.0 and 20.0 degrees at minutes 0, 30
    and 45 of hour 12. *)
Definition station_log : RawTable :=
  mkRawTable station_header
    [reading_at 12 0 20%float; reading_at 12 30 22%float; reading_at 12 45 20%float].

(** The label of 17 May 2023, 12:00, in minutes. *)
Definition noon : Z := 1063666800.

(** A working frame in chronological order with readings in hours 12 and
    15, two of them in minutes that share a cell under [paired_rule]. *)
Definition gap_frame : DataFrame float :=
  mkDataFrame ["mcp9808"; "tas"]%string
    [(noon + 10, {[ "mcp9808"%string := 7%float; "tas"%string := 280.15%float ]});
     (noon + 11, {[ "mcp9808"%string := 5%float; "tas"%string := 278.15%float ]});
     (noon + 200, {[ "mcp9808"%string := 9%float; "tas"%string := 282.15%float ]})].

(** Two logs of one hour: the first holds 20.0 and 21.0 degrees, the second
    22.0 degrees; and the log of all three readings. *)
Definition first_half_log : RawTable :=
  mkRawTable station_header [reading_at 12 0 20%float; reading_at 12 10 21%float].

Definition second_half_log : RawTable :=
  mkRawTable station_header [reading_at 12 30 22%float].

Definition whole_hour_log : RawTable :=
  mkRawTable station_header (records first_half_log ++ records second_half_log).

Definition two_file_listing : list (string * RawTable) :=
  [("b.dat"%string, second_half_log); ("notes.rtf"%string, mkRawTable [] []);
   ("a.dat"%string, first_half_log)].

(** An hourly table of scalar mode: one hour with a temperature, the next
    without. *)
Definition scalar_table : DataFrame cell :=
  mkDataFrame ["mcp9808"; "vis_light"; "tas"]%string
    [(noon, {[ "mcp9808"%string := Num 21%float; "vis_light"%string := Num Float64.nan;
               "tas"%string := Num 294.15%float ]});
     (noon + 60, {[ "mcp9808"%string := Num Float64.nan; "vis_light"%string := Num Float64.nan;
                    "tas"%string := Num Float64.nan ]})].

(** The cell of the 8x8 array that the table gives for a minute; [None]
    when the lookup or the array index fails. *)
Definition cell_of (mapping_rule : Z -> option (Z * Z)) (m : Z) : option (nat * nat) :=
  cellpos ← mapping_rule m;
  r ← norm_index 8 cellpos.1;
  c ← norm_index 8 cellpos.2;
  Some (r, c).

(** The table sends different minutes of the hour to different cells. *)
Definition rule_injective (mapping_rule : Z -> option (Z * Z)) : Prop :=
  forall m1 m2 p, 0 <= m1 < 60 -> 0 <= m2 < 60 ->
    cell_of mapping_rule m1 = Some p -> cell_of mapping_rule m2 = Some p -> m1 = m2.

(** The canonical output columns, the keys of [mapping]. *)
Definition canonical_columns : list string :=
  ["tas"; "vis_light"; "uv_light"; "ir_light"]%string.

(** Ten readings of one hour, 20.00 to 20.90 degrees, as a working frame
    with the derived column. *)
Definition ten_readings : list float :=
  [20; 20.1; 20.2; 20.3; 20.4; 20.5; 20.6; 20.7; 20.8; 20.9]%float.

Definition ten_minute_log : RawTable :=
  mkRawTable station_header
    (map (fun i => reading_at 12 (5 * Z.of_nat i) (nth i ten_readings 0%float)) (seq 0 10)).

Definition ten_minute_frame : DataFrame float :=
  default empty_frame
    (set_index_datetime ten_minute_log
       ≫= fun df0 => add_tas (replace sentinel Float64.nan df0)).

(** A log with readings in hours 12 and 15 and none between. *)
Definition gap_log : RawTable :=
  mkRawTable station_header
    [reading_at 12 10 7%float; reading_at 12 11 5%float; reading_at 15 20 9%float].



(** A processed table whose second row holds no value under [vis_light],
    as [pd.concat] leaves it for a file without that column. *)
Definition ragged_table : DataFrame float :=
  mkDataFrame ["mcp9808"; "vis_light"; "tas"]%string
    [(noon, {[ "mcp9808"%string := 20%float; "vis_light"%string := 3.14159%float;
               "tas"%string := 293.15%float ]});
     (noon + 60, {[ "mcp9808"%string := 21%float; "tas"%string := Float64.nan ]})].

(** * The sample loader ([netcdfloader.py]) *)

Module Loader.

(** The values of [split] for which [__init__] finds a path. *)
Inductive Split := train | test | infill | val.

(** [random.randint(a, b)] on the raw value the generator delivers:
    [ValueError] on an empty range, a value of [a..b] otherwise. *)
Definition randint (raw a b : Z) : option Z :=
  if b <? a then None else Some (a + raw `mod` (b - a + 1)).

Section Loader.

(** Frames are the [(H, W)] slices of the two h5 variables; [mul] is the
    elementwise product of an image frame and a mask frame. *)
Context {A : Type} (mul : A -> A -> A).

Record NetCDFLoader := mkNetCDFLoader {
  split : Split;
  prev_next : Z;
  img_data : list A;
  mask_data : list A;
  img_length : Z;
  mask_length : Z
}.

(** [__init__]: the two lengths are read once from the files. *)
Definition NetCDFLoader_init (split : Split) (prev_next : Z) (img mask : list A)
    : NetCDFLoader :=
  mkNetCDFLoader split prev_next img mask (Z.of_nat (length img)) (Z.of_nat (length mask)).

Definition len (ld : NetCDFLoader) : Z := img_length ld.

(** [data[i, :, :]] on an h5 variable: a negative [i] counts from the end,
    anything else out of range raises. *)
Definition h5_get (data : list A) (i : Z) : option A :=
  k ← norm_index (Z.of_nat (length data)) i; data !! k.

(** The mask read for time step [i]: the mask of that step in the [infill]
    split, a randomly drawn one otherwise.  [k] counts the draws made. *)
Definition pick_mask (ld : NetCDFLoader) (draws : nat -> Z) (k : nat) (i : Z)
    : option (A * nat) :=
  match split ld with
  | infill => a ← h5_get (mask_data ld) i; Some (a, k)
  | _ => r ← randint (draws k) 0 (mask_length ld - 1);
         a ← h5_get (mask_data ld) r; Some (a, S k)
  end.

(** One pass of the loop of lines 60-98. *)
Definition step (ld : NetCDFLoader) (draws : nat -> Z) (index : Z)
    (st : list A * list A * nat) (i : Z) : option (list A * list A * nat) :=
  let '(img_total, mask_total, k) := st in
  let prev_index := index - i in
  let prev_index := if prev_index <? 0 then 0 else prev_index in
  let next_index := index + i in
  let next_index := if img_length ld - 1 <? next_index then img_length ld - 1 else next_index in
  img_prev ← h5_get (img_data ld) prev_index;
  let img_total := img_prev :: img_total in
  img_next ← h5_get (img_data ld) next_index;
  let img_total := img_total ++ [img_next] in
  let next_index := index + i in
  let next_index := if mask_length ld - 1 <? next_index then mask_length ld - 1 else next_index in
  '(mask_prev, k) ← pick_mask ld draws k prev_index;
  '(mask_next, k) ← pick_mask ld draws k next_index;
  let mask_total := mask_prev :: mask_total in
  let mask_total := mask_total ++ [mask_next] in
  Some (img_total, mask_total, k).

Fixpoint loop (ld : NetCDFLoader) (draws : nat -> Z) (index : Z)
    (st : list A * list A * nat) (range : list Z) : option (list A * list A * nat) :=
  match range with
  | [] => Some st
  | i :: range => st ← step ld draws index st i; loop ld draws index st range
  end.

(** [PrevNextImageNetCDFLoader.__getitem__]: the masked images, the masks
    and the images, each a stack of frames. *)
Definition getitem (ld : NetCDFLoader) (draws : nat -> Z) (index : Z)
    : option (list A * list A * list A) :=
  img_current ← h5_get (img_data ld) index;
  '(mask_current, k) ← pick_mask ld draws 0 index;
  '(img_total, mask_total, _) ←
    loop ld draws index ([img_current], [mask_current], k) (seqZ 1 (prev_next ld));
  Some (zip_with mul img_total mask_total, mask_total, img_total).

End Loader.

(** The frames of [data] at the time steps [index - n .. index + n], a step
    before the first or after the last frame replaced by that frame. *)
Definition clamp (n x : Z) : Z := Z.max 0 (Z.min x (n - 1)).

Definition window {A} (data : list A) (index n : Z) : list (option A) :=
  (fun k => data !! Z.to_nat (clamp (Z.of_nat (length data)) (index + k)))
    <$> seqZ (- n) (2 * n + 1).

End Loader.

(** * The attention block ([model/attention_module.py]) *)

Module Attention.

(** The arguments of one [EncoderBlock(...)] call; the activation is
    [nn.ReLU()] throughout. *)
Record EncoderBlock := mkEncoderBlock {
  in_channels : Z;
  out_channels : Z;
  image_size : Z;
  kernel : Z * Z;
  stride : Z * Z;
  lstm : bool
}.

(** The list [encoding_layers] of block [i] (lines 22-48), for the image
    size [s], [e] encoding and [p] pooling layers and [c] input channels.
    For [e < 1] the first divisor [2 ** (e - 1)] is no integer: no list of
    integer layer sizes exists. *)
Definition encoding_layers (with_lstm : bool) (i : nat) (s e p c : Z)
    : option (list EncoderBlock) :=
  if e <? 1 then None
  else
    let first := mkEncoderBlock c (s / 2 ^ (e - 1)) s (7, 7) (2, 2) with_lstm in
    let enc :=
      (fun j =>
         if Z.of_nat i =? e - 1 then
           mkEncoderBlock (s / 2 ^ (e - j)) (s / 2 ^ (e - j - 1)) (s / 2 ^ j)
                          (3, 3) (2, 2) with_lstm
         else
           mkEncoderBlock (s / 2 ^ (e - j)) (s / 2 ^ (e - j - 1)) (s / 2 ^ j)
                          (5, 5) (2, 2) with_lstm) <$> seqZ 1 (e - 1) in
    let pool :=
      (fun j => mkEncoderBlock s s (s / 2 ^ (e + j)) (3, 3) (2, 2) with_lstm)
        <$> seqZ 0 p in
    Some ((first :: enc) ++ pool).

(** [ConvolutionalAttentionBlock.__init__], the encoding layers of every
    channel attention block. *)
Definition init (img_sizes enc_layers pool_layers channels : list Z) (with_lstm : bool)
    : option (list (list EncoderBlock)) :=
  if bool_decide (length img_sizes = length enc_layers /\
                  length enc_layers = length pool_layers /\
                  length pool_layers = length channels) then
    mapM (fun i =>
            s ← img_sizes !! i; e ← enc_layers !! i;
            p ← pool_layers !! i; c ← channels !! i;
            encoding_layers with_lstm i s e p c)
         (seq 0 (length img_sizes))
  else None.

End Attention.

(** Frames reduced to one number each: four time steps, their masks, and a
    generator that delivers 0, 1, 2, ... *)
Definition four_steps : list Z := [10; 11; 12; 13].

Definition four_masks : list Z := [1; 0; 1; 1].

Definition counting (k : nat) : Z := Z.of_nat k.

(** The module built from the default arguments of [__init__]. *)
Definition default_blocks : list (list Attention.EncoderBlock) :=
  default [] (Attention.init [512] [4] [4] [1] true).

Definition default_layers : list Attention.EncoderBlock :=
  default [] (default_blocks !! 0%nat).

(** * Properties *)

(** ** Sentinel normalisation (line 138) *)

Lemma nan_is_not_sentinel : (Float64.nan =? sentinel)%float = false.
Proof. reflexivity. Qed.

Lemma replace_value_idem (x : float) :
  replace_value sentinel Float64.nan (replace_value sentinel Float64.nan x)
  = replace_value sentinel Float64.nan x.
Proof.
  unfold replace_value.
  destruct (x =? sentinel)%float eqn:E.
  - now rewrite nan_is_not_sentinel.
  - now rewrite E.
Qed.

Lemma frame_map_rows_ext {A B} (f g : A -> B) (df : DataFrame A) :
  Forall (fun r => forall c x, r.2 !! c = Some x -> f x = g x) (rows df) ->
  frame_map f df = frame_map g df.
Proof.
  unfold frame_map. intros H. f_equal.
  induction H as [|r l Hr _ IH]; simpl; [reflexivity|].
  rewrite IH. do 2 f_equal.
  apply map_eq. intros c. rewrite !lookup_fmap.
  destruct (r.2 !! c) as [x|] eqn:E; simpl; [|reflexivity].
  f_equal. eauto.
Qed.

Lemma frame_map_id {A} (df : DataFrame A) : frame_map (fun x => x) df = df.
Proof.
  destruct df as [cols rs]. unfold frame_map. simpl. f_equal.
  induction rs as [|[t r] rs IH]; simpl; [reflexivity|].
  rewrite IH. do 2 f_equal. apply map_fmap_id.
Qed.

Lemma frame_map_compose {A B C} (f : A -> B) (g : B -> C) (df : DataFrame A) :
  frame_map g (frame_map f df) = frame_map (fun x => g (f x)) df.
Proof.
  unfold frame_map. simpl. f_equal. rewrite map_map. apply map_ext.
  intros r. simpl. f_equal. symmetry. apply (map_fmap_compose f g).
Qed.

(** C8.  [replace sentinel nan] turns every cell equal to -999.99 into the
    missing marker and leaves every other cell, the labels and the columns
    as they were; a second pass changes nothing, and a frame without a
    -999.99 cell is returned as it is. *)
Theorem sentinel_normalization (df : DataFrame float) :
  let out := replace sentinel Float64.nan df in
  columns out = columns df /\
  Forall2 (fun r r' =>
             r'.1 = r.1 /\
             forall c, r'.2 !! c =
                       (fun x => if (x =? sentinel)%float then Float64.nan else x) <$> r.2 !! c)
          (rows df) (rows out) /\
  replace sentinel Float64.nan out = out /\
  (Forall (fun r => forall c x, r.2 !! c = Some x -> (x =? sentinel)%float = false) (rows df) ->
   out = df).
Proof.
  cbv zeta. split; [reflexivity|]. split; [|split].
  - unfold replace, frame_map. simpl.
    induction (rows df) as [|r l IH]; simpl; constructor; [|exact IH].
    split; [reflexivity|]. intros c. simpl. now rewrite lookup_fmap.
  - unfold replace. rewrite frame_map_compose.
    apply frame_map_rows_ext. apply Forall_forall. intros r _ c x _.
    apply replace_value_idem.
  - intros H. unfold replace. rewrite <- (frame_map_id df) at 2.
    apply frame_map_rows_ext. eapply Forall_impl; [exact H|].
    intros r Hr c x Hx. simpl in Hr. unfold replace_value. now rewrite (Hr c x Hx).
Qed.

(** ** The derived temperature column (lines 144-148) *)

Lemma tas_sensor_is_not_tas : tas_sensor <> "tas"%string.
Proof. discriminate. Qed.

Lemma add_tas_rows (df out : DataFrame float) :
  add_tas df = Some out ->
  rows out =
  map (fun r => (r.1, <["tas"%string := C_to_K (mean_axis1 [tas_sensor] r.2)]> r.2)) (rows df).
Proof.
  unfold add_tas. case_bool_decide; [|discriminate].
  intros [= <-]. unfold set_column. simpl. rewrite map_map.
  apply map_ext. intros r. simpl. f_equal.
  unfold cell_at at 1. rewrite lookup_insert_eq. simpl.
  apply insert_insert_eq.
Qed.

Lemma add_tas_columns (df out : DataFrame float) :
  add_tas df = Some out ->
  columns out =
  if bool_decide ("tas"%string ∈ columns df) then columns df
  else columns df ++ ["tas"%string].
Proof.
  unfold add_tas. case_bool_decide; [|discriminate].
  intros [= <-]. unfold set_column. simpl.
  destruct (bool_decide ("tas"%string ∈ columns df)) eqn:Hc.
  - now rewrite Hc.
  - rewrite bool_decide_eq_true_2; [reflexivity|].
    apply elem_of_app. right. now apply list_elem_of_singleton.
Qed.

(** C9, as the code has it.  When the sensor column exists the stage
    succeeds; it keeps the labels, keeps every cell of every column other
    than [tas] (the sensor column with its Celsius values among them), and
    sets [tas] to the Kelvin value of the row mean over the sensor column.
    A column named [tas] that the input already had is overwritten. *)
Theorem add_tas_frame (df out : DataFrame float) :
  add_tas df = Some out ->
  (forall c, c ∈ columns df -> c ∈ columns out) /\
  "tas"%string ∈ columns out /\
  Forall2 (fun r r' =>
             r'.1 = r.1 /\
             (forall c, c <> "tas"%string -> r'.2 !! c = r.2 !! c) /\
             r'.2 !! tas_sensor = r.2 !! tas_sensor /\
             r'.2 !! "tas"%string = Some (C_to_K (mean_axis1 [tas_sensor] r.2)))
          (rows df) (rows out).
Proof.
  intros H. pose proof (add_tas_columns _ _ H) as Hc.
  pose proof (add_tas_rows _ _ H) as Hr. split; [|split].
  - intros c Hin. rewrite Hc. case_bool_decide; [exact Hin|].
    apply elem_of_app. now left.
  - rewrite Hc. case_bool_decide as Ht; [exact Ht|].
    apply elem_of_app. right. now apply list_elem_of_singleton.
  - rewrite Hr. clear. induction (rows df) as [|r l IH]; simpl; constructor; [|exact IH].
    simpl. repeat split.
    + intros c Hne. now rewrite lookup_insert_ne.
    + rewrite lookup_insert_ne; [reflexivity|]. intros E. now apply tas_sensor_is_not_tas.
    + apply lookup_insert_eq.
Qed.

(** [add_tas_frame] on [clash_frame]. *)
Lemma add_tas_frame_witness :
  (forall c, c ∈ columns clash_frame -> c ∈ columns (default empty_frame (add_tas clash_frame))) /\
  "tas"%string ∈ columns (default empty_frame (add_tas clash_frame)) /\
  Forall2 (fun r r' =>
             r'.1 = r.1 /\
             (forall c, c <> "tas"%string -> r'.2 !! c = r.2 !! c) /\
             r'.2 !! tas_sensor = r.2 !! tas_sensor /\
             r'.2 !! "tas"%string = Some (C_to_K (mean_axis1 [tas_sensor] r.2)))
          (rows clash_frame) (rows (default empty_frame (add_tas clash_frame))).
Proof.
  apply (add_tas_frame clash_frame (default empty_frame (add_tas clash_frame))).
  vm_compute. reflexivity.
Defined.

(** C9, the claim as written fails on a frame that has a [tas] column: the
    column is present before the stage with 5.0 and holds 293.15 after. *)
Lemma add_tas_overwrites_existing_tas :
  "tas"%string ∈ columns clash_frame /\
  column_values "tas" (rows clash_frame) = [5%float] /\
  (fun out => column_values "tas" (rows out)) <$> add_tas clash_frame
  = Some [293.15%float].
Proof.
  split; [|split].
  - apply list_elem_of_In. simpl. auto.
  - vm_compute. reflexivity.
  - vm_compute. reflexivity.
Qed.

(** ** Projection and renaming (lines 177-199) *)

Lemma rename_mapping_id (c : string) : rename_label mapping c = c.
Proof.
  unfold rename_label, mapping. cbn [List.find fst snd].
  repeat match goal with
         | |- context [String.eqb ?a c] => destruct (String.eqb_spec a c); [now subst|]
         end.
  reflexivity.
Qed.

#[local] Instance rename_mapping_inj : Inj (=) (=) (rename_label mapping).
Proof. intros a b. now rewrite !rename_mapping_id. Qed.

Lemma tas_in_intersect (cols : list string) :
  "tas"%string ∈ intersect_columns cols <-> "tas"%string ∈ cols.
Proof.
  unfold intersect_columns. rewrite list_elem_of_In, filter_In, <- list_elem_of_In.
  rewrite elem_of_remove_dups. split; [tauto|]. intros H. split; [exact H|].
  reflexivity.
Qed.

(** The cells of one row after projection and renaming. *)
Lemma projected_tas (cols : list string) (r : gmap string cell) :
  "tas"%string ∈ cols ->
  cell_at (kmap (M2 := gmap string) (rename_label mapping)
             (filter (fun kv : string * cell => kv.1 ∈ cols) r)) "tas"
  = cell_at r "tas".
Proof.
  intros Hin. unfold cell_at.
  rewrite <- (rename_mapping_id "tas") at 1.
  rewrite lookup_kmap; [|apply _].
  rewrite map_lookup_filter.
  destruct (r !! "tas"%string) as [x|]; simpl; [|reflexivity].
  now rewrite option_guard_True.
Qed.

Lemma dropna_tas_rows (cols : list string) (l : list (Z * gmap string cell)) :
  "tas"%string ∈ cols ->
  List.filter (fun r => negb (existsb (fun c => isna (cell_at r.2 c)) ["tas"%string]))
    (map (fun r => (r.1, filter (fun kv : string * cell => kv.1 ∈ cols) r.2)) l)
  = map (fun r => (r.1, filter (fun kv : string * cell => kv.1 ∈ cols) r.2))
      (List.filter (fun r => negb (isna (cell_at r.2 "tas"))) l).
Proof.
  intros Hin. induction l as [|r l IH]; [reflexivity|].
  cbn [map List.filter existsb fst snd] in *. rewrite orb_false_r.
  assert (E : cell_at (filter (fun kv : string * cell => kv.1 ∈ cols) r.2) "tas"
              = cell_at r.2 "tas").
  { unfold cell_at. rewrite map_lookup_filter.
    destruct (r.2 !! "tas"%string) as [x|]; [|reflexivity].
    cbn [mbind option_bind]. now rewrite option_guard_True. }
  rewrite E. destruct (isna (cell_at r.2 "tas")); cbn [negb map]; now rewrite IH.
Qed.

Lemma transform_rows (hourly : bool) (df out : DataFrame cell) :
  transform hourly df = Some out ->
  (hourly = true -> "tas"%string ∈ columns df) /\
  rows out =
  map (fun r => (r.1, kmap (rename_label mapping)
                        (filter (fun kv : string * cell => kv.1 ∈ intersect_columns (columns df)) r.2)))
    (List.filter (fun r => negb (hourly && isna (cell_at r.2 "tas"))) (rows df)).
Proof.
  unfold transform. destruct hourly.
  - unfold dropna, select_columns. cbn [columns rows forallb]. rewrite andb_true_r.
    case_bool_decide as Hin; [|discriminate].
    cbn [mbind option_bind]. intros [= <-]. split.
    + intros _. now apply tas_in_intersect.
    + unfold rename. cbn [rows]. rewrite dropna_tas_rows by exact Hin.
      rewrite map_map. reflexivity.
  - cbn [mbind option_bind]. intros [= <-]. split; [discriminate|].
    unfold rename, select_columns. cbn [rows andb]. rewrite map_map.
    f_equal. induction (rows df) as [|r l IH]; [reflexivity|].
    cbn [List.filter negb] in *. now rewrite <- IH.
Qed.

(** C7.  When [transform] completes, the rows of its result are the rows of
    its input, in order and each projected onto the canonical columns,
    without exactly those rows for which the run is in scalar mode and the
    [tas] cell is missing: in scalar mode no row of the result has a missing
    [tas], in grid mode the result has every label of the input. *)
Theorem projection_drop_rule (hourly : bool) (df out : DataFrame cell) :
  transform hourly df = Some out ->
  (exists project : gmap string cell -> gmap string cell,
     rows out =
     map (fun r => (r.1, project r.2))
       (List.filter (fun r => negb (hourly && isna (cell_at r.2 "tas"))) (rows df))) /\
  (hourly = true -> Forall (fun r => isna (cell_at r.2 "tas") = false) (rows out)) /\
  (hourly = false -> index out = index df).
Proof.
  intros H. destruct (transform_rows _ _ _ H) as [Htas Hr]. split; [|split].
  - exists (fun m => kmap (rename_label mapping)
                       (filter (fun kv : string * cell => kv.1 ∈ intersect_columns (columns df)) m)).
    exact Hr.
  - intros ->. specialize (Htas eq_refl). rewrite Hr. apply Forall_forall.
    intros r' Hin. apply list_elem_of_In, in_map_iff in Hin.
    destruct Hin as (r & <- & Hin). apply filter_In in Hin. destruct Hin as [_ Hk].
    cbn [fst snd andb] in *. rewrite projected_tas; [|now apply tas_in_intersect].
    now apply negb_true_iff.
  - intros ->. unfold index. rewrite Hr, map_map. cbn [fst andb negb]. clear.
    induction (rows df) as [|r l IH]; [reflexivity|].
    cbn [List.filter map]. now rewrite IH.
Qed.

(** [projection_drop_rule] in scalar mode on [scalar_table]. *)
Lemma projection_drop_rule_witness :
  (exists project : gmap string cell -> gmap string cell,
     rows (default empty_frame (transform true scalar_table)) =
     map (fun r => (r.1, project r.2))
       (List.filter (fun r => negb (true && isna (cell_at r.2 "tas"))) (rows scalar_table))) /\
  (true = true ->
   Forall (fun r => isna (cell_at r.2 "tas") = false)
     (rows (default empty_frame (transform true scalar_table)))) /\
  (true = false -> index (default empty_frame (transform true scalar_table)) = index scalar_table).
Proof.
  apply (projection_drop_rule true scalar_table (default empty_frame (transform true scalar_table))).
  vm_compute. reflexivity.
Defined.

(** ** Celsius, Kelvin and back (lines 148 and 265-266) *)

(** What the two stages compute on one reading: lines 145-148 put
    [tas_of_reading] of the sensor cell under [tas], lines 262-268 put
    [exported_value] of the [tas] cell under the sensor's name. *)
Lemma add_tas_cell (df out : DataFrame float) :
  add_tas df = Some out ->
  Forall2 (fun r r' => r'.2 !! "tas"%string = Some (tas_of_reading (cell_at r.2 tas_sensor)))
    (rows df) (rows out).
Proof.
  intros H. rewrite (add_tas_rows _ _ H). clear.
  induction (rows df) as [|r l IH]; cbn [map]; constructor; [|exact IH].
  cbn [snd]. apply lookup_insert_eq.
Qed.

Lemma renamed_tas_cell (m : gmap string float) :
  kmap (M2 := gmap string) (rename_label [("tas"%string, tas_sensor)])
    (filter (fun kv : string * float => kv.1 ∉ [tas_sensor]) m) !! tas_sensor
  = m !! "tas"%string.
Proof.
  set (m1 := filter (fun kv : string * float => kv.1 ∉ [tas_sensor]) m).
  set (g := fun c : string =>
              if String.eqb c "tas" then tas_sensor
              else if String.eqb c tas_sensor then "tas"%string else c).
  assert (Hinj : Inj (=) (=) g).
  { intros a b. unfold g.
    destruct (String.eqb_spec a "tas"), (String.eqb_spec b "tas"),
      (String.eqb_spec a tas_sensor), (String.eqb_spec b tas_sensor); congruence. }
  assert (E : kmap (M2 := gmap string) (rename_label [("tas"%string, tas_sensor)]) m1
              = kmap (M2 := gmap string) g m1).
  { unfold kmap. f_equal. apply list_fmap_ext. intros i [k v] Hk.
    apply list_elem_of_lookup_2, elem_of_map_to_list in Hk.
    unfold m1 in Hk. apply map_lookup_filter_Some in Hk. destruct Hk as [_ Hne].
    cbn [fst] in Hne. unfold prod_map. cbn [fst snd]. f_equal.
    unfold rename_label, g. cbn [List.find fst snd].
    rewrite String.eqb_sym.
    destruct (String.eqb_spec k "tas"); [reflexivity|].
    destruct (String.eqb_spec k tas_sensor) as [->|]; [|reflexivity].
    exfalso. apply Hne. now apply list_elem_of_singleton. }
  rewrite E.
  change (kmap (M2 := gmap string) g m1 !! tas_sensor)
    with (kmap (M2 := gmap string) g m1 !! g "tas"%string).
  rewrite (lookup_kmap g). unfold m1. rewrite map_lookup_filter.
  destruct (m !! "tas"%string) as [x|]; [|reflexivity].
  cbn [mbind option_bind]. rewrite option_guard_True; [reflexivity|].
  cbn [fst]. intros Hin. apply list_elem_of_singleton in Hin. discriminate.
Qed.

Lemma transform_df_to_tas_cell (df out : DataFrame float) :
  transform_df_to_tas df = Some out ->
  Forall2 (fun r r' =>
             r'.1 = r.1 /\
             r'.2 !! tas_sensor = Some (exported_value (cell_at r.2 "tas")))
    (rows df) (rows out).
Proof.
  unfold transform_df_to_tas, drop_columns.
  destruct (forallb _ [tas_sensor]); [|discriminate]. cbn [mbind option_bind].
  destruct (bool_decide _); [|discriminate]. intros [= <-].
  unfold fillna, frame_map, set_column, rename. cbn [rows]. rewrite !map_map.
  induction (rows df) as [|r l IH]; cbn [map]; constructor; [|exact IH].
  cbn [fst snd]. split; [reflexivity|].
  apply lookup_union_Some_l.
  rewrite !lookup_fmap, lookup_insert_eq. cbn [fmap option_fmap option_map].
  unfold exported_value, cell_at. now rewrite renamed_tas_cell.
Qed.

Lemma roundtrip_range_sound (n : nat) (k0 : Z) :
  roundtrip_range n k0 = true ->
  forall k, k0 <= k < k0 + Z.of_nat n -> roundtrip_ok k = true.
Proof.
  revert k0. induction n as [|n IH]; intros k0 H k Hk; [lia|].
  cbn [roundtrip_range] in H. apply andb_true_iff in H. destruct H as [H0 H1].
  destruct (Z.eq_dec k k0) as [->|Hne]; [exact H0|].
  apply (IH (k0 + 1) H1). lia.
Qed.

Lemma roundtrip_range_500 : roundtrip_range (Z.to_nat 100001) (-50000) = true.
Proof. vm_compute. reflexivity. Qed.

(** C4.  For every Celsius value with two decimals between -500.00 and
    500.00, converting to Kelvin, converting back and rounding to the
    configured precision compares equal to the rounded value, and the value
    the exporter writes for the Kelvin temperature of the reading compares
    equal to the reading. *)
Theorem celsius_kelvin_roundtrip (k : Z) :
  -50000 <= k <= 50000 ->
  (Float64.round_digits digit_precision (K_to_C (C_to_K (centi k)))
   =? Float64.round_digits digit_precision (centi k))%float = true /\
  (exported_value (tas_of_reading (centi k)) =? centi k)%float = true.
Proof.
  intros Hk.
  assert (H : roundtrip_ok k = true).
  { apply (roundtrip_range_sound (Z.to_nat 100001) (-50000) roundtrip_range_500).
    rewrite Z2Nat.id; lia. }
  unfold roundtrip_ok in H. cbv zeta in H. now apply andb_true_iff in H.
Qed.

(** [celsius_kelvin_roundtrip] at 20.00 degrees. *)
Lemma celsius_kelvin_roundtrip_witness :
  -50000 <= 2000 <= 50000 /\
  (Float64.round_digits digit_precision (K_to_C (C_to_K (centi 2000)))
   =? Float64.round_digits digit_precision (centi 2000))%float = true /\
  (exported_value (tas_of_reading (centi 2000)) =? centi 2000)%float = true.
Proof.
  split; [lia|]. apply (celsius_kelvin_roundtrip 2000). lia.
Defined.

(** ** The hourly groups ([df.resample("h")]) *)

Lemma hour_bins_NoDup (labels : list Z) : NoDup (hour_bins labels).
Proof.
  unfold hour_bins. destruct labels as [|t ts]; [constructor|]. cbv zeta.
  apply NoDup_fmap_2_strong; [|apply NoDup_seq].
  intros i j _ _. lia.
Qed.

Lemma foldr_min_spec (t : Z) (ts : list Z) :
  In (foldr Z.min t ts) (t :: ts) /\ Forall (fun x => foldr Z.min t ts <= x) (t :: ts).
Proof.
  induction ts as [|x ts [IHin IHle]]; cbn [foldr].
  - split; [now left|]. repeat constructor. lia.
  - apply Forall_cons in IHle. destruct IHle as [Ht Hts]. split.
    + destruct (Z.min_spec x (foldr Z.min t ts)) as [[_ ->]|[_ ->]].
      * right. now left.
      * destruct IHin as [<-|Hin]; [now left|right; now right].
    + constructor; [lia|]. constructor; [lia|].
      eapply Forall_impl; [exact Hts|]. cbn. lia.
Qed.

Lemma foldr_max_spec (t : Z) (ts : list Z) :
  In (foldr Z.max t ts) (t :: ts) /\ Forall (fun x => x <= foldr Z.max t ts) (t :: ts).
Proof.
  induction ts as [|x ts [IHin IHle]]; cbn [foldr].
  - split; [now left|]. repeat constructor. lia.
  - apply Forall_cons in IHle. destruct IHle as [Ht Hts]. split.
    + destruct (Z.max_spec x (foldr Z.max t ts)) as [[_ ->]|[_ ->]].
      * destruct IHin as [<-|Hin]; [now left|right; now right].
      * right. now left.
    + constructor; [lia|]. constructor; [lia|].
      eapply Forall_impl; [exact Hts|]. cbn. lia.
Qed.

Lemma floor_hour_mono (a b : Z) : a <= b -> Datetime.floor_hour a <= Datetime.floor_hour b.
Proof.
  intros H. unfold Datetime.floor_hour.
  pose proof (Z.div_le_mono a b 60 ltac:(lia) H). lia.
Qed.

(** The bins of labels that span the hours [H0 .. H0 + n]: one per hour. *)
Lemma hour_bins_span (labels : list Z) (H0 : Z) (n : nat) :
  (exists t, In t labels /\ Datetime.floor_hour t = H0) ->
  (exists t, In t labels /\ Datetime.floor_hour t = H0 + 60 * Z.of_nat n) ->
  (forall t, In t labels -> H0 <= Datetime.floor_hour t <= H0 + 60 * Z.of_nat n) ->
  hour_bins labels = map (fun i => H0 + 60 * Z.of_nat i) (seq 0 (S n)).
Proof.
  intros (t0 & Hin0 & E0) (tn & Hinn & En) Hall.
  destruct labels as [|t ts]; [destruct Hin0|]. unfold hour_bins. cbv zeta.
  destruct (foldr_min_spec t ts) as [Hmin_in Hmin_le].
  destruct (foldr_max_spec t ts) as [Hmax_in Hmax_le].
  rewrite Forall_forall in Hmin_le, Hmax_le.
  assert (Elo : Datetime.floor_hour (foldr Z.min t ts) = H0).
  { pose proof (Hall _ Hmin_in).
    pose proof (floor_hour_mono _ _ (Hmin_le t0 (proj2 (list_elem_of_In _ _) Hin0))). lia. }
  assert (Ehi : Datetime.floor_hour (foldr Z.max t ts) = H0 + 60 * Z.of_nat n).
  { pose proof (Hall _ Hmax_in).
    pose proof (floor_hour_mono _ _ (Hmax_le tn (proj2 (list_elem_of_In _ _) Hinn))). lia. }
  rewrite Elo, Ehi.
  replace ((H0 + 60 * Z.of_nat n - H0) / 60) with (Z.of_nat n).
  - now rewrite Nat2Z.id.
  - replace (H0 + 60 * Z.of_nat n - H0) with (Z.of_nat n * 60) by lia.
    now rewrite Z.div_mul.
Qed.

(** *** The time-sorted view of a frame *)

Section SortFacts.

Context {A : Type}.
Implicit Types (r : Z * A) (l acc : list (Z * A)).

Lemma insert_by_time_perm r l : insert_by_time r l ≡ₚ r :: l.
Proof.
  induction l as [|r' l IH]; cbn [insert_by_time]; [reflexivity|].
  destruct (r.1 <? r'.1); [reflexivity|].
  rewrite IH. apply Permutation_swap.
Qed.

Lemma fold_insert_perm l acc :
  fold_left (fun acc r => insert_by_time r acc) l acc ≡ₚ acc ++ l.
Proof.
  revert acc. induction l as [|r l IH]; intros acc; cbn [fold_left].
  - now rewrite app_nil_r.
  - rewrite IH, insert_by_time_perm. cbn [app]. apply Permutation_middle.
Qed.

Lemma sort_by_time_perm l : sort_by_time l ≡ₚ l.
Proof. unfold sort_by_time. now rewrite fold_insert_perm. Qed.

Lemma insert_by_time_sorted r l :
  StronglySorted (fun a b => a.1 <= b.1) l ->
  StronglySorted (fun a b => a.1 <= b.1) (insert_by_time r l).
Proof.
  induction 1 as [|r' l Hs IH Hall]; cbn [insert_by_time].
  - repeat constructor.
  - destruct (r.1 <? r'.1) eqn:E.
    + apply Z.ltb_lt in E. constructor; [now constructor|].
      constructor; [lia|]. eapply Forall_impl; [exact Hall|]. cbn. lia.
    + apply Z.ltb_ge in E. constructor; [exact IH|].
      rewrite insert_by_time_perm. constructor; [exact E|exact Hall].
Qed.

Lemma fold_insert_sorted l acc :
  StronglySorted (fun a b => a.1 <= b.1) acc ->
  StronglySorted (fun a b => a.1 <= b.1)
    (fold_left (fun acc r => insert_by_time r acc) l acc).
Proof.
  revert acc. induction l as [|r l IH]; intros acc Hs; cbn [fold_left]; [exact Hs|].
  apply IH. now apply insert_by_time_sorted.
Qed.

Lemma sort_by_time_sorted l : StronglySorted (fun a b => a.1 <= b.1) (sort_by_time l).
Proof. apply fold_insert_sorted. constructor. Qed.

Lemma filter_none (p : Z * A -> bool) l :
  Forall (fun x => p x = false) l -> List.filter p l = [].
Proof.
  induction 1 as [|x l Hx _ IH]; cbn [List.filter]; [reflexivity|]. now rewrite Hx.
Qed.

(** Stability: rows with one and the same label keep their order. *)
Lemma insert_by_time_filter (t : Z) r l :
  StronglySorted (fun a b => a.1 <= b.1) l ->
  List.filter (fun x => x.1 =? t) (insert_by_time r l)
  = List.filter (fun x => x.1 =? t) l ++ (if r.1 =? t then [r] else []).
Proof.
  induction 1 as [|r' l Hs IH Hall]; cbn [insert_by_time].
  - cbn [List.filter app]. now destruct (r.1 =? t).
  - destruct (r.1 <? r'.1) eqn:E.
    + apply Z.ltb_lt in E. cbn [List.filter].
      destruct (r.1 =? t) eqn:Et; [|now rewrite app_nil_r].
      apply Z.eqb_eq in Et.
      replace (r'.1 =? t) with false by (symmetry; apply Z.eqb_neq; lia).
      rewrite filter_none; [reflexivity|].
      eapply Forall_impl; [exact Hall|]. cbn. intros x Hx. apply Z.eqb_neq. lia.
    + cbn [List.filter]. rewrite IH. now destruct (r'.1 =? t).
Qed.

Lemma fold_insert_filter (t : Z) l acc :
  StronglySorted (fun a b => a.1 <= b.1) acc ->
  List.filter (fun x => x.1 =? t) (fold_left (fun acc r => insert_by_time r acc) l acc)
  = List.filter (fun x => x.1 =? t) acc ++ List.filter (fun x => x.1 =? t) l.
Proof.
  revert acc. induction l as [|r l IH]; intros acc Hs; cbn [fold_left].
  - now rewrite app_nil_r.
  - rewrite IH by now apply insert_by_time_sorted.
    rewrite insert_by_time_filter by exact Hs. cbn [List.filter].
    rewrite <- app_assoc. now destruct (r.1 =? t).
Qed.

Lemma sort_by_time_stable (t : Z) l :
  List.filter (fun x => x.1 =? t) (sort_by_time l) = List.filter (fun x => x.1 =? t) l.
Proof. unfold sort_by_time. rewrite fold_insert_filter by constructor. reflexivity. Qed.

(** A list that is in chronological order already is its own sorted view. *)
Lemma insert_by_time_last r l :
  Forall (fun x => x.1 <= r.1) l -> insert_by_time r l = l ++ [r].
Proof.
  induction 1 as [|r' l Hr' _ IH]; cbn [insert_by_time app]; [reflexivity|].
  replace (r.1 <? r'.1) with false by (symmetry; apply Z.ltb_ge; exact Hr').
  now rewrite IH.
Qed.

Lemma fold_insert_chronological l acc :
  StronglySorted (fun a b => a.1 <= b.1) (acc ++ l) ->
  fold_left (fun acc r => insert_by_time r acc) l acc = acc ++ l.
Proof.
  revert acc. induction l as [|r l IH]; intros acc Hs; cbn [fold_left].
  - now rewrite app_nil_r.
  - rewrite insert_by_time_last.
    + rewrite IH; rewrite <- app_assoc; [reflexivity|exact Hs].
    + clear IH. induction acc as [|a acc IHacc]; [constructor|].
      cbn [app] in Hs. apply StronglySorted_inv in Hs. destruct Hs as [Hs Ha].
      constructor; [|now apply IHacc].
      rewrite Forall_app in Ha. destruct Ha as [_ Ha]. now apply Forall_cons in Ha.
Qed.

Lemma sort_by_time_chronological l :
  Sorted (fun a b => a.1 <= b.1) l -> sort_by_time l = l.
Proof.
  intros Hs. unfold sort_by_time. apply (fold_insert_chronological l []).
  cbn [app]. apply Sorted_StronglySorted; [|exact Hs].
  intros a b c. lia.
Qed.

End SortFacts.

Lemma Forall2_index {B} (P : Z -> Z * B -> Prop) (hs : list Z) (rs : list (Z * B)) :
  Forall2 (fun h r => r.1 = h /\ P h r) hs rs -> map fst rs = hs.
Proof.
  induction 1 as [|h r hs rs [Hr _] _ IH]; cbn [map]; [reflexivity|]. now rewrite Hr, IH.
Qed.

Lemma filter_filter_implied {A} (p q : A -> bool) (l : list A) :
  (forall x, p x = true -> q x = true) ->
  List.filter p (List.filter q l) = List.filter p l.
Proof.
  intros Hpq. induction l as [|x l IH]; [reflexivity|]. cbn [List.filter].
  destruct (q x) eqn:Eq; cbn [List.filter]; rewrite IH; [reflexivity|].
  destruct (p x) eqn:Ep; [|reflexivity]. apply Hpq in Ep. congruence.
Qed.

Lemma list_filter_perm {A} (p : A -> bool) (l l' : list A) :
  l ≡ₚ l' -> List.filter p l ≡ₚ List.filter p l'.
Proof.
  induction 1 as [|x l l' _ IH|x y l|l l' l'' _ IH1 _ IH2]; cbn [List.filter].
  - reflexivity.
  - destruct (p x); [now constructor|exact IH].
  - destruct (p x), (p y); try reflexivity. apply Permutation_swap.
  - etransitivity; eassumption.
Qed.

Lemma StronglySorted_list_filter {A} (R : A -> A -> Prop) (p : A -> bool) (l : list A) :
  StronglySorted R l -> StronglySorted R (List.filter p l).
Proof.
  induction 1 as [|x l Hs IH Hall]; cbn [List.filter]; [constructor|].
  destruct (p x); [|exact IH]. constructor; [exact IH|].
  apply Forall_forall. intros y Hy. rewrite Forall_forall in Hall. apply Hall.
  apply list_elem_of_In, filter_In in Hy. apply list_elem_of_In. tauto.
Qed.

(** The rows of one hour as [resample] yields them: the rows of the frame in
    that hour, by time, rows of equal label in the order of the frame; for a
    frame in chronological order, the rows of that hour in the order of the
    frame. *)
Lemma hour_group_order {A} (h : Z) (df : DataFrame A) :
  StronglySorted (fun a b => a.1 <= b.1) (hour_group h df) /\
  hour_group h df ≡ₚ List.filter (fun r => Datetime.floor_hour r.1 =? h) (rows df) /\
  (forall t, Datetime.floor_hour t = h ->
     List.filter (fun r => r.1 =? t) (hour_group h df) = List.filter (fun r => r.1 =? t) (rows df)) /\
  (Sorted (fun a b => a.1 <= b.1) (rows df) ->
   hour_group h df = List.filter (fun r => Datetime.floor_hour r.1 =? h) (rows df)).
Proof.
  unfold hour_group. split; [|split; [|split]].
  - apply StronglySorted_list_filter, sort_by_time_sorted.
  - apply list_filter_perm, sort_by_time_perm.
  - intros t Ht. rewrite filter_filter_implied.
    + apply sort_by_time_stable.
    + intros r Hr. apply Z.eqb_eq in Hr. apply Z.eqb_eq. now rewrite Hr.
  - intros Hs. now rewrite sort_by_time_chronological.
Qed.

(** *** Hours and their rows, as the properties name them *)

Lemma floor_hour_in_hour (h t : Z) :
  h mod 60 = 0 -> Datetime.floor_hour t = h <-> h <= t < h + 60.
Proof.
  intros Hh. unfold Datetime.floor_hour.
  pose proof (Z.div_mod t 60 ltac:(lia)). pose proof (Z.mod_pos_bound t 60 ltac:(lia)).
  pose proof (Z.div_mod h 60 ltac:(lia)). split; intros; lia.
Qed.

Lemma hours_from_aligned (H0 : Z) (n : nat) :
  H0 mod 60 = 0 -> Forall (fun h => h mod 60 = 0) (hours_from H0 n).
Proof.
  intros H. apply Forall_forall. intros h Hh. unfold hours_from in Hh.
  apply list_elem_of_In, in_map_iff in Hh as (i & <- & _).
  replace (H0 + 60 * Z.of_nat i) with (H0 + Z.of_nat i * 60) by lia.
  rewrite Z.mod_add by lia. exact H.
Qed.

Lemma spans_hours_bins (labels : list Z) (H0 : Z) (n : nat) :
  spans_hours labels H0 n -> hour_bins labels = hours_from H0 n.
Proof.
  intros (Ha & (t0 & Hin0 & E0) & (tn & Hinn & En) & Hall).
  assert (Hb : (H0 + 60 * Z.of_nat n) mod 60 = 0).
  { replace (H0 + 60 * Z.of_nat n) with (H0 + Z.of_nat n * 60) by lia.
    rewrite Z.mod_add by lia. exact Ha. }
  apply hour_bins_span.
  - exists t0. split; [now apply list_elem_of_In|]. now apply floor_hour_in_hour.
  - exists tn. split; [now apply list_elem_of_In|]. now apply floor_hour_in_hour.
  - intros t Hin. apply list_elem_of_In, Hall in Hin.
    unfold Datetime.floor_hour.
    pose proof (Z.div_mod t 60 ltac:(lia)). pose proof (Z.mod_pos_bound t 60 ltac:(lia)).
    pose proof (Z.div_mod H0 60 ltac:(lia)). lia.
Qed.

Lemma hour_group_rows_of_hour {A} (h : Z) (df : DataFrame A) :
  h mod 60 = 0 -> rows_of_hour h (rows df) (hour_group h df).
Proof.
  intros Hh. destruct (hour_group_order h df) as (Hs & _ & Hst & _).
  split; [exact Hs|]. intros t.
  destruct ((h <=? t) && (t <? h + 60)) eqn:E.
  - apply Hst, floor_hour_in_hour; [exact Hh|lia].
  - apply filter_none. unfold hour_group. apply Forall_forall. intros r Hr.
    apply list_elem_of_In, filter_In in Hr as [_ Hr]. apply Z.eqb_eq in Hr.
    apply Z.eqb_neq. intros Ert. rewrite Ert in Hr.
    apply floor_hour_in_hour in Hr; [lia|exact Hh].
Qed.

Lemma Forall2_Forall_l {A B} (P : A -> B -> Prop) (Q : A -> Prop) (l : list A) (k : list B) :
  Forall2 P l k -> Forall Q l -> Forall2 (fun a b => P a b /\ Q a) l k.
Proof.
  induction 1 as [|a b l k Hab _ IH]; intros HQ; [constructor|].
  apply Forall_cons in HQ as [Ha HQ]. constructor; [now split|now apply IH].
Qed.

(** ** Scalar mode (lines 151-160) *)

(** *** The distinct values *)

Lemma notna_eqb_refl (x : float) : Float64.notna x = true -> (x =? x)%float = true.
Proof.
  unfold Float64.notna, Float64.isnan, PrimFloat.is_nan. intros H.
  now destruct (x =? x)%float.
Qed.

Lemma unique_from_elem (seen xs : list float) (y : float) :
  y ∈ Float64.unique_from seen xs -> y ∈ xs.
Proof.
  revert seen. induction xs as [|x xs IH]; intros seen H; cbn [Float64.unique_from] in H.
  - exact H.
  - destruct (existsb (PrimFloat.eqb x) seen).
    + right. eapply IH, H.
    + apply elem_of_cons in H as [->|H]; [left|right; eapply IH, H].
Qed.

Lemma unique_from_covers (seen xs : list float) (x : float) :
  Forall (fun x => Float64.notna x = true) xs ->
  x ∈ xs ->
  (exists y, y ∈ seen /\ (x =? y)%float = true) \/
  (exists y, y ∈ Float64.unique_from seen xs /\ (x =? y)%float = true).
Proof.
  revert seen. induction xs as [|x0 xs IH]; intros seen Hna Hin.
  - now apply elem_of_nil in Hin.
  - apply Forall_cons in Hna as [Hx0 Hna]. cbn [Float64.unique_from].
    destruct (existsb (PrimFloat.eqb x0) seen) eqn:E.
    + apply elem_of_cons in Hin as [->|Hin]; [|now apply IH].
      left. apply existsb_exists in E as (y & Hy & Hxy). exists y.
      split; [now apply list_elem_of_In|exact Hxy].
    + apply elem_of_cons in Hin as [->|Hin].
      * right. exists x0. split; [left|now apply notna_eqb_refl].
      * destruct (IH (x0 :: seen) Hna Hin) as [(y & Hy & Hxy)|(y & Hy & Hxy)].
        -- apply elem_of_cons in Hy as [->|Hy].
           ++ right. exists x0. split; [left|exact Hxy].
           ++ left. eauto.
        -- right. exists y. split; [now right|exact Hxy].
Qed.

Lemma unique_from_fresh (seen xs : list float) (b : float) :
  b ∈ Float64.unique_from seen xs -> Forall (fun a => (b =? a)%float = false) seen.
Proof.
  revert seen. induction xs as [|x xs IH]; intros seen H; cbn [Float64.unique_from] in H.
  - now apply elem_of_nil in H.
  - destruct (existsb (PrimFloat.eqb x) seen) eqn:E; [now apply IH|].
    apply elem_of_cons in H as [->|H].
    + apply Forall_forall. intros a Ha.
      destruct (x =? a)%float eqn:Exa; [|reflexivity].
      assert (existsb (PrimFloat.eqb x) seen = true); [|congruence].
      apply existsb_exists. exists a. split; [now apply list_elem_of_In|exact Exa].
    + apply IH in H. now apply Forall_cons in H as [_ H].
Qed.

Lemma unique_from_distinct (seen xs : list float) (i j : nat) (a b : float) :
  (i < j)%nat ->
  Float64.unique_from seen xs !! i = Some a ->
  Float64.unique_from seen xs !! j = Some b ->
  (b =? a)%float = false.
Proof.
  revert seen i j. induction xs as [|x xs IH]; intros seen i j Hij Hi Hj;
    cbn [Float64.unique_from] in Hi, Hj.
  - discriminate.
  - destruct (existsb (PrimFloat.eqb x) seen); [now apply (IH seen i j)|].
    destruct j as [|j]; [lia|]. cbn in Hj. destruct i as [|i].
    + cbn in Hi. injection Hi as ->.
      apply list_elem_of_lookup_2, unique_from_fresh in Hj.
      now apply Forall_cons in Hj as [Hj _].
    + cbn in Hi. apply (IH (x :: seen) i j); [lia|exact Hi|exact Hj].
Qed.

Lemma unique_distinct_values (group : list float) :
  distinct_values (List.filter Float64.notna group)
    (Float64.unique (List.filter Float64.notna group)).
Proof.
  unfold Float64.unique. split; [|split].
  - intros x Hx.
    destruct (unique_from_covers [] (List.filter Float64.notna group) x) as [(y & Hy & _)|H].
    + apply Forall_forall. intros y Hy. apply list_elem_of_In, filter_In in Hy. tauto.
    + exact Hx.
    + now apply elem_of_nil in Hy.
    + exact H.
  - intros y. apply unique_from_elem.
  - intros i j a b. apply unique_from_distinct.
Qed.

(** *** The sum *)

Lemma filter_notna_leaves (xs : list float) :
  List.filter Float64.notna xs = List.concat (map leaf xs).
Proof.
  induction xs as [|x xs IH]; [reflexivity|]. cbn [map List.concat]. rewrite <- IH.
  cbn [List.filter]. unfold leaf, Float64.notna. now destruct (Float64.isnan x).
Qed.

Lemma float_sum_leaf (x : float) :
  float_sum (leaf x) (if Float64.isnan x then 0%float else x).
Proof. unfold leaf. destruct (Float64.isnan x); constructor. Qed.

Lemma fold_add_float_sum (xs l0 : list float) (acc : float) :
  float_sum l0 acc ->
  float_sum (l0 ++ List.filter Float64.notna xs)
    (fold_left PrimFloat.add (Float64.fill0 xs) acc).
Proof.
  revert l0 acc. induction xs as [|x xs IH]; intros l0 acc H.
  - cbn. now rewrite app_nil_r.
  - cbn [Float64.fill0 map fold_left]. fold (Float64.fill0 xs).
    replace (l0 ++ List.filter Float64.notna (x :: xs))
      with ((l0 ++ leaf x) ++ List.filter Float64.notna xs).
    + apply IH. apply float_sum_add; [exact H|apply float_sum_leaf].
    + rewrite <- app_assoc. f_equal. cbn [List.filter]. unfold leaf, Float64.notna.
      now destruct (Float64.isnan x).
Qed.

Lemma fill0_take (k : nat) (xs : list float) :
  take k (Float64.fill0 xs) = Float64.fill0 (take k xs).
Proof. unfold Float64.fill0. change map with (@fmap list _). now rewrite fmap_take. Qed.

Lemma fill0_drop (k : nat) (xs : list float) :
  drop k (Float64.fill0 xs) = Float64.fill0 (drop k xs).
Proof. unfold Float64.fill0. change map with (@fmap list _). now rewrite fmap_drop. Qed.

Lemma fill0_length (xs : list float) : length (Float64.fill0 xs) = length xs.
Proof. apply length_map. Qed.

Lemma filter_notna_take_drop (k : nat) (xs : list float) :
  List.filter Float64.notna (take k xs) ++ List.filter Float64.notna (drop k xs)
  = List.filter Float64.notna xs.
Proof. now rewrite <- List.filter_app, take_drop. Qed.

(** The accumulators, each with the values it has taken. *)
Lemma lanes_start (b : list float) : Forall2 float_sum (map leaf b) (Float64.fill0 b).
Proof.
  induction b as [|x b IH]; cbn; constructor; [apply float_sum_leaf|exact IH].
Qed.

Lemma lanes_step (lanes1 lanes2 : list (list float)) (r1 r2 : list float) :
  Forall2 float_sum lanes1 r1 -> Forall2 float_sum lanes2 r2 ->
  Forall2 float_sum (zip_with app lanes1 lanes2) (zip_with PrimFloat.add r1 r2).
Proof.
  intros H. revert lanes2 r2. induction H as [|l s ls ss Hl _ IH]; intros lanes2 r2 H2.
  - constructor.
  - destruct H2 as [|l2 s2 ls2 ss2 Hl2 H2]; cbn; constructor.
    + now apply float_sum_add.
    + now apply IH.
Qed.

Lemma concat_zip_app {A} (l1 l2 : list (list A)) :
  length l1 = length l2 ->
  List.concat (zip_with app l1 l2) ≡ₚ List.concat l1 ++ List.concat l2.
Proof.
  revert l2. induction l1 as [|a l1 IH]; intros [|b l2] Hlen; try discriminate.
  - reflexivity.
  - cbn [zip_with List.concat]. rewrite IH by (cbn in Hlen; lia).
    rewrite <- !app_assoc. apply Permutation_app_head.
    rewrite !app_assoc. apply Permutation_app_tail. apply Permutation_app_comm.
Qed.

Lemma lanes_loop (xs : list float) (k : nat) : forall (s : nat) (r : list float) lanes,
  (8 * (s + k) <= length xs)%nat ->
  Forall2 float_sum lanes r -> length lanes = 8%nat ->
  List.concat lanes ≡ₚ List.filter Float64.notna (take (8 * s) xs) ->
  exists lanes',
    Forall2 float_sum lanes'
      (fold_left (fun r i => zip_with PrimFloat.add r (take 8 (drop i (Float64.fill0 xs))))
         (map (fun b => 8 * b)%nat (seq s k)) r) /\
    length lanes' = 8%nat /\
    List.concat lanes' ≡ₚ List.filter Float64.notna (take (8 * (s + k)) xs).
Proof.
  induction k as [|k IH]; intros s r lanes Hlen HF Hl8 Hperm.
  - exists lanes. cbn [seq map fold_left]. rewrite Nat.add_0_r. auto.
  - cbn [seq map fold_left]. rewrite fill0_drop, fill0_take.
    set (b := take 8 (drop (8 * s) xs)).
    assert (Hb : length b = 8%nat).
    { unfold b. rewrite length_take, length_drop. lia. }
    destruct (IH (S s) (zip_with PrimFloat.add r (Float64.fill0 b))
                (zip_with app lanes (map leaf b))) as (lanes' & HF' & Hl8' & Hperm').
    + lia.
    + apply lanes_step; [exact HF|apply lanes_start].
    + rewrite length_zip_with, length_map. lia.
    + rewrite concat_zip_app by (rewrite length_map; lia).
      rewrite Hperm, <- filter_notna_leaves.
      replace (8 * S s)%nat with (8 * s + 8)%nat by lia.
      rewrite <- take_take_drop, List.filter_app. reflexivity.
    + exists lanes'. split; [exact HF'|]. split; [exact Hl8'|].
      now replace (s + S k)%nat with (S s + k)%nat by lia.
Qed.

Lemma sum_unrolled_float_sum (xs : list float) :
  (8 <= length xs)%nat ->
  float_sum (List.filter Float64.notna xs) (Float64.sum_unrolled (Float64.fill0 xs)).
Proof.
  intros Hn. unfold Float64.sum_unrolled. cbv zeta. rewrite fill0_length.
  set (n := length xs) in *. rewrite fill0_take.
  assert (Hdiv : (n = 8 * (n / 8) + n mod 8 /\ n mod 8 < 8)%nat).
  { split; [apply Nat.div_mod_eq|now apply Nat.mod_upper_bound]. }
  destruct (lanes_loop xs (n / 8 - 1) 1 (Float64.fill0 (take 8 xs)) (map leaf (take 8 xs)))
    as (lanes & HF & Hl8 & Hperm).
  - fold n. lia.
  - apply lanes_start.
  - rewrite length_map, length_take. fold n. lia.
  - now rewrite <- filter_notna_leaves.
  - replace (1 + (n / 8 - 1))%nat with (n / 8)%nat in Hperm by lia.
    replace (n - n mod 8)%nat with (8 * (n / 8))%nat by lia.
    rewrite fill0_drop.
    eapply float_sum_perm;
      [|apply (fold_add_float_sum (drop (8 * (n / 8)) xs) (List.concat lanes))].
    + rewrite Hperm. now rewrite filter_notna_take_drop.
    + destruct HF as [|l0 r0 ? ? H0 HF]; [discriminate|].
      destruct HF as [|l1 r1 ? ? H1 HF]; [discriminate|].
      destruct HF as [|l2 r2 ? ? H2 HF]; [discriminate|].
      destruct HF as [|l3 r3 ? ? H3 HF]; [discriminate|].
      destruct HF as [|l4 r4 ? ? H4 HF]; [discriminate|].
      destruct HF as [|l5 r5 ? ? H5 HF]; [discriminate|].
      destruct HF as [|l6 r6 ? ? H6 HF]; [discriminate|].
      destruct HF as [|l7 r7 ? ? H7 HF]; [discriminate|].
      destruct HF; [|discriminate].
      cbn [nth List.concat]. rewrite app_nil_r.
      replace (l0 ++ l1 ++ l2 ++ l3 ++ l4 ++ l5 ++ l6 ++ l7)
        with (((l0 ++ l1) ++ (l2 ++ l3)) ++ ((l4 ++ l5) ++ (l6 ++ l7)))
        by (now rewrite <- !app_assoc).
      repeat apply float_sum_add; assumption.
Qed.

Lemma pairwise_sum_rec_float_sum (depth : nat) : forall xs,
  (length xs <= depth)%nat ->
  float_sum (List.filter Float64.notna xs)
    (Float64.pairwise_sum_rec depth (Float64.fill0 xs)).
Proof.
  induction depth as [|depth IH]; intros xs Hd.
  - destruct xs; [|cbn in Hd; lia]. cbn. constructor.
  - cbn [Float64.pairwise_sum_rec]. cbv zeta. rewrite fill0_length.
    destruct (Nat.ltb_spec (length xs) 8) as [H8|H8].
    + apply (fold_add_float_sum xs []). constructor.
    + destruct (Nat.leb_spec (length xs) 128) as [H128|H128].
      * now apply sum_unrolled_float_sum.
      * set (n2 := (length xs / 2 - (length xs / 2) mod 8)%nat).
        assert (Hn2 : (0 < n2 < length xs)%nat).
        { unfold n2. pose proof (Nat.div_mod_eq (length xs) 2).
          pose proof (Nat.mod_upper_bound (length xs / 2) 8).
          pose proof (Nat.mod_upper_bound (length xs) 2). lia. }
        rewrite fill0_take, fill0_drop, <- (filter_notna_take_drop n2 xs).
        apply float_sum_add; apply IH.
        -- rewrite length_take. lia.
        -- rewrite length_drop. lia.
Qed.

(** The sum that [nanmean] divides is a sum of the values that are not
    NaN. *)
Lemma sum_fill0_float_sum (xs : list float) :
  float_sum (List.filter Float64.notna xs) (Float64.sum (Float64.fill0 xs)).
Proof.
  unfold Float64.sum, Float64.pairwise_sum. rewrite fill0_length.
  apply (float_sum_add [] _ 0%float); [constructor|].
  now apply pairwise_sum_rec_float_sum.
Qed.

(** The depth bound is enough: [pairwise_sum] obeys the three cases of
    numpy's recursion. *)
Lemma pairwise_sum_rec_depth (d1 : nat) : forall d2 a,
  (length a <= d1)%nat -> (length a <= d2)%nat ->
  Float64.pairwise_sum_rec d1 a = Float64.pairwise_sum_rec d2 a.
Proof.
  induction d1 as [|d1 IH]; intros d2 a H1 H2.
  - destruct a; [|cbn in H1; lia]. now destruct d2.
  - destruct d2 as [|d2]; [destruct a; [reflexivity|cbn in H2; lia]|].
    cbn [Float64.pairwise_sum_rec]. cbv zeta.
    destruct (length a <? 8)%nat; [reflexivity|].
    destruct (Nat.leb_spec (length a) 128) as [|H128]; [reflexivity|].
    set (n2 := (length a / 2 - (length a / 2) mod 8)%nat).
    assert (Hn2 : (0 < n2 < length a)%nat).
    { unfold n2. pose proof (Nat.div_mod_eq (length a) 2).
      pose proof (Nat.mod_upper_bound (length a / 2) 8).
      pose proof (Nat.mod_upper_bound (length a) 2). lia. }
    f_equal; apply IH; rewrite ?length_take, ?length_drop; lia.
Qed.

Lemma pairwise_sum_unfold (a : list float) :
  Float64.pairwise_sum a =
  if (length a <? 8)%nat then fold_left PrimFloat.add a (-0)%float
  else if (length a <=? 128)%nat then Float64.sum_unrolled a
  else
    let n2 := (length a / 2 - (length a / 2) mod 8)%nat in
    (Float64.pairwise_sum (take n2 a) + Float64.pairwise_sum (drop n2 a))%float.
Proof.
  unfold Float64.pairwise_sum at 1.
  destruct (length a) as [|n] eqn:En; [now destruct a|].
  cbn [Float64.pairwise_sum_rec]. cbv zeta. rewrite En.
  destruct (S n <? 8)%nat; [reflexivity|].
  destruct (Nat.leb_spec (S n) 128) as [|H128]; [reflexivity|].
  set (n2 := (S n / 2 - (S n / 2) mod 8)%nat).
  assert (Hn2 : (0 < n2 < S n)%nat).
  { unfold n2. pose proof (Nat.div_mod_eq (S n) 2).
    pose proof (Nat.mod_upper_bound (S n / 2) 8).
    pose proof (Nat.mod_upper_bound (S n) 2). lia. }
  unfold Float64.pairwise_sum.
  f_equal; apply pairwise_sum_rec_depth; rewrite ?length_take, ?length_drop; lia.
Qed.

(** [custom_aggregation] follows the aggregation rule. *)
Lemma custom_aggregation_rule (group : list float) :
  aggregation_rule group (custom_aggregation group).
Proof.
  unfold aggregation_rule. cbv zeta.
  change (fun x => negb (PrimFloat.is_nan x)) with Float64.notna.
  exists (Float64.unique (List.filter Float64.notna group)).
  split; [apply unique_distinct_values|].
  unfold custom_aggregation, Float64.nunique.
  destruct (length (Float64.unique (List.filter Float64.notna group)) <=? 2)%nat eqn:E;
    [reflexivity|].
  unfold Float64.nanmean, Float64.count.
  destruct (length (List.filter Float64.notna group)) as [|n] eqn:En.
  - apply length_zero_iff_nil in En. rewrite En in E. discriminate E.
  - exists (Float64.sum (Float64.fill0 group)). rewrite En.
    split; [apply sum_fill0_float_sum|reflexivity].
Qed.

(** *** The resampled table *)

Lemma lookup_row_of_columns {A} (F : string -> A) (cols : list string) (c : string) :
  c ∈ cols ->
  (list_to_map (map (fun c => (c, F c)) cols) : gmap string A) !! c = Some (F c).
Proof.
  induction cols as [|c' cols IH]; intros Hin.
  - now apply elem_of_nil in Hin.
  - cbn [map list_to_map foldr]. fold (list_to_map (M := gmap string A) (map (fun c => (c, F c)) cols)).
    destruct (decide (c' = c)) as [->|Hne].
    + apply lookup_insert_eq.
    + rewrite lookup_insert_ne by exact Hne. apply IH.
      apply elem_of_cons in Hin. destruct Hin as [->|Hin]; [congruence|exact Hin].
Qed.


Lemma resample_apply_rows (f : list float -> float) (df : DataFrame float) :
  Forall2 (fun h r =>
             r.1 = h /\
             forall c, c ∈ columns df ->
                       r.2 !! c = Some (f (column_values c (hour_group h df))))
          (hour_bins (index df)) (rows (resample_apply f df)).
Proof.
  unfold resample_apply, resample. cbn [rows]. rewrite map_map.
  induction (hour_bins (index df)) as [|h l IH]; cbn [map]; constructor; [|exact IH].
  split; [reflexivity|]. intros c Hc. cbn [fst snd].
  now apply (lookup_row_of_columns (fun c => f (column_values c (hour_group h df)))).
Qed.


(** The rows of [resample_apply], by the hours that the labels span. *)
Lemma resample_apply_hours (f : list float -> float) (df : DataFrame float)
    (H0 : Z) (n : nat) :
  spans_hours (index df) H0 n ->
  Forall2 (fun h r =>
             r.1 = h /\
             exists g,
               rows_of_hour h (rows df) g /\
               forall c, c ∈ columns df ->
                 r.2 !! c = Some (f (map (fun x => default PrimFloat.nan (x.2 !! c)) g)))
          (hours_from H0 n) (rows (resample_apply f df)).
Proof.
  intros Hspan. pose proof (resample_apply_rows f df) as HR.
  rewrite (spans_hours_bins _ _ _ Hspan) in HR.
  eapply Forall2_impl;
    [exact (Forall2_Forall_l _ _ _ _ HR (hours_from_aligned H0 n (proj1 Hspan)))|].
  cbn beta. intros h r [[Hl Hc] Hh]. split; [exact Hl|].
  exists (hour_group h df). split; [now apply hour_group_rows_of_hour|exact Hc].
Qed.

(** C2.  In scalar mode the table has one row for every hour from the first
    to the last hour with a reading, and the [tas] cell of an hour follows
    the rule on the [tas] values of the rows of that hour: with [series] the
    values that are not missing, the cell is missing when [series] has at
    most two distinct values, and otherwise it is the arithmetic mean of
    [series], a binary64 sum of its values over their number.  [20, 20, 21]
    gives missing, [20, 21, 22] gives 21. *)
Theorem scalar_aggregation_rule (df : DataFrame float) (H0 : Z) (n : nat) :
  "tas"%string ∈ columns df ->
  spans_hours (index df) H0 n ->
  Forall2 (fun h r =>
             r.1 = h /\
             exists g v,
               rows_of_hour h (rows df) g /\
               r.2 !! "tas"%string = Some v /\
               aggregation_rule (map (fun x => default PrimFloat.nan (x.2 !! "tas"%string)) g) v)
          (hours_from H0 n) (rows (resample_apply custom_aggregation df)) /\
  PrimFloat.is_nan (custom_aggregation [20; 20; 21]%float) = true /\
  custom_aggregation [20; 21; 22]%float = 21%float.
Proof.
  intros Htas Hspan. split; [|split; vm_compute; reflexivity].
  eapply Forall2_impl; [exact (resample_apply_hours custom_aggregation df H0 n Hspan)|].
  cbn beta. intros h r (Hl & g & Hg & Hc). split; [exact Hl|].
  exists g, (custom_aggregation (map (fun x => default PrimFloat.nan (x.2 !! "tas"%string)) g)).
  split; [exact Hg|]. split; [now apply Hc|apply custom_aggregation_rule].
Qed.

(** [scalar_aggregation_rule] on [ten_minute_frame], ten distinct readings
    in hour 12. *)
Lemma scalar_aggregation_rule_witness :
  Forall2 (fun h r =>
             r.1 = h /\
             exists g v,
               rows_of_hour h (rows ten_minute_frame) g /\
               r.2 !! "tas"%string = Some v /\
               aggregation_rule (map (fun x => default PrimFloat.nan (x.2 !! "tas"%string)) g) v)
          (hours_from noon 0) (rows (resample_apply custom_aggregation ten_minute_frame)) /\
  PrimFloat.is_nan (custom_aggregation [20; 20; 21]%float) = true /\
  custom_aggregation [20; 21; 22]%float = 21%float.
Proof.
  apply (scalar_aggregation_rule ten_minute_frame noon 0).
  - apply list_elem_of_In. vm_compute. auto.
  - split; [reflexivity|]. split; [|split].
    + exists noon. split; [|unfold noon; lia].
      apply list_elem_of_In. vm_compute. auto.
    + exists noon. split; [|unfold noon; lia].
      apply list_elem_of_In. vm_compute. auto.
    + intros t Hin. apply list_elem_of_In in Hin. vm_compute in Hin. unfold noon.
      repeat (destruct Hin as [<-|Hin]; [lia|]). destruct Hin.
Defined.

(** The mean of ten readings is the pairwise sum over ten, which is not
    what adding them one after the other gives. *)
Lemma ten_readings_mean :
  custom_aggregation (map C_to_K ten_readings) = 293.59999999999991%float /\
  (fold_left PrimFloat.add (map C_to_K ten_readings) 0 / 10)%float = 293.60000000000002%float.
Proof. split; vm_compute; reflexivity. Qed.

(** *** The working frame of a file *)

Lemma set_index_datetime_columns (t : RawTable) (df0 : DataFrame float) :
  set_index_datetime t = Some df0 ->
  records t <> [] /\
  columns df0 = List.filter (fun c => negb (String.eqb c "datetime")) (header t).
Proof.
  unfold set_index_datetime. destruct (records t) as [|r rs]; [discriminate|].
  destruct (mapM to_datetime (r :: rs)); [|discriminate].
  intros [= <-]. split; [discriminate|reflexivity].
Qed.

Lemma set_index_datetime_index (t : RawTable) (df0 : DataFrame float) :
  set_index_datetime t = Some df0 -> mapM to_datetime (records t) = Some (index df0).
Proof.
  unfold set_index_datetime. destruct (records t) as [|r rs] eqn:Er; [discriminate|].
  destruct (mapM to_datetime (r :: rs)) as [labels|] eqn:E; [|discriminate].
  cbn [mbind option_bind]. intros [= <-]. f_equal. unfold index. cbn [rows].
  symmetry. apply fst_zip. apply length_mapM in E. cbn [length] in *.
  rewrite length_map. lia.
Qed.

Lemma add_tas_index (df out : DataFrame float) : add_tas df = Some out -> index out = index df.
Proof.
  intros H. unfold index. rewrite (add_tas_rows _ _ H), map_map. reflexivity.
Qed.

Lemma frame_map_index {A B} (f : A -> B) (df : DataFrame A) : index (frame_map f df) = index df.
Proof. unfold index, frame_map. cbn [rows]. now rewrite map_map. Qed.

(** The labels of the working frame are the timestamps of the file. *)
Lemma working_frame_index (t : RawTable) (df0 df : DataFrame float) :
  set_index_datetime t = Some df0 ->
  add_tas (replace sentinel Float64.nan df0) = Some df ->
  mapM to_datetime (records t) = Some (index df).
Proof.
  intros H0 H1. rewrite (add_tas_index _ _ H1). unfold replace. rewrite frame_map_index.
  now apply set_index_datetime_index.
Qed.

(** Dates of the years 1678 to 2261 are inside the range of
    [datetime64[ns]]. *)
Lemma days_before_month_bound (y m : Z) :
  1 <= m <= 12 -> 0 <= Datetime.days_before_month y m <= 335.
Proof.
  intros Hm. unfold Datetime.days_before_month, Datetime.days_in_month.
  remember (Datetime.is_leap y) as leap.
  assert (m = 1 \/ m = 2 \/ m = 3 \/ m = 4 \/ m = 5 \/ m = 6 \/ m = 7 \/ m = 8 \/ m = 9
          \/ m = 10 \/ m = 11 \/ m = 12) as Hcases by lia.
  repeat (destruct Hcases as [->|Hcases];
          [destruct leap; vm_compute; split; intros X; discriminate X|]).
  subst m. destruct leap; vm_compute; split; intros X; discriminate X.
Qed.

Lemma days_in_month_bound (y m : Z) : Datetime.days_in_month y m <= 31.
Proof.
  unfold Datetime.days_in_month.
  destruct (m =? 2); [destruct (Datetime.is_leap y); lia|].
  destruct ((m =? 4) || (m =? 6) || (m =? 9) || (m =? 11)); lia.
Qed.

Lemma year_window_in_ns_range (r : RawRecord) (t : Z) :
  to_datetime r = Some t -> 1678 <= year r <= 2261 -> Datetime.in_ns_range t = true.
Proof.
  unfold to_datetime, Datetime.datetime. intros H Hy.
  destruct (_ && _) eqn:E in H; [|discriminate]. injection H as <-.
  repeat (apply andb_true_iff in E as [E ?]).
  pose proof (days_before_month_bound (year r) (mon r) ltac:(lia)) as Hm.
  pose proof (days_in_month_bound (year r) (mon r)) as Hd.
  unfold Datetime.in_ns_range, Datetime.ns_min, Datetime.ns_max.
  assert (Datetime.ymd2ord 1677 9 21 < Datetime.ymd2ord (year r) (mon r) (day r)
          < Datetime.ymd2ord 2262 4 11) as Hord.
  { replace (Datetime.ymd2ord 1677 9 21) with 612411 by (vm_compute; reflexivity).
    replace (Datetime.ymd2ord 2262 4 11) with 825914 by (vm_compute; reflexivity).
    unfold Datetime.ymd2ord, Datetime.days_before_year. cbv zeta.
    pose proof (Z.div_mod (year r - 1) 4 ltac:(lia)).
    pose proof (Z.mod_pos_bound (year r - 1) 4 ltac:(lia)).
    pose proof (Z.div_mod (year r - 1) 100 ltac:(lia)).
    pose proof (Z.mod_pos_bound (year r - 1) 100 ltac:(lia)).
    pose proof (Z.div_mod (year r - 1) 400 ltac:(lia)).
    pose proof (Z.mod_pos_bound (year r - 1) 400 ltac:(lia)).
    lia. }
  apply andb_true_iff. split; [apply Z.leb_le|apply Z.leb_le]; lia.
Qed.

Lemma year_window_datetime_index (rs : list RawRecord) (labels : list Z) :
  Forall (fun r => 1678 <= year r <= 2261) rs ->
  mapM to_datetime rs = Some labels ->
  forallb Datetime.in_ns_range labels = true.
Proof.
  intros Hy Hm. apply mapM_Some in Hm. apply forallb_forall. intros t Ht.
  apply list_elem_of_In, list_elem_of_lookup_1 in Ht as [i Hi].
  destruct (Forall2_lookup_r _ _ _ _ _ Hm Hi) as (r & Hr & Hrt).
  eapply year_window_in_ns_range; [exact Hrt|].
  rewrite Forall_forall in Hy. eapply Hy, list_elem_of_lookup_2, Hr.
Qed.

(** C10.  In scalar mode the rule is applied to every column of the working
    frame on its own, the sensor columns of the file included: for a file
    with lines dated 1678 to 2261 the table has one row for every hour from
    the first to the last hour with a reading, and for every column the
    cell of an hour follows the rule on the values of that column in the
    rows of that hour: missing unless these hold at least three distinct
    values that are not missing, their arithmetic mean otherwise. *)
Theorem scalar_mode_aggregates_every_column (rule : Z -> option (Z * Z))
    (t : RawTable) (df0 df : DataFrame float) (H0 : Z) (n : nat) :
  Forall (fun r => 1678 <= year r <= 2261) (records t) ->
  set_index_datetime t = Some df0 ->
  add_tas (replace sentinel Float64.nan df0) = Some df ->
  spans_hours (index df) H0 n ->
  exists out,
    resample_to_hourly_steps rule true t = Some out /\
    (forall c, c ∈ header t -> c <> "datetime"%string -> c ∈ columns df) /\
    "tas"%string ∈ columns df /\
    columns out = columns df /\
    Forall2 (fun h r =>
               r.1 = h /\
               exists g,
                 rows_of_hour h (rows df) g /\
                 forall c, c ∈ columns df ->
                   exists v,
                     r.2 !! c = Some (Num v) /\
                     aggregation_rule (map (fun x => default PrimFloat.nan (x.2 !! c)) g) v)
            (hours_from H0 n) (rows out).
Proof.
  intros Hy H0' H1 Hspan. unfold resample_to_hourly_steps.
  rewrite H0'. cbn [mbind option_bind]. rewrite H1. cbn [mbind option_bind].
  unfold datetime_index.
  rewrite (year_window_datetime_index _ _ Hy (working_frame_index _ _ _ H0' H1)).
  eexists. split; [reflexivity|].
  pose proof (add_tas_columns _ _ H1) as Hc. cbn [replace frame_map columns] in Hc.
  rewrite (proj2 (set_index_datetime_columns _ _ H0')) in Hc.
  split; [|split; [|split]].
  - intros c Hin Hne.
    assert (c ∈ List.filter (fun c => negb (String.eqb c "datetime")) (header t)) as Hf.
    { apply list_elem_of_In, filter_In. split; [now apply list_elem_of_In|].
      destruct (String.eqb_spec c "datetime"); [contradiction|reflexivity]. }
    rewrite Hc. destruct (bool_decide _); [exact Hf|]. apply elem_of_app. now left.
  - rewrite Hc. case_bool_decide as Ht; [exact Ht|].
    apply elem_of_app. right. now apply list_elem_of_singleton.
  - reflexivity.
  - unfold frame_map. cbn [rows].
    pose proof (resample_apply_hours custom_aggregation df H0 n Hspan) as HR.
    induction HR as [|h r hs rs (Hl & g & Hg & Hcell) _ IH]; cbn [map]; constructor; [|exact IH].
    split; [exact Hl|]. exists g. split; [exact Hg|]. intros c Hin. cbn [fst snd].
    eexists. rewrite lookup_fmap, (Hcell c Hin). split; [reflexivity|].
    apply custom_aggregation_rule.
Qed.

(** [scalar_mode_aggregates_every_column] on [ten_minute_log]. *)
Lemma scalar_mode_aggregates_every_column_witness :
  exists out,
    resample_to_hourly_steps row_major_rule true ten_minute_log = Some out /\
    (forall c, c ∈ header ten_minute_log -> c <> "datetime"%string ->
               c ∈ columns ten_minute_frame) /\
    "tas"%string ∈ columns ten_minute_frame /\
    columns out = columns ten_minute_frame /\
    Forall2 (fun h r =>
               r.1 = h /\
               exists g,
                 rows_of_hour h (rows ten_minute_frame) g /\
                 forall c, c ∈ columns ten_minute_frame ->
                   exists v,
                     r.2 !! c = Some (Num v) /\
                     aggregation_rule (map (fun x => default PrimFloat.nan (x.2 !! c)) g) v)
            (hours_from noon 0) (rows out).
Proof.
  apply (scalar_mode_aggregates_every_column row_major_rule ten_minute_log
           (default empty_frame (set_index_datetime ten_minute_log)) ten_minute_frame noon 0).
  - vm_compute. repeat constructor; discriminate.
  - vm_compute. reflexivity.
  - vm_compute. reflexivity.
  - split; [reflexivity|]. split; [|split].
    + exists noon. split; [|unfold noon; lia].
      apply list_elem_of_In. vm_compute. auto.
    + exists noon. split; [|unfold noon; lia].
      apply list_elem_of_In. vm_compute. auto.
    + intros t Hin. apply list_elem_of_In in Hin. vm_compute in Hin. unfold noon.
      repeat (destruct Hin as [<-|Hin]; [lia|]). destruct Hin.
Defined.
(** ** Grid mode (lines 163-172) *)

Lemma norm_index_lt (i : Z) (k : nat) : norm_index 8 i = Some k -> (k < 8)%nat.
Proof.
  unfold norm_index.
  destruct ((0 <=? i) && (i <? 8)) eqn:E1.
  - intros [= <-]. apply andb_true_iff in E1. lia.
  - destruct ((_ <=? i) && (i <? 0)) eqn:E2; [|discriminate].
    intros [= <-]. apply andb_true_iff in E2. lia.
Qed.

Lemma norm_index_in_range (i : Z) : 0 <= i < 8 -> norm_index 8 i = Some (Z.to_nat i).
Proof.
  intros H. unfold norm_index.
  replace ((0 <=? i) && (i <? 8)) with true; [reflexivity|].
  symmetry. apply andb_true_iff. lia.
Qed.

Lemma nan_grid_shape : grid_shape nan_grid.
Proof. split; [reflexivity|]. repeat constructor. Qed.

Lemma grid_set_spec (g : grid) (row col : Z) (v : float) (r0 c0 : nat) :
  grid_shape g ->
  norm_index 8 row = Some r0 -> norm_index 8 col = Some c0 ->
  exists g', grid_set g row col v = Some g' /\ grid_shape g' /\
    forall r c, grid_get g' r c =
                if bool_decide (r = r0 /\ c = c0) then Some v else grid_get g r c.
Proof.
  intros [Hlen Hlines] Hr Hc.
  pose proof (norm_index_lt _ _ Hr) as Hr0. pose proof (norm_index_lt _ _ Hc) as Hc0.
  destruct (lookup_lt_is_Some_2 g r0) as [line Hline]; [lia|].
  assert (Hll : length line = 8%nat).
  { eapply Forall_lookup_1 in Hlines; eauto. }
  unfold grid_set. rewrite Hr, Hc. cbn [mbind option_bind]. rewrite Hline.
  cbn [mbind option_bind]. eexists. split; [reflexivity|]. split.
  - split; [now rewrite length_insert|].
    apply Forall_insert; [exact Hlines|now rewrite length_insert].
  - intros r c. unfold grid_get.
    destruct (decide (r = r0)) as [->|Hne].
    + rewrite list_lookup_insert_eq by lia. cbn [mbind option_bind].
      destruct (decide (c = c0)) as [->|Hnc].
      * rewrite bool_decide_eq_true_2 by auto. apply list_lookup_insert_eq. lia.
      * rewrite bool_decide_eq_false_2 by tauto.
        rewrite list_lookup_insert_ne by congruence. now rewrite Hline.
    + rewrite bool_decide_eq_false_2 by tauto.
      now rewrite list_lookup_insert_ne by congruence.
Qed.

Section GridFacts.

Variable mapping_rule : Z -> option (Z * Z).

Lemma place_get (g g' : grid) (rd : Z * float) :
  grid_shape g -> place mapping_rule g rd = Some g' ->
  grid_shape g' /\
  forall r c, grid_get g' r c =
              if maps_to mapping_rule r c rd then Some rd.2 else grid_get g r c.
Proof.
  intros Hs. unfold place, maps_to.
  destruct (mapping_rule rd.1) as [[row col]|]; [|discriminate].
  cbn [mbind option_bind fst snd]. intros H.
  destruct (norm_index 8 row) as [r0|] eqn:Hr; [|unfold grid_set in H; now rewrite Hr in H].
  destruct (norm_index 8 col) as [c0|] eqn:Hc;
    [|unfold grid_set in H; now rewrite Hr, Hc in H].
  destruct (grid_set_spec g row col rd.2 r0 c0 Hs Hr Hc) as (g1 & H1 & Hs1 & Hget).
  rewrite H1 in H. injection H as <-. split; [exact Hs1|].
  intros r c. rewrite Hget.
  destruct (decide (r = r0 /\ c = c0)) as [[-> ->]|Hne].
  - now rewrite !bool_decide_eq_true_2 by auto.
  - rewrite bool_decide_eq_false_2 by exact Hne.
    rewrite bool_decide_eq_false_2; [reflexivity|].
    intros [[= ->] [= ->]]. tauto.
Qed.

Lemma last_cons_filter {A} (x : A) (l : list A) :
  last (x :: l) = match last l with Some y => Some y | None => Some x end.
Proof.
  revert x. induction l as [|y l IH]; intros x; [reflexivity|].
  change (last (x :: y :: l)) with (last (y :: l)). rewrite (IH y).
  now destruct (last l).
Qed.

Lemma last_write_cons (r c : nat) (rd : Z * float) (rds : list (Z * float)) :
  last_write mapping_rule r c (rd :: rds) =
  match last_write mapping_rule r c rds with
  | Some v => Some v
  | None => if maps_to mapping_rule r c rd then Some rd.2 else None
  end.
Proof.
  unfold last_write. cbn [List.filter].
  destruct (maps_to mapping_rule r c rd); [|now destruct (last _)].
  rewrite last_cons_filter. now destruct (last _).
Qed.

Lemma place_all_get (rds : list (Z * float)) (g g' : grid) :
  grid_shape g -> place_all mapping_rule g rds = Some g' ->
  grid_shape g' /\
  forall r c, grid_get g' r c =
              match last_write mapping_rule r c rds with
              | Some v => Some v
              | None => grid_get g r c
              end.
Proof.
  revert g. induction rds as [|rd rds IH]; intros g Hs H.
  - cbn [place_all] in H. injection H as <-. now split.
  - cbn [place_all] in H.
    destruct (place mapping_rule g rd) as [g1|] eqn:E; [|discriminate].
    cbn [mbind option_bind] in H.
    destruct (place_get _ _ _ Hs E) as [Hs1 Hg1].
    destruct (IH _ Hs1 H) as [Hs' Hg']. split; [exact Hs'|].
    intros r c. rewrite Hg', last_write_cons, Hg1.
    destruct (last_write mapping_rule r c rds); [reflexivity|].
    now destruct (maps_to mapping_rule r c rd).
Qed.

End GridFacts.


(** *** The assignment of line 172 *)

Lemma loc_set_new_column {A} `{Missing A} (df : DataFrame A) (key : Z) (col : string) (v : A) :
  col ∉ columns df -> loc_set df key col v = None.
Proof. intros Hc. unfold loc_set. now rewrite bool_decide_eq_false_2. Qed.

Lemma temp_is_no_column : "temp"%string ∉ columns (mkDataFrame (A := cell) ["tas"%string] []).
Proof. cbn [columns]. intros H. apply list_elem_of_singleton in H. discriminate. Qed.

(** The loop does not get past its first turn: whether or not the array of
    the first bin can be built, nothing is returned. *)
Lemma grid_loop_first_turn (rule : Z -> option (Z * Z))
    (groups : list (Z * list (Z * gmap string float))) :
  groups <> [] -> grid_loop rule (mkDataFrame ["tas"%string] []) groups = None.
Proof.
  destruct groups as [|g rest]; [congruence|]. intros _. cbn [grid_loop].
  destruct (place_all rule nan_grid (minute_temps g.2)) as [a|]; [|reflexivity].
  cbn [mbind option_bind]. now rewrite loc_set_new_column by exact temp_is_no_column.
Qed.

Lemma resample_nonempty {A} (df : DataFrame A) : rows df <> [] -> resample df <> [].
Proof.
  unfold resample, hour_bins, index. destruct (rows df) as [|r l]; [congruence|].
  intros _. cbn [map]. cbv zeta. rewrite <- cons_seq. cbn [map]. discriminate.
Qed.

Lemma grid_resample_None (rule : Z -> option (Z * Z)) (df : DataFrame float) :
  grid_resample rule df = None <-> rows df <> [].
Proof.
  unfold grid_resample. split.
  - intros H E. unfold resample, index in H. rewrite E in H. discriminate H.
  - intros H. now apply grid_loop_first_turn, resample_nonempty.
Qed.

(** No file is converted in grid mode. *)
Lemma grid_conversion_None (rule : Z -> option (Z * Z)) (t : RawTable) :
  resample_to_hourly_steps rule false t = None.
Proof.
  unfold resample_to_hourly_steps.
  destruct (set_index_datetime t) as [df0|] eqn:E0; [|reflexivity].
  cbn [mbind option_bind].
  destruct (add_tas (replace sentinel Float64.nan df0)) as [df|] eqn:E1; [|reflexivity].
  cbn [mbind option_bind]. destruct (datetime_index df); [|reflexivity].
  apply grid_resample_None. intros Hrows.
  pose proof (working_frame_index _ _ _ E0 E1) as Hm. apply length_mapM in Hm.
  unfold index in Hm. rewrite Hrows in Hm. cbn in Hm.
  destruct (set_index_datetime_columns _ _ E0) as [Hne _].
  destruct (records t); [congruence|discriminate].
Qed.
(** ** The folder loop (lines 47-66 and 115-127) *)

Section NameOrder.

Context {A : Type}.
Implicit Types (f : string * A) (l acc : list (string * A)).

Lemma ltb_leb (s1 s2 : string) : String.ltb s1 s2 = true -> String.leb s1 s2 = true.
Proof. unfold String.ltb, String.leb. now destruct (String.compare s1 s2). Qed.

Lemma not_ltb_leb (s1 s2 : string) : String.ltb s1 s2 = false -> String.leb s2 s1 = true.
Proof.
  unfold String.ltb, String.leb. rewrite (String.compare_antisym s1 s2).
  now destruct (String.compare s2 s1).
Qed.

Lemma insert_by_name_perm f l : insert_by_name f l ≡ₚ f :: l.
Proof.
  induction l as [|f' l IH]; cbn [insert_by_name]; [reflexivity|].
  destruct (String.ltb f.1 f'.1); [reflexivity|].
  rewrite IH. apply Permutation_swap.
Qed.

Lemma insert_by_name_hd f a l :
  String.leb a.1 f.1 = true ->
  HdRel (fun x y => String.leb x.1 y.1 = true) a l ->
  HdRel (fun x y => String.leb x.1 y.1 = true) a (insert_by_name f l).
Proof.
  intros Haf Hal. destruct l as [|f' l]; cbn [insert_by_name]; [now constructor|].
  destruct (String.ltb f.1 f'.1); constructor; [exact Haf|].
  now apply HdRel_inv in Hal.
Qed.

Lemma insert_by_name_sorted f l :
  Sorted (fun x y => String.leb x.1 y.1 = true) l ->
  Sorted (fun x y => String.leb x.1 y.1 = true) (insert_by_name f l).
Proof.
  induction 1 as [|f' l Hs IH Hhd]; cbn [insert_by_name].
  - repeat constructor.
  - destruct (String.ltb f.1 f'.1) eqn:E.
    + constructor; [now constructor|]. constructor. now apply ltb_leb.
    + constructor; [exact IH|]. apply insert_by_name_hd; [|exact Hhd].
      now apply not_ltb_leb.
Qed.

Lemma fold_insert_by_name l acc :
  Sorted (fun x y => String.leb x.1 y.1 = true) acc ->
  Sorted (fun x y => String.leb x.1 y.1 = true)
    (fold_left (fun acc f => insert_by_name f acc) l acc) /\
  fold_left (fun acc f => insert_by_name f acc) l acc ≡ₚ acc ++ l.
Proof.
  revert acc. induction l as [|f l IH]; intros acc Hs; cbn [fold_left].
  - split; [exact Hs|now rewrite app_nil_r].
  - destruct (IH _ (insert_by_name_sorted f acc Hs)) as [IH1 IH2]. split; [exact IH1|].
    rewrite IH2, insert_by_name_perm. cbn [app]. apply Permutation_middle.
Qed.

End NameOrder.

Lemma get_files_sorted (listing : list (string * RawTable)) :
  Sorted (fun x y => String.leb x.1 y.1 = true) (get_files listing) /\
  get_files listing ≡ₚ List.filter (fun f => endswith ".dat" f.1) listing.
Proof. unfold get_files. apply fold_insert_by_name. constructor. Qed.

Section ExtractFacts.

Variable mapping_rule : Z -> option (Z * Z).
Variable hourly : bool.

Lemma extract_loop_rows (files : list (string * RawTable)) (acc out : DataFrame cell) :
  extract_loop mapping_rule hourly acc files = Some out ->
  exists dfs,
    Forall2 (fun file df => resample_to_hourly_steps mapping_rule hourly file.2 = Some df)
      files dfs /\
    rows out = rows acc ++ List.concat (map rows dfs).
Proof.
  revert acc. induction files as [|file rest IH]; intros acc H; cbn [extract_loop] in H.
  - injection H as <-. exists []. split; [constructor|]. cbn. now rewrite app_nil_r.
  - unfold convert_to_dataframe in H.
    destruct (resample_to_hourly_steps mapping_rule hourly file.2) as [df|] eqn:E;
      [|discriminate].
    cbn [mbind option_bind] in H. apply IH in H. destruct H as (dfs & Hall & Hrows).
    exists (df :: dfs). split; [now constructor|].
    rewrite Hrows. unfold append_to_dataframes, pd_concat. cbn [rows map List.concat].
    now rewrite <- app_assoc.
Qed.

(** The labels of the table of one file are the hourly bins of its own
    timestamps. *)
Lemma resample_to_hourly_steps_index (t : RawTable) (df : DataFrame cell) :
  resample_to_hourly_steps mapping_rule hourly t = Some df ->
  exists labels, mapM to_datetime (records t) = Some labels /\ index df = hour_bins labels.
Proof.
  destruct hourly; [|now rewrite grid_conversion_None].
  unfold resample_to_hourly_steps.
  destruct (set_index_datetime t) as [df0|] eqn:E0; [|discriminate].
  cbn [mbind option_bind].
  destruct (add_tas (replace sentinel Float64.nan df0)) as [df1|] eqn:E1; [|discriminate].
  cbn [mbind option_bind]. destruct (datetime_index df1); [|discriminate].
  intros [= <-]. exists (index df1). split; [now apply (working_frame_index t df0)|].
  rewrite frame_map_index.
  exact (Forall2_index _ _ _ (resample_apply_rows custom_aggregation df1)).
Qed.

End ExtractFacts.

(** C3, as the code has it.  [get_files] lists the [.dat] files in
    lexicographic name order.  Every file is resampled on its own, and the
    table of [extract] is the row-wise concatenation of the per-file tables
    in that order: a file contributes one row per hour of the span of its
    own timestamps, in increasing order, whatever hours the other files
    cover. *)
Theorem extract_concatenates_per_file_tables (rule : Z -> option (Z * Z)) (hourly : bool)
    (listing : list (string * RawTable)) (first_n_files : option nat) (out : DataFrame cell) :
  extract rule hourly (get_files listing) first_n_files = Some out ->
  Sorted (fun x y => String.leb x.1 y.1 = true) (get_files listing) /\
  get_files listing ≡ₚ List.filter (fun f => endswith ".dat" f.1) listing /\
  exists dfs,
    Forall2 (fun file df =>
               resample_to_hourly_steps rule hourly file.2 = Some df /\
               exists labels,
                 mapM to_datetime (records file.2) = Some labels /\
                 index df = hour_bins labels)
      (take (default (length (get_files listing)) first_n_files) (get_files listing)) dfs /\
    rows out = List.concat (map rows dfs).
Proof.
  intros H. destruct (get_files_sorted listing) as [Hs Hp].
  split; [exact Hs|]. split; [exact Hp|].
  unfold extract in H. apply extract_loop_rows in H. destruct H as (dfs & Hall & Hrows).
  exists dfs. split; [|exact Hrows].
  eapply Forall2_impl; [exact Hall|]. cbn beta. intros file df Hdf.
  split; [exact Hdf|]. now apply resample_to_hourly_steps_index in Hdf.
Qed.

(** [extract_concatenates_per_file_tables] on [two_file_listing] in scalar
    mode. *)
Lemma extract_concatenates_per_file_tables_witness :
  exists dfs,
    Forall2 (fun file df =>
               resample_to_hourly_steps row_major_rule true file.2 = Some df /\
               exists labels,
                 mapM to_datetime (records file.2) = Some labels /\
                 index df = hour_bins labels)
      (take (length (get_files two_file_listing)) (get_files two_file_listing)) dfs /\
    rows (default empty_frame (extract row_major_rule true (get_files two_file_listing) None))
    = List.concat (map rows dfs).
Proof.
  apply (extract_concatenates_per_file_tables row_major_rule true two_file_listing None
           (default empty_frame (extract row_major_rule true (get_files two_file_listing) None))).
  vm_compute. reflexivity.
Defined.

(** C3, the claim as written fails on two files that cover the same hour.
    The files are taken in name order ([a.dat], then [b.dat]); the result
    has two rows for the one hour, each missing since its file holds fewer
    than three distinct values, whereas the three readings resampled
    together give a single row of 294.15 K. *)
Lemma two_files_of_one_hour_give_two_rows :
  map fst (get_files two_file_listing) = ["a.dat"; "b.dat"]%string /\
  (fun out => map (fun r => (r.1, r.2 !! "tas"%string)) (rows out))
    <$> extract row_major_rule true (get_files two_file_listing) None
  = Some [(noon, Some (Num Float64.nan)); (noon, Some (Num Float64.nan))] /\
  (fun out => map (fun r => (r.1, r.2 !! "tas"%string)) (rows out))
    <$> resample_to_hourly_steps row_major_rule true whole_hour_log
  = Some [(noon, Some (Num 294.15%float))].
Proof. repeat split; vm_compute; reflexivity. Qed.


(** ** Grid mode returns no table (lines 163-172) *)

Section ArrayFacts.

Variable mapping_rule : Z -> option (Z * Z).

Lemma maps_to_cell_of (r c : nat) (rd : Z * float) :
  maps_to mapping_rule r c rd = true <-> cell_of mapping_rule rd.1 = Some (r, c).
Proof.
  unfold maps_to, cell_of. destruct (mapping_rule rd.1) as [[row col]|]; cbn [mbind option_bind fst snd].
  - rewrite bool_decide_eq_true.
    destruct (norm_index 8 row) as [r0|], (norm_index 8 col) as [c0|]; cbn [mbind option_bind];
      split; try discriminate; try (intros [H1 H2]; congruence).
    intros [= -> ->]. now split.
  - split; discriminate.
Qed.

Lemma place_None (g : list (list float)) (rd : Z * float) :
  grid_shape g ->
  place mapping_rule g rd = None <-> cell_of mapping_rule rd.1 = None.
Proof.
  intros Hs. unfold place, cell_of.
  destruct (mapping_rule rd.1) as [[row col]|]; cbn [mbind option_bind fst snd]; [|tauto].
  destruct (norm_index 8 row) as [r0|] eqn:Hr.
  - destruct (norm_index 8 col) as [c0|] eqn:Hc; cbn [mbind option_bind].
    + destruct (grid_set_spec g row col rd.2 r0 c0 Hs Hr Hc) as (g' & -> & _).
      split; discriminate.
    + unfold grid_set. rewrite Hr, Hc. tauto.
  - unfold grid_set. rewrite Hr. tauto.
Qed.

Lemma place_all_None (rds : list (Z * float)) (g : list (list float)) :
  grid_shape g ->
  place_all mapping_rule g rds = None <->
  Exists (fun rd => cell_of mapping_rule rd.1 = None) rds.
Proof.
  revert g. induction rds as [|rd rds IH]; intros g Hs; cbn [place_all].
  - split; [discriminate|]. intros H. inversion H.
  - destruct (place mapping_rule g rd) as [g1|] eqn:E; cbn [mbind option_bind].
    + destruct (place_get _ _ _ _ Hs E) as [Hs1 _]. rewrite (IH _ Hs1).
      assert (cell_of mapping_rule rd.1 <> None).
      { intros H. apply (place_None g rd Hs) in H. congruence. }
      split; [now right|]. intros H'. apply Exists_cons in H'. tauto.
    + split; [|reflexivity]. intros _. left. now apply (place_None g rd Hs).
Qed.

Lemma hour_group_elem {A} (h : Z) (df : DataFrame A) (r : Z * gmap string A) :
  r ∈ hour_group h df <-> r ∈ rows df /\ Datetime.floor_hour r.1 = h.
Proof.
  unfold hour_group. rewrite list_elem_of_In, filter_In, <- list_elem_of_In.
  now rewrite sort_by_time_perm, Z.eqb_eq.
Qed.

Lemma last_write_Some (r c : nat) (rds : list (Z * float)) (v : float) :
  last_write mapping_rule r c rds = Some v ->
  exists rd, rd ∈ rds /\ cell_of mapping_rule rd.1 = Some (r, c) /\ rd.2 = v.
Proof.
  unfold last_write. destruct (last _) as [rd|] eqn:E; [|discriminate].
  intros [= <-]. apply last_Some in E. destruct E as [l' E].
  assert (Hin : In rd (List.filter (maps_to mapping_rule r c) rds)).
  { rewrite E. apply in_or_app. right. now left. }
  apply filter_In in Hin. destruct Hin as [Hin Hm].
  exists rd. split; [now apply list_elem_of_In|]. split; [|reflexivity].
  now apply maps_to_cell_of.
Qed.

End ArrayFacts.

(** C5.  Grid mode converts no file, so there is no table with one row
    per hour.  The array of the first hour is built, and line 172 then
    assigns it to the cell of a row and a column that [hourly_df] does not
    have yet, which pandas refuses; a file without lines fails before, at
    line 133.  So no row is returned for any hour, with readings or
    without. *)
Theorem grid_mode_converts_no_file (rule : Z -> option (Z * Z)) (t : RawTable) :
  resample_to_hourly_steps rule false t = None.
Proof. apply grid_conversion_None. Qed.

(** On [gap_log], with readings in hours 12 and 15 only, scalar mode
    returns the rows of hours 12 to 15 and grid mode returns nothing. *)
Lemma gap_log_in_both_modes :
  index <$> resample_to_hourly_steps row_major_rule true gap_log
  = Some [noon; noon + 60; noon + 120; noon + 180] /\
  resample_to_hourly_steps row_major_rule false gap_log = None.
Proof. split; vm_compute; reflexivity. Qed.



Lemma get_files_nonempty (listing : list (string * RawTable)) :
  Exists (fun f => endswith ".dat" f.1 = true) listing -> get_files listing <> [].
Proof.
  intros H E. destruct (get_files_sorted listing) as [_ Hp]. rewrite E in Hp.
  apply Exists_exists in H as (f & Hf & Hd).
  assert (In f (List.filter (fun f => endswith ".dat" f.1) listing)) as Hin.
  { apply filter_In. split; [now apply list_elem_of_In|exact Hd]. }
  apply (Permutation_in f (Permutation_sym Hp)) in Hin. destruct Hin.
Qed.

(** C1.  As soon as the directory holds a [.dat] file, [execute] returns
    no table in grid mode, and so no 8x8 array for any hour, since the
    conversion of the first file fails at line 172.  (Line 172 writes the
    label [temp], while line 163 creates, and [transform] and [load] read,
    the column [tas].) *)
Theorem grid_mode_returns_no_table (rule : Z -> option (Z * Z))
    (listing : list (string * RawTable)) :
  Exists (fun f => endswith ".dat" f.1 = true) listing ->
  execute rule false listing = None.
Proof.
  intros H. apply get_files_nonempty in H. unfold execute, extract.
  destruct (get_files listing) as [|f rest]; [congruence|].
  cbn [default length take extract_loop]. unfold convert_to_dataframe.
  now rewrite grid_conversion_None.
Qed.

(** [grid_mode_returns_no_table] on the spec's example hour: 20.0, 22.0 and
    20.0 degrees at minutes 0, 30 and 45. *)
Lemma grid_mode_returns_no_table_witness :
  execute row_major_rule false [("station.dat"%string, station_log)] = None.
Proof.
  apply (grid_mode_returns_no_table row_major_rule [("station.dat"%string, station_log)]).
  left. vm_compute. reflexivity.
Defined.
(** * Further properties of the converter *)

(** ** Which files are read *)

Lemma substring_whole (s : string) : substring 0 (String.length s) s = s.
Proof. induction s as [|a s IH]; cbn; [reflexivity|]. now rewrite IH. Qed.

Lemma append_cons (a : Ascii.ascii) (s1 s2 : string) :
  String a s1 +:+ s2 = String a (s1 +:+ s2).
Proof. reflexivity. Qed.

Lemma append_empty (s : string) : "" +:+ s = s.
Proof. reflexivity. Qed.

Lemma substring_append_r (pre suf : string) :
  substring (String.length pre) (String.length suf) (pre +:+ suf) = suf.
Proof.
  induction pre as [|a pre IH].
  - rewrite append_empty. apply substring_whole.
  - rewrite append_cons. exact IH.
Qed.

Lemma string_length_app (s1 s2 : string) :
  String.length (s1 +:+ s2) = (String.length s1 + String.length s2)%nat.
Proof.
  induction s1 as [|a s1 IH]; [reflexivity|].
  rewrite append_cons. simpl. f_equal. exact IH.
Qed.

Lemma substring_split (s : string) (k : nat) :
  (k <= String.length s)%nat ->
  s = substring 0 k s +:+ substring k (String.length s - k) s.
Proof.
  revert k. induction s as [|a s IH]; intros k Hk.
  - simpl in Hk. replace k with 0%nat by lia. reflexivity.
  - destruct k as [|k].
    + rewrite Nat.sub_0_r. simpl substring at 1. rewrite append_empty.
      now rewrite substring_whole.
    + simpl. rewrite append_cons. f_equal. apply IH. simpl in Hk. lia.
Qed.

Lemma endswith_spec (suffix s : string) :
  endswith suffix s = true <-> exists stem, s = stem +:+ suffix.
Proof.
  unfold endswith. cbv zeta. rewrite andb_true_iff, Nat.leb_le. split.
  - intros [Hle E]. apply String.eqb_eq in E.
    exists (substring 0 (String.length s - String.length suffix) s).
    pose proof (substring_split s (String.length s - String.length suffix) ltac:(lia)) as Hs.
    replace (String.length s - (String.length s - String.length suffix))%nat
      with (String.length suffix) in Hs by lia.
    now rewrite E in Hs.
  - intros [stem ->]. rewrite string_length_app. split; [lia|].
    apply String.eqb_eq.
    replace (String.length stem + String.length suffix - String.length suffix)%nat
      with (String.length stem) by lia.
    apply substring_append_r.
Qed.

(** X1.  [get_files] returns exactly the directory entries whose name ends
    in [.dat]: an entry is listed if and only if it is in the directory and
    its name is some stem followed by [.dat], and as many entries are listed
    as the directory holds of them. *)
Theorem get_files_only_dat (listing : list (string * RawTable)) :
  (forall f, f ∈ get_files listing <->
             f ∈ listing /\ exists stem, f.1 = stem +:+ ".dat") /\
  length (get_files listing)
  = length (List.filter (fun f => endswith ".dat" f.1) listing).
Proof.
  destruct (get_files_sorted listing) as [_ Hp]. split.
  - intros f. rewrite Hp, list_elem_of_In, filter_In, <- list_elem_of_In.
    now rewrite endswith_spec.
  - now rewrite Hp.
Qed.

(** ** When the import fails *)

Lemma extract_loop_None (rule : Z -> option (Z * Z)) (hourly : bool)
    (files : list (string * RawTable)) (acc : DataFrame cell) :
  extract_loop rule hourly acc files = None <->
  Exists (fun f => resample_to_hourly_steps rule hourly f.2 = None) files.
Proof.
  revert acc. induction files as [|file rest IH]; intros acc; cbn [extract_loop].
  - split; [discriminate|]. intros H. inversion H.
  - unfold convert_to_dataframe.
    destruct (resample_to_hourly_steps rule hourly file.2) as [df|] eqn:E;
      cbn [mbind option_bind].
    + rewrite IH. split; [now right|]. intros H.
      apply Exists_cons in H. destruct H as [H|H]; [congruence|exact H].
    + split; [now left|reflexivity].
Qed.

(** X2.  [extract] gives no table at all as soon as one of the files it
    takes cannot be converted, and only then: it fails exactly when the
    conversion of one of the first [first_n_files] files fails (of any file
    when [first_n_files] is [None]); files after the first [first_n_files]
    are not looked at. *)
Theorem extract_fails_iff_a_file_fails (rule : Z -> option (Z * Z)) (hourly : bool)
    (files : list (string * RawTable)) (first_n_files : option nat) :
  extract rule hourly files first_n_files = None <->
  Exists (fun f => resample_to_hourly_steps rule hourly f.2 = None)
    (take (default (length files) first_n_files) files).
Proof. unfold extract. apply extract_loop_None. Qed.

Lemma set_index_datetime_None (t : RawTable) :
  set_index_datetime t = None <->
  records t = [] \/ Exists (fun r => to_datetime r = None) (records t).
Proof.
  unfold set_index_datetime. destruct (records t) as [|r0 rs] eqn:Er; [tauto|].
  destruct (mapM to_datetime (r0 :: rs)) as [labels|] eqn:E; cbn [mbind option_bind].
  - split; [discriminate|]. intros [H|H]; [discriminate|]. exfalso.
    assert (Hs : is_Some (mapM to_datetime (r0 :: rs))) by eauto.
    apply mapM_is_Some in Hs. apply Exists_exists in H. destruct H as (r & Hin & Hr).
    rewrite Forall_forall in Hs. specialize (Hs r Hin). cbn in Hs.
    rewrite Hr in Hs. now destruct Hs.
  - split; [|reflexivity]. intros _. right.
    apply mapM_None in E. exact E.
Qed.

Lemma year_outside_ns_range (r : RawRecord) (t : Z) :
  to_datetime r = Some t -> year r < 1677 \/ 2262 < year r ->
  Datetime.in_ns_range t = false.
Proof.
  unfold to_datetime, Datetime.datetime. intros H Hy.
  destruct (_ && _) eqn:E in H; [|discriminate]. injection H as <-.
  repeat (apply andb_true_iff in E as [E ?]).
  pose proof (days_before_month_bound (year r) (mon r) ltac:(lia)) as Hm.
  pose proof (days_in_month_bound (year r) (mon r)) as Hd.
  unfold Datetime.in_ns_range, Datetime.ns_min, Datetime.ns_max.
  assert (Datetime.ymd2ord (year r) (mon r) (day r) < Datetime.ymd2ord 1677 9 21
          \/ Datetime.ymd2ord 2262 4 11 < Datetime.ymd2ord (year r) (mon r) (day r)) as Hord.
  { replace (Datetime.ymd2ord 1677 9 21) with 612411 by (vm_compute; reflexivity).
    replace (Datetime.ymd2ord 2262 4 11) with 825914 by (vm_compute; reflexivity).
    unfold Datetime.ymd2ord, Datetime.days_before_year. cbv zeta.
    pose proof (Z.div_mod (year r - 1) 4 ltac:(lia)).
    pose proof (Z.mod_pos_bound (year r - 1) 4 ltac:(lia)).
    pose proof (Z.div_mod (year r - 1) 100 ltac:(lia)).
    pose proof (Z.mod_pos_bound (year r - 1) 100 ltac:(lia)).
    pose proof (Z.div_mod (year r - 1) 400 ltac:(lia)).
    pose proof (Z.mod_pos_bound (year r - 1) 400 ltac:(lia)).
    lia. }
  apply andb_false_iff. destruct Hord; [left; apply Z.leb_gt|right; apply Z.leb_gt]; lia.
Qed.

(** X3.  In scalar mode the conversion of a file whose lines are dated 1678
    to 2261 fails exactly when the file has no line, when some line has a
    date that [datetime] rejects, or when the header lacks the sensor column
    [mcp9808]; a sentinel or a missing reading never makes it fail.  A line
    dated before 1677 or after 2262 makes the conversion fail: its timestamp
    is outside the range of [datetime64[ns]], and [df.resample] refuses the
    index. *)
Theorem scalar_conversion_fails_iff (rule : Z -> option (Z * Z)) (t : RawTable) :
  (Forall (fun r => 1678 <= year r <= 2261) (records t) ->
   resample_to_hourly_steps rule true t = None <->
   records t = [] \/ Exists (fun r => to_datetime r = None) (records t)
   \/ tas_sensor ∉ header t) /\
  (Exists (fun r => year r < 1677 \/ 2262 < year r) (records t) ->
   resample_to_hourly_steps rule true t = None).
Proof.
  split.
  - intros Hy. unfold resample_to_hourly_steps.
    destruct (set_index_datetime t) as [df0|] eqn:E0; cbn [mbind option_bind].
    + assert (Hno : ~ (records t = [] \/ Exists (fun r => to_datetime r = None) (records t))).
      { intros H. apply set_index_datetime_None in H. congruence. }
      assert (Hcol : tas_sensor ∈ columns df0 <-> tas_sensor ∈ header t).
      { rewrite (proj2 (set_index_datetime_columns _ _ E0)).
        rewrite !list_elem_of_In, filter_In. split; [tauto|]. intros H. split; [exact H|].
        reflexivity. }
      destruct (add_tas (replace sentinel Float64.nan df0)) as [df|] eqn:E1;
        cbn [mbind option_bind].
      * unfold datetime_index.
        rewrite (year_window_datetime_index _ _ Hy (working_frame_index _ _ _ E0 E1)).
        split; [discriminate|]. intros [H|[H|H]]; [tauto|tauto|]. exfalso.
        unfold add_tas in E1. cbn [replace frame_map columns] in E1.
        rewrite bool_decide_eq_false_2 in E1; [discriminate|]. now rewrite Hcol.
      * split; [|reflexivity]. intros _. right. right.
        unfold add_tas in E1. cbn [replace frame_map columns] in E1.
        case_bool_decide as Hin; [discriminate|]. now rewrite <- Hcol.
    + split; [|reflexivity]. intros _.
      apply set_index_datetime_None in E0. tauto.
  - intros Hout. unfold resample_to_hourly_steps.
    destruct (set_index_datetime t) as [df0|] eqn:E0; [|reflexivity].
    cbn [mbind option_bind].
    destruct (add_tas (replace sentinel Float64.nan df0)) as [df|] eqn:E1; [|reflexivity].
    cbn [mbind option_bind].
    replace (datetime_index df) with false; [reflexivity|]. symmetry.
    pose proof (working_frame_index _ _ _ E0 E1) as Hm. apply mapM_Some in Hm.
    apply Exists_exists in Hout as (r & Hr & Hyr).
    apply list_elem_of_lookup_1 in Hr as [i Hi].
    destruct (Forall2_lookup_l _ _ _ _ _ Hm Hi) as (lbl & Hl & Hrt).
    unfold datetime_index. apply not_true_is_false. intros Hall.
    rewrite forallb_forall in Hall.
    specialize (Hall lbl (proj1 (list_elem_of_In _ _) (list_elem_of_lookup_2 _ _ _ Hl))).
    rewrite (year_outside_ns_range _ _ Hrt Hyr) in Hall. discriminate.
Qed.

(** [scalar_conversion_fails_iff] on [station_log], dated 2023. *)
Lemma scalar_conversion_fails_iff_witness :
  resample_to_hourly_steps row_major_rule true station_log = None <->
  records station_log = [] \/ Exists (fun r => to_datetime r = None) (records station_log)
  \/ tas_sensor ∉ header station_log.
Proof.
  apply (proj1 (scalar_conversion_fails_iff row_major_rule station_log)).
  vm_compute. repeat constructor; discriminate.
Defined.

(** ** The hourly groups partition the rows *)

Lemma hour_bins_complete (labels : list Z) (t : Z) :
  t ∈ labels -> Datetime.floor_hour t ∈ hour_bins labels.
Proof.
  intros Hin. destruct labels as [|t0 ts]; [now apply elem_of_nil in Hin|].
  unfold hour_bins. cbv zeta.
  destruct (foldr_min_spec t0 ts) as [_ Hmin]. destruct (foldr_max_spec t0 ts) as [_ Hmax].
  rewrite Forall_forall in Hmin, Hmax. specialize (Hmin t Hin). specialize (Hmax t Hin).
  set (m := foldr Z.min t0 ts) in *. set (M := foldr Z.max t0 ts) in *.
  unfold Datetime.floor_hour.
  pose proof (Z.div_le_mono m t 60 ltac:(lia) Hmin) as H1.
  pose proof (Z.div_le_mono t M 60 ltac:(lia) Hmax) as H2.
  apply list_elem_of_In, in_map_iff. exists (Z.to_nat (t / 60 - m / 60)). split.
  - rewrite Z2Nat.id by lia. lia.
  - apply in_seq. split; [lia|]. cbn [Nat.add].
    replace (60 * (M / 60) - 60 * (m / 60)) with ((M / 60 - m / 60) * 60) by lia.
    rewrite Z.div_mul by lia. lia.
Qed.

Lemma concat_filter_cons {A} (key : A -> Z) (x : A) (l : list A) (hs : list Z) :
  NoDup hs -> key x ∈ hs ->
  List.concat (map (fun h => List.filter (fun y => key y =? h) (x :: l)) hs)
  ≡ₚ x :: List.concat (map (fun h => List.filter (fun y => key y =? h) l) hs).
Proof.
  induction 1 as [|h hs Hnotin Hnd IH]; intros Hin; [now apply elem_of_nil in Hin|].
  cbn [map List.concat].
  assert (Hhead : List.filter (fun y => key y =? h) (x :: l)
                  = if key x =? h then x :: List.filter (fun y => key y =? h) l
                    else List.filter (fun y => key y =? h) l) by reflexivity.
  rewrite Hhead. clear Hhead.
  destruct (key x =? h) eqn:E.
  - apply Z.eqb_eq in E. cbn [app]. constructor.
    apply Permutation_app_head.
    rewrite (map_ext_in _ (fun h0 => List.filter (fun y => key y =? h0) l)); [reflexivity|].
    intros h' Hh'. cbn [List.filter].
    replace (key x =? h') with false; [reflexivity|].
    symmetry. apply Z.eqb_neq. intros E'. apply Hnotin. rewrite <- E, E'.
    now apply list_elem_of_In.
  - apply Z.eqb_neq in E. apply elem_of_cons in Hin. destruct Hin as [Hin|Hin]; [congruence|].
    rewrite (IH Hin). symmetry. apply Permutation_middle.
Qed.

Lemma concat_filter_perm {A} (key : A -> Z) (l : list A) (hs : list Z) :
  NoDup hs -> Forall (fun x => key x ∈ hs) l ->
  List.concat (map (fun h => List.filter (fun y => key y =? h) l) hs) ≡ₚ l.
Proof.
  intros Hnd. induction 1 as [|x l Hx _ IH].
  - cbn [List.filter]. clear. induction hs as [|h hs IH]; [reflexivity|exact IH].
  - rewrite concat_filter_cons by assumption. now constructor.
Qed.

(** X4.  [df.resample("h")] partitions the rows of the frame by calendar
    hour: the groups taken together are the rows of the frame, each exactly
    once; no hour is yielded twice; and a row is in the group labelled with
    the start of its own hour. *)
Theorem resample_partitions_rows {A} (df : DataFrame A) :
  List.concat (map snd (resample df)) ≡ₚ rows df /\
  NoDup (map fst (resample df)) /\
  Forall (fun g => Forall (fun r => Datetime.floor_hour r.1 = g.1) g.2) (resample df).
Proof.
  unfold resample. rewrite !map_map. cbn [fst snd]. split; [|split].
  - unfold hour_group.
    rewrite (concat_filter_perm (fun r => Datetime.floor_hour r.1)).
    + apply sort_by_time_perm.
    + apply hour_bins_NoDup.
    + apply Forall_forall. intros r Hin. rewrite sort_by_time_perm in Hin.
      apply hour_bins_complete. unfold index. apply list_elem_of_In, in_map.
      now apply list_elem_of_In.
  - rewrite map_id. apply hour_bins_NoDup.
  - apply Forall_forall. intros g Hg. apply list_elem_of_In, in_map_iff in Hg.
    destruct Hg as (h & <- & _). cbn [fst snd]. apply Forall_forall. intros r Hr.
    unfold hour_group in Hr. apply list_elem_of_In, filter_In in Hr.
    now apply Z.eqb_eq.
Qed.

(** ** The array of an hour (lines 166-170) *)

Lemma last_all_equal {A} (l : list A) (x : A) :
  x ∈ l -> (forall y, y ∈ l -> y = x) -> last l = Some x.
Proof.
  intros Hin Hall. destruct (last l) as [z|] eqn:E.
  - f_equal. apply Hall. apply last_Some in E. destruct E as [l' ->].
    apply elem_of_app. right. now left.
  - apply last_None in E. subst. now apply elem_of_nil in Hin.
Qed.

Lemma NoDup_fst_unique {A B} (l : list (A * B)) (x : A) (y1 y2 : B) :
  NoDup (map fst l) -> (x, y1) ∈ l -> (x, y2) ∈ l -> y1 = y2.
Proof.
  induction l as [|[a b] l IH]; intros Hnd H1 H2; [now apply elem_of_nil in H1|].
  cbn [map fst] in Hnd. apply NoDup_cons in Hnd. destruct Hnd as [Hnotin Hnd].
  assert (Hfst : forall y, (a, y) ∈ l -> False).
  { intros y Hy. apply Hnotin. apply list_elem_of_In, in_map_iff.
    exists (a, y). split; [reflexivity|now apply list_elem_of_In]. }
  apply elem_of_cons in H1. apply elem_of_cons in H2.
  destruct H1 as [E1|H1], H2 as [E2|H2].
  - congruence.
  - exfalso. injection E1 as -> _. eauto.
  - exfalso. injection E2 as -> _. eauto.
  - now apply IH.
Qed.

Lemma timestamp_split (t : Z) : t = Datetime.floor_hour t + Datetime.minute_of t.
Proof. unfold Datetime.floor_hour, Datetime.minute_of. apply Z.div_mod. lia. Qed.

Lemma row_major_cell_of (m : Z) :
  0 <= m < 60 -> cell_of row_major_rule m = Some (Z.to_nat (m / 8), Z.to_nat (m mod 8)).
Proof.
  intros Hm. unfold cell_of, row_major_rule.
  replace ((0 <=? m) && (m <? 60)) with true by (symmetry; apply andb_true_iff; lia).
  cbn [mbind option_bind fst snd].
  rewrite (norm_index_in_range (m / 8))
    by (split; [apply Z.div_pos; lia|apply Z.div_lt_upper_bound; lia]).
  cbn [mbind option_bind].
  rewrite (norm_index_in_range (m mod 8)) by (apply Z.mod_pos_bound; lia).
  reflexivity.
Qed.

Lemma row_major_rule_injective : rule_injective row_major_rule.
Proof.
  intros m1 m2 p H1 H2 E1 E2.
  rewrite row_major_cell_of in E1 by exact H1. rewrite row_major_cell_of in E2 by exact H2.
  rewrite <- E2 in E1. injection E1 as Ed Em.
  assert (0 <= m1 / 8 /\ 0 <= m2 / 8) by (split; apply Z.div_pos; lia).
  pose proof (Z.mod_pos_bound m1 8 ltac:(lia)). pose proof (Z.mod_pos_bound m2 8 ltac:(lia)).
  apply Z2Nat.inj in Ed; [|lia|lia]. apply Z2Nat.inj in Em; [|lia|lia].
  rewrite (Z.div_mod m1 8), (Z.div_mod m2 8) by lia. now rewrite Ed, Em.
Qed.

Lemma resample_group {A} (df : DataFrame A) (h : Z) (hour_data : list (Z * gmap string A)) :
  (h, hour_data) ∈ resample df -> hour_data = hour_group h df.
Proof.
  unfold resample. intros H. apply list_elem_of_In, in_map_iff in H as (h' & E & _).
  now injection E as -> <-.
Qed.

(** X5.  The array of an hour is built exactly when the mapping table gives
    a cell inside the 8x8 array for the minute of each reading of the hour
    (the minute is in the table and the pair it gives is in range);
    collisions and missing readings never stop the loop. *)
Theorem hour_array_fails_iff (rule : Z -> option (Z * Z))
    (hour_data : list (Z * gmap string float)) :
  place_all rule nan_grid (minute_temps hour_data) = None <->
  Exists (fun r => cell_of rule (Datetime.minute_of r.1) = None) hour_data.
Proof.
  rewrite (place_all_None rule _ _ nan_grid_shape). unfold minute_temps.
  rewrite !Exists_exists. split.
  - intros (rd & Hrd & Hcell). apply list_elem_of_In, in_map_iff in Hrd as (r & <- & Hr).
    exists r. split; [now apply list_elem_of_In|exact Hcell].
  - intros (r & Hr & Hcell). exists (Datetime.minute_of r.1, cell_at r.2 "tas").
    split; [|exact Hcell]. apply list_elem_of_In, in_map_iff. exists r.
    split; [reflexivity|now apply list_elem_of_In].
Qed.

(** X6.  The array built for an hour has 8 lines of 8 cells, and a cell
    holds either the missing marker or the [tas] value of a reading of the
    frame that lies in that hour and whose minute the table sends to that
    cell: no value is invented, moved to another hour or to another cell. *)
Theorem hour_array_cells_come_from_readings (rule : Z -> option (Z * Z))
    (df : DataFrame float) (h : Z) (hour_data : list (Z * gmap string float))
    (g : list (list float)) :
  (h, hour_data) ∈ resample df ->
  place_all rule nan_grid (minute_temps hour_data) = Some g ->
  grid_shape g /\
  forall r c v,
    grid_get g r c = Some v ->
    v = Float64.nan \/
    exists row,
      row ∈ rows df /\
      Datetime.floor_hour row.1 = h /\
      cell_of rule (Datetime.minute_of row.1) = Some (r, c) /\
      v = cell_at row.2 "tas".
Proof.
  intros Hin Ha. apply resample_group in Hin. subst hour_data.
  destruct (place_all_get rule _ _ _ nan_grid_shape Ha) as [Hs Hget].
  split; [exact Hs|]. intros r c v Hv. rewrite Hget in Hv.
  destruct (last_write rule r c (minute_temps (hour_group h df))) as [w|] eqn:Ew.
  - injection Hv as <-. right. apply last_write_Some in Ew.
    destruct Ew as (rd & Hrd & Hcell & Hval). unfold minute_temps in Hrd.
    apply list_elem_of_In, in_map_iff in Hrd. destruct Hrd as (row & <- & Hrow).
    apply list_elem_of_In, hour_group_elem in Hrow. exists row.
    cbn [fst snd] in *. repeat split; try tauto. now symmetry.
  - left. unfold grid_get, nan_grid in Hv.
    destruct (replicate 8 (replicate 8 Float64.nan) !! r) as [line|] eqn:El; [|discriminate].
    cbn [mbind option_bind] in Hv. apply lookup_replicate in El. destruct El as [-> _].
    apply lookup_replicate in Hv. tauto.
Qed.

(** X7.  When the mapping table sends different minutes to different cells
    and no two rows of the frame have the same timestamp, the arrays lose no
    reading: the array built for the hour of a row holds the row's [tas]
    value at the cell the table gives for the row's minute. *)
Theorem hour_array_keeps_every_reading (rule : Z -> option (Z * Z)) (df : DataFrame float)
    (h : Z) (hour_data : list (Z * gmap string float)) (g : list (list float))
    (row : Z * gmap string float) :
  rule_injective rule ->
  NoDup (index df) ->
  (h, hour_data) ∈ resample df ->
  place_all rule nan_grid (minute_temps hour_data) = Some g ->
  row ∈ rows df ->
  Datetime.floor_hour row.1 = h ->
  exists r c,
    cell_of rule (Datetime.minute_of row.1) = Some (r, c) /\
    grid_get g r c = Some (cell_at row.2 "tas").
Proof.
  intros Hinj Hnd Hin Ha Hrow Hh. apply resample_group in Hin. subst hour_data.
  set (rds := minute_temps (hour_group h df)) in *.
  set (rd0 := (Datetime.minute_of row.1, cell_at row.2 "tas")).
  assert (Hrd0 : rd0 ∈ rds).
  { unfold rds, minute_temps. apply list_elem_of_In, in_map_iff. exists row.
    split; [reflexivity|]. apply list_elem_of_In, hour_group_elem. now split. }
  destruct (cell_of rule (Datetime.minute_of row.1)) as [[r c]|] eqn:Hcell.
  2:{ exfalso.
      assert (Hnone : place_all rule nan_grid rds = None).
      { apply (place_all_None rule _ _ nan_grid_shape), Exists_exists.
        exists rd0. split; [exact Hrd0|exact Hcell]. }
      congruence. }
  exists r, c. split; [reflexivity|].
  destruct (place_all_get rule _ _ _ nan_grid_shape Ha) as [_ Hget].
  rewrite Hget. unfold last_write.
  rewrite (last_all_equal _ rd0); [reflexivity| |].
  - apply list_elem_of_In, filter_In. split; [now apply list_elem_of_In|].
    now apply maps_to_cell_of.
  - intros rd Hrd. apply list_elem_of_In, filter_In in Hrd. destruct Hrd as [Hin Hm].
    apply maps_to_cell_of in Hm. unfold rds, minute_temps in Hin.
    apply in_map_iff in Hin. destruct Hin as (y & <- & Hy).
    apply list_elem_of_In, hour_group_elem in Hy. destruct Hy as [Hy Hyh].
    cbn [fst] in Hm.
    assert (Hmin : Datetime.minute_of y.1 = Datetime.minute_of row.1).
    { apply (Hinj _ _ (r, c)); try assumption;
        unfold Datetime.minute_of; apply Z.mod_pos_bound; lia. }
    assert (Ht : y.1 = row.1).
    { rewrite (timestamp_split y.1), (timestamp_split row.1). rewrite Hyh, Hh, Hmin.
      reflexivity. }
    assert (Hyrow : y = row).
    { destruct y as [ty my], row as [tr mr]. cbn [fst] in Ht. subst ty. f_equal.
      eapply (NoDup_fst_unique (rows df)); [exact Hnd| |]; eassumption. }
    subst y. reflexivity.
Qed.

(** [hour_array_cells_come_from_readings] on hour 12 of [gap_frame] under
    [paired_rule], where minutes 10 and 11 share a cell. *)
Lemma hour_array_cells_come_from_readings_witness :
  grid_shape (default [] (place_all paired_rule nan_grid
                            (minute_temps (hour_group noon gap_frame)))) /\
  forall r c v,
    grid_get (default [] (place_all paired_rule nan_grid
                            (minute_temps (hour_group noon gap_frame)))) r c = Some v ->
    v = Float64.nan \/
    exists row,
      row ∈ rows gap_frame /\
      Datetime.floor_hour row.1 = noon /\
      cell_of paired_rule (Datetime.minute_of row.1) = Some (r, c) /\
      v = cell_at row.2 "tas".
Proof.
  apply (hour_array_cells_come_from_readings paired_rule gap_frame noon
           (hour_group noon gap_frame)).
  - apply list_elem_of_In. vm_compute. auto.
  - vm_compute. reflexivity.
Defined.

(** [hour_array_keeps_every_reading] on the first row of [gap_frame] under
    [row_major_rule]. *)
Lemma hour_array_keeps_every_reading_witness :
  exists r c,
    cell_of row_major_rule (Datetime.minute_of (noon + 10)) = Some (r, c) /\
    grid_get (default [] (place_all row_major_rule nan_grid
                            (minute_temps (hour_group noon gap_frame)))) r c
    = Some (cell_at ({[ "mcp9808"%string := 7%float; "tas"%string := 280.15%float ]}
                       : gmap string float) "tas").
Proof.
  assert (Hnd : NoDup (index gap_frame)).
  { unfold index, gap_frame, noon. cbn [rows map fst].
    repeat (apply NoDup_cons_2; [rewrite ?elem_of_cons, elem_of_nil; lia|]).
    apply NoDup_nil_2. }
  assert (Hin : (noon, hour_group noon gap_frame) ∈ resample gap_frame).
  { apply list_elem_of_In. vm_compute. auto. }
  assert (Hrow : (noon + 10, ({[ "mcp9808"%string := 7%float; "tas"%string := 280.15%float ]}
                               : gmap string float)) ∈ rows gap_frame).
  { unfold gap_frame. cbn [rows]. left. }
  exact (hour_array_keeps_every_reading row_major_rule gap_frame noon
           (hour_group noon gap_frame)
           (default [] (place_all row_major_rule nan_grid
                          (minute_temps (hour_group noon gap_frame))))
           _ row_major_rule_injective Hnd Hin eq_refl Hrow eq_refl).
Defined.

(** ** Missing readings *)

Lemma tas_of_missing (y : float) : Float64.isnan y = true -> tas_of_reading y = Float64.nan.
Proof.
  intros Hy. unfold tas_of_reading, Float64.nanmean, Float64.count.
  cbn [List.filter]. unfold Float64.notna. rewrite Hy. reflexivity.
Qed.

Lemma replaced_missing (x : float) :
  (x =? sentinel)%float = true \/ Float64.isnan x = true ->
  Float64.isnan (replace_value sentinel Float64.nan x) = true.
Proof.
  intros [H|H]; unfold replace_value.
  - now rewrite H.
  - destruct (x =? sentinel)%float; [reflexivity|exact H].
Qed.

(** X8.  A reading that is the sentinel -999.99, is NaN, or is absent from
    its row never becomes a temperature: after normalisation and the
    selector stage the [tas] cell of such a row is the missing marker (not
    -999.99 + 273.15). *)
Theorem missing_reading_gives_missing_tas (df out : DataFrame float) :
  add_tas (replace sentinel Float64.nan df) = Some out ->
  Forall2 (fun r r' =>
             r'.1 = r.1 /\
             match r.2 !! tas_sensor with
             | Some x =>
                 (x =? sentinel)%float = true \/ Float64.isnan x = true ->
                 r'.2 !! "tas"%string = Some Float64.nan
             | None => r'.2 !! "tas"%string = Some Float64.nan
             end)
          (rows df) (rows out).
Proof.
  intros H. rewrite (add_tas_rows _ _ H). unfold replace, frame_map. cbn [rows].
  rewrite map_map. clear.
  induction (rows df) as [|r l IH]; cbn [map]; constructor; [|exact IH].
  cbn [fst snd]. split; [reflexivity|].
  rewrite lookup_insert_eq.
  change (mean_axis1 [tas_sensor] (replace_value sentinel Float64.nan <$> r.2))
    with (Float64.nanmean [cell_at (replace_value sentinel Float64.nan <$> r.2) tas_sensor]).
  unfold cell_at. rewrite lookup_fmap.
  destruct (r.2 !! tas_sensor) as [x|]; cbn [fmap option_fmap option_map default].
  - intros Hx. f_equal. apply (tas_of_missing _ (replaced_missing x Hx)).
  - reflexivity.
Qed.

(** [missing_reading_gives_missing_tas] on a frame with a sentinel
    reading. *)
Lemma missing_reading_gives_missing_tas_witness :
  Forall2 (fun r r' =>
             r'.1 = r.1 /\
             match r.2 !! tas_sensor with
             | Some x =>
                 (x =? sentinel)%float = true \/ Float64.isnan x = true ->
                 r'.2 !! "tas"%string = Some Float64.nan
             | None => r'.2 !! "tas"%string = Some Float64.nan
             end)
          (rows (mkDataFrame [tas_sensor] [(noon, {[ tas_sensor := sentinel ]})]))
          (rows (default empty_frame
                   (add_tas (replace sentinel Float64.nan
                               (mkDataFrame [tas_sensor] [(noon, {[ tas_sensor := sentinel ]})]))))).
Proof.
  apply (missing_reading_gives_missing_tas
           (mkDataFrame [tas_sensor] [(noon, {[ tas_sensor := sentinel ]})])).
  vm_compute. reflexivity.
Defined.

(** X9.  A missing reading survives the round trip as the sentinel: a
    reading that is -999.99 or NaN, normalised, turned into [tas] and
    exported again, is written as -999.99. *)
Theorem missing_reading_exports_as_sentinel (x : float) :
  (x =? sentinel)%float = true \/ Float64.isnan x = true ->
  exported_value (tas_of_reading (replace_value sentinel Float64.nan x)) = sentinel.
Proof.
  intros Hx. rewrite (tas_of_missing _ (replaced_missing x Hx)). reflexivity.
Qed.

(** [missing_reading_exports_as_sentinel] at the sentinel itself. *)
Lemma missing_reading_exports_as_sentinel_witness :
  exported_value (tas_of_reading (replace_value sentinel Float64.nan sentinel)) = sentinel.
Proof.
  apply (missing_reading_exports_as_sentinel sentinel). left. reflexivity.
Defined.

(** ** When an hour counts as missing *)

Lemma unique_from_length (seen xs : list float) :
  (length (Float64.unique_from seen xs) <= length xs)%nat.
Proof.
  revert seen. induction xs as [|x xs IH]; intros seen; cbn [Float64.unique_from length]; [lia|].
  destruct (existsb (PrimFloat.eqb x) seen).
  - specialize (IH seen). lia.
  - cbn [length]. specialize (IH (x :: seen)). lia.
Qed.

Lemma unique_from_seen (x : float) (seen : list float) (n : nat) :
  (x =? x)%float = true -> In x seen ->
  Float64.unique_from seen (replicate n x) = [].
Proof.
  intros Hx Hin. induction n as [|n IH]; [reflexivity|].
  cbn [replicate Float64.unique_from].
  replace (existsb (PrimFloat.eqb x) seen) with true; [exact IH|].
  symmetry. apply existsb_exists. exists x. now split.
Qed.

Lemma all_equal_replicate {A} (l : list A) (x : A) :
  (forall y, y ∈ l -> y = x) -> l = replicate (length l) x.
Proof.
  induction l as [|a l IH]; intros H; [reflexivity|]. cbn [length replicate].
  rewrite (H a) by (now left). f_equal. apply IH. intros y Hy. apply H. now right.
Qed.

(** X10.  The scalar aggregate of an hour is missing whenever the hour has
    at most two non-missing readings, and whenever all its non-missing
    readings are one and the same value, however many there are. *)
Theorem few_or_constant_readings_are_missing :
  (forall group, (Float64.count group <= 2)%nat -> custom_aggregation group = Float64.nan) /\
  (forall group x,
     (forall y, y ∈ group -> Float64.notna y = true -> y = x) ->
     custom_aggregation group = Float64.nan).
Proof.
  split.
  - intros group Hc. unfold custom_aggregation, Float64.nunique, Float64.unique.
    unfold Float64.count in Hc.
    pose proof (unique_from_length [] (List.filter Float64.notna group)) as Hu.
    replace (_ <=? 2)%nat with true; [reflexivity|]. symmetry. apply Nat.leb_le. lia.
  - intros group x Hall. unfold custom_aggregation, Float64.nunique, Float64.unique.
    replace (_ <=? 2)%nat with true; [reflexivity|]. symmetry. apply Nat.leb_le.
    assert (E : List.filter Float64.notna group
                = replicate (length (List.filter Float64.notna group)) x).
    { apply all_equal_replicate. intros y Hy. apply list_elem_of_In, filter_In in Hy.
      destruct Hy as [Hin Hn]. apply Hall; [now apply list_elem_of_In|exact Hn]. }
    destruct (List.filter Float64.notna group) as [|y l] eqn:F; [cbn; lia|].
    assert (Hy : y = x /\ Float64.notna y = true).
    { assert (Hin : In y (List.filter Float64.notna group)) by (rewrite F; now left).
      apply filter_In in Hin. destruct Hin as [Hin Hn]. split; [|exact Hn].
      apply Hall; [now apply list_elem_of_In|exact Hn]. }
    destruct Hy as [-> Hn]. rewrite E. cbn [length replicate Float64.unique_from existsb].
    rewrite unique_from_seen; [cbn; lia| |now left].
    unfold Float64.notna, Float64.isnan, PrimFloat.is_nan in Hn.
    now rewrite negb_involutive in Hn.
Qed.

(** ** What [transform] keeps *)

Lemma intersect_columns_elem (cols : list string) (c : string) :
  c ∈ intersect_columns cols <-> c ∈ cols /\ c ∈ canonical_columns.
Proof.
  unfold intersect_columns. rewrite list_elem_of_In, filter_In, <- list_elem_of_In.
  rewrite elem_of_remove_dups, bool_decide_eq_true. reflexivity.
Qed.

Lemma intersect_columns_NoDup (cols : list string) : NoDup (intersect_columns cols).
Proof.
  unfold intersect_columns.
  apply NoDup_ListNoDup, List.NoDup_filter, NoDup_ListNoDup, NoDup_remove_dups.
Qed.

Lemma map_rename_mapping (cols : list string) : map (rename_label mapping) cols = cols.
Proof.
  induction cols as [|c cols IH]; [reflexivity|]. cbn [map].
  now rewrite rename_mapping_id, IH.
Qed.

Lemma kmap_rename_mapping {A} (m : gmap string A) :
  kmap (M2 := gmap string) (rename_label mapping) m = m.
Proof.
  apply map_eq. intros c. rewrite <- (rename_mapping_id c) at 1.
  now rewrite lookup_kmap by apply _.
Qed.

Lemma transform_columns (hourly : bool) (df out : DataFrame cell) :
  transform hourly df = Some out -> columns out = intersect_columns (columns df).
Proof.
  unfold transform. destruct hourly.
  - unfold dropna, select_columns. cbn [columns rows forallb].
    destruct (_ && true); [|discriminate]. cbn [mbind option_bind]. intros [= <-].
    unfold rename. cbn [columns]. apply map_rename_mapping.
  - cbn [mbind option_bind]. intros [= <-]. unfold rename, select_columns. cbn [columns].
    apply map_rename_mapping.
Qed.

Lemma filter_index_sublist {A} (p : Z * A -> bool) (l : list (Z * A)) :
  map fst (List.filter p l) `sublist_of` map fst l.
Proof.
  induction l as [|r l IH]; [constructor|]. cbn [List.filter map].
  destruct (p r); cbn [map]; [now apply sublist_skip|now apply sublist_cons].
Qed.

(** X11.  The table [transform] returns holds canonical columns only, each
    once: those of [tas], [vis_light], [uv_light], [ir_light] that the input
    has.  Its labels are a subsequence of the input's labels, and each of
    its rows is a row of the input cut down to these columns, every kept
    cell unchanged. *)
Theorem transform_keeps_canonical_cells (hourly : bool) (df out : DataFrame cell) :
  transform hourly df = Some out ->
  NoDup (columns out) /\
  (forall c, c ∈ columns out <-> c ∈ columns df /\ c ∈ canonical_columns) /\
  index out `sublist_of` index df /\
  Forall (fun r' =>
            exists r,
              r ∈ rows df /\ r'.1 = r.1 /\
              forall c, r'.2 !! c = if bool_decide (c ∈ columns out) then r.2 !! c else None)
         (rows out).
Proof.
  intros H. pose proof (transform_columns _ _ _ H) as Hc.
  destruct (transform_rows _ _ _ H) as [_ Hr].
  split; [|split; [|split]].
  - rewrite Hc. apply intersect_columns_NoDup.
  - intros c. rewrite Hc. apply intersect_columns_elem.
  - unfold index. rewrite Hr, map_map. cbn [fst]. apply filter_index_sublist.
  - rewrite Hr, Hc. apply Forall_forall. intros r' Hin.
    apply list_elem_of_In, in_map_iff in Hin. destruct Hin as (r & <- & Hin).
    apply filter_In in Hin. destruct Hin as [Hin _]. exists r.
    split; [now apply list_elem_of_In|]. split; [reflexivity|].
    intros c. cbn [snd]. rewrite kmap_rename_mapping, map_lookup_filter.
    destruct (r.2 !! c) as [x|]; cbn [mbind option_bind].
    + case_bool_decide as Hcin.
      * now rewrite option_guard_True.
      * now rewrite option_guard_False.
    + now destruct (bool_decide _).
Qed.

(** [transform_keeps_canonical_cells] in scalar mode on [scalar_table]. *)
Lemma transform_keeps_canonical_cells_witness :
  NoDup (columns (default empty_frame (transform true scalar_table))) /\
  (forall c, c ∈ columns (default empty_frame (transform true scalar_table))
             <-> c ∈ columns scalar_table /\ c ∈ canonical_columns) /\
  index (default empty_frame (transform true scalar_table)) `sublist_of` index scalar_table /\
  Forall (fun r' =>
            exists r,
              r ∈ rows scalar_table /\ r'.1 = r.1 /\
              forall c, r'.2 !! c =
                        if bool_decide (c ∈ columns (default empty_frame (transform true scalar_table)))
                        then r.2 !! c else None)
         (rows (default empty_frame (transform true scalar_table))).
Proof.
  apply (transform_keeps_canonical_cells true scalar_table).
  vm_compute. reflexivity.
Defined.

(** X12.  [transform] fails exactly in scalar mode on a table without a
    [tas] column (the [KeyError] of [dropna]); in grid mode it never
    fails. *)
Theorem transform_fails_iff (hourly : bool) (df : DataFrame cell) :
  transform hourly df = None <-> hourly = true /\ "tas"%string ∉ columns df.
Proof.
  unfold transform. destruct hourly.
  - unfold dropna, select_columns. cbn [columns rows forallb]. rewrite andb_true_r.
    case_bool_decide as Hin; cbn [mbind option_bind].
    + apply (proj1 (tas_in_intersect _)) in Hin. split; [discriminate|].
      intros [_ Hn]. now apply Hn in Hin.
    + split; [|reflexivity]. intros _. split; [reflexivity|].
      intros Hc. apply Hin. now apply tas_in_intersect.
  - cbn [mbind option_bind]. split; [discriminate|]. intros [Hh _]. discriminate.
Qed.

Lemma remove_dups_NoDup_id (l : list string) : NoDup l -> remove_dups l = l.
Proof.
  induction 1 as [|x l Hx _ IH]; [reflexivity|]. cbn [remove_dups].
  destruct (decide_rel elem_of x l) as [Hin|_]; [now apply Hx in Hin|]. now rewrite IH.
Qed.

Lemma intersect_columns_idem (cols : list string) :
  intersect_columns (intersect_columns cols) = intersect_columns cols.
Proof.
  unfold intersect_columns at 1.
  rewrite (remove_dups_NoDup_id _ (intersect_columns_NoDup cols)).
  unfold intersect_columns. now apply filter_filter_implied.
Qed.

Lemma map_filter_idem {A} (cols : list string) (m : gmap string A) :
  filter (fun kv : string * A => kv.1 ∈ cols) (filter (fun kv : string * A => kv.1 ∈ cols) m)
  = filter (fun kv : string * A => kv.1 ∈ cols) m.
Proof.
  apply map_eq. intros c. rewrite !map_lookup_filter.
  destruct (m !! c) as [x|]; cbn [mbind option_bind]; [|reflexivity].
  destruct (decide (c ∈ cols)) as [Hin|Hn].
  - rewrite option_guard_True by exact Hin. cbn [mbind option_bind].
    now rewrite option_guard_True.
  - now rewrite option_guard_False.
Qed.

Lemma list_filter_all {A} (p : A -> bool) (l : list A) :
  Forall (fun x => p x = true) l -> List.filter p l = l.
Proof.
  induction 1 as [|x l Hx _ IH]; [reflexivity|]. cbn [List.filter]. now rewrite Hx, IH.
Qed.

Lemma transform_twice (hourly : bool) (df out : DataFrame cell) :
  transform hourly df = Some out -> transform hourly out = Some out.
Proof.
  intros H. pose proof (transform_columns _ _ _ H) as Hc.
  destruct (transform_rows _ _ _ H) as [Htas Hr].
  assert (Hrows : map (fun r => (r.1, kmap (M2 := gmap string) (rename_label mapping)
                                        (filter (fun kv : string * cell => kv.1 ∈ columns out) r.2)))
                    (rows out) = rows out).
  { rewrite Hr, Hc, map_map. apply map_ext. intros r. cbn [fst snd].
    now rewrite !kmap_rename_mapping, map_filter_idem. }
  destruct out as [ocols orows]. cbn [columns rows] in *.
  unfold transform. cbn [columns].
  assert (Hic : intersect_columns ocols = ocols) by (rewrite Hc; apply intersect_columns_idem).
  rewrite Hic. destruct hourly.
  - unfold dropna, select_columns. cbn [columns rows forallb]. rewrite andb_true_r.
    rewrite bool_decide_eq_true_2
      by (rewrite Hc; apply tas_in_intersect; now apply Htas).
    cbn [mbind option_bind]. unfold rename. cbn [columns rows].
    rewrite map_rename_mapping. do 2 f_equal.
    rewrite dropna_tas_rows by (rewrite Hc; apply tas_in_intersect; now apply Htas).
    rewrite map_map. cbn [fst snd].
    rewrite list_filter_all; [exact Hrows|].
    rewrite Hr. apply Forall_forall. intros r' Hin.
    apply list_elem_of_In, in_map_iff in Hin. destruct Hin as (r & <- & Hin).
    apply filter_In in Hin. destruct Hin as [_ Hk]. cbn [fst snd andb] in *.
    rewrite projected_tas by (apply tas_in_intersect; now apply Htas). exact Hk.
  - cbn [mbind option_bind]. unfold rename, select_columns. cbn [columns rows].
    rewrite map_rename_mapping, map_map. cbn [fst snd]. now rewrite Hrows.
Qed.

(** X13.  [transform] is idempotent: applied to the table it has returned
    it succeeds and returns the same rows (labels and cells) under the same
    set of columns, in scalar mode and in grid mode.  (Python leaves the
    order in which the columns are listed open.) *)
Theorem transform_idempotent (hourly : bool) (df out : DataFrame cell) :
  transform hourly df = Some out ->
  exists again,
    transform hourly out = Some again /\
    rows again = rows out /\
    columns again ≡ₚ columns out.
Proof.
  intros H. exists out. split; [now apply (transform_twice hourly df)|]. now split.
Qed.

(** [transform_idempotent] in scalar mode on [scalar_table]. *)
Lemma transform_idempotent_witness :
  exists again,
    transform true (default empty_frame (transform true scalar_table)) = Some again /\
    rows again = rows (default empty_frame (transform true scalar_table)) /\
    columns again ≡ₚ columns (default empty_frame (transform true scalar_table)).
Proof.
  apply (transform_idempotent true scalar_table). vm_compute. reflexivity.
Defined.

(** ** The exporter [transform_df_to_tas] *)

Lemma rename_tas_label (c : string) :
  rename_label [("tas"%string, tas_sensor)] c = if String.eqb c "tas" then tas_sensor else c.
Proof.
  unfold rename_label. cbn [List.find fst snd]. rewrite String.eqb_sym.
  now destruct (String.eqb c "tas").
Qed.

Lemma renamed_lookup (m : gmap string float) (c : string) :
  kmap (M2 := gmap string) (rename_label [("tas"%string, tas_sensor)])
    (filter (fun kv : string * float => kv.1 ∉ [tas_sensor]) m) !! c
  = if String.eqb c tas_sensor then m !! "tas"%string
    else if String.eqb c "tas" then None else m !! c.
Proof.
  set (m1 := filter (fun kv : string * float => kv.1 ∉ [tas_sensor]) m).
  set (g := fun c : string =>
              if String.eqb c "tas" then tas_sensor
              else if String.eqb c tas_sensor then "tas"%string else c).
  assert (Hinj : Inj (=) (=) g).
  { intros a b. unfold g.
    destruct (String.eqb_spec a "tas"), (String.eqb_spec b "tas"),
      (String.eqb_spec a tas_sensor), (String.eqb_spec b tas_sensor); congruence. }
  assert (Hinv : forall a, g (g a) = a).
  { intros a. unfold g.
    destruct (String.eqb_spec a "tas") as [->|Ha]; [reflexivity|].
    destruct (String.eqb_spec a tas_sensor) as [->|Hb]; [reflexivity|].
    destruct (String.eqb_spec a "tas"); [congruence|].
    now destruct (String.eqb_spec a tas_sensor). }
  assert (E : kmap (M2 := gmap string) (rename_label [("tas"%string, tas_sensor)]) m1
              = kmap (M2 := gmap string) g m1).
  { unfold kmap. f_equal. apply list_fmap_ext. intros i [k v] Hk.
    apply list_elem_of_lookup_2, elem_of_map_to_list in Hk.
    unfold m1 in Hk. apply map_lookup_filter_Some in Hk. destruct Hk as [_ Hne].
    cbn [fst] in Hne. unfold prod_map. cbn [fst snd]. f_equal.
    rewrite rename_tas_label. unfold g.
    destruct (String.eqb_spec k "tas"); [reflexivity|].
    destruct (String.eqb_spec k tas_sensor) as [->|]; [|reflexivity].
    exfalso. apply Hne. now apply list_elem_of_singleton. }
  rewrite E. rewrite <- (Hinv c) at 1. rewrite (lookup_kmap g).
  unfold m1. rewrite map_lookup_filter. unfold g.
  destruct (String.eqb_spec c tas_sensor) as [->|Hs].
  - cbn. destruct (m !! "tas"%string) as [x|]; [|reflexivity].
    cbn [mbind option_bind]. rewrite option_guard_True; [reflexivity|].
    cbn [fst]. intros Hin. apply list_elem_of_singleton in Hin. discriminate.
  - destruct (String.eqb_spec c "tas") as [->|Ht].
    + destruct (m !! tas_sensor) as [x|]; [|reflexivity].
      cbn [mbind option_bind]. rewrite option_guard_False; [reflexivity|].
      cbn [fst]. intros Hn. apply Hn. now apply list_elem_of_singleton.
    + destruct (m !! c) as [x|]; [|reflexivity].
      cbn [mbind option_bind]. rewrite option_guard_True; [reflexivity|].
      cbn [fst]. intros Hin. apply list_elem_of_singleton in Hin. congruence.
Qed.

(** X14.  [transform_df_to_tas] fails exactly when the table lacks the
    sensor column [mcp9808] (nothing to drop) or lacks the column [tas]
    (nothing to rename into its place). *)
Theorem transform_df_to_tas_fails_iff (df : DataFrame float) :
  transform_df_to_tas df = None <->
  tas_sensor ∉ columns df \/ "tas"%string ∉ columns df.
Proof.
  unfold transform_df_to_tas, drop_columns. cbn [forallb]. rewrite andb_true_r.
  case_bool_decide as Hs; cbn [mbind option_bind].
  - unfold rename at 1. cbn [columns].
    case_bool_decide as Ht.
    + split; [discriminate|]. intros [H|H]; [now apply H in Hs|]. exfalso. apply H.
      apply list_elem_of_In, in_map_iff in Ht. destruct Ht as (c & Hc & Hin).
      apply filter_In in Hin. destruct Hin as [Hin Hne].
      rewrite rename_tas_label in Hc.
      destruct (String.eqb_spec c "tas") as [E|_]; [subst c; now apply list_elem_of_In|].
      exfalso. apply negb_true_iff, bool_decide_eq_false in Hne.
      apply Hne. now apply list_elem_of_singleton.
    + split; [|reflexivity]. intros _. right. intros Hin. apply Ht.
      apply list_elem_of_In, in_map_iff. exists "tas"%string. split; [reflexivity|].
      apply filter_In. split; [now apply list_elem_of_In|reflexivity].
  - split; [|reflexivity]. intros _. now left.
Qed.

Lemma lookup_constant_row {A} (v : A) (cols : list string) (c : string) :
  (list_to_map (map (fun c => (c, v)) cols) : gmap string A) !! c
  = if bool_decide (c ∈ cols) then Some v else None.
Proof.
  case_bool_decide as Hc.
  - exact (lookup_row_of_columns (fun _ => v) cols c Hc).
  - apply not_elem_of_list_to_map_1. rewrite <- list_fmap_compose.
    intros Hin. apply Hc. apply list_elem_of_fmap in Hin as (c' & -> & Hc'). exact Hc'.
Qed.

Lemma exported_columns (cols : list string) (c : string) :
  c ∈ map (rename_label [("tas"%string, tas_sensor)])
        (List.filter (fun c => negb (bool_decide (c ∈ [tas_sensor]))) cols)
  <-> (c = tas_sensor /\ "tas"%string ∈ cols)
      \/ (c ∈ cols /\ c <> tas_sensor /\ c <> "tas"%string).
Proof.
  rewrite list_elem_of_In, in_map_iff. split.
  - intros (c0 & <- & Hc0). apply filter_In in Hc0 as [Hin Hne].
    apply list_elem_of_In in Hin. apply negb_true_iff, bool_decide_eq_false in Hne.
    rewrite list_elem_of_singleton in Hne. rewrite rename_tas_label.
    destruct (String.eqb_spec c0 "tas") as [->|Ht]; [left; now split|].
    right. repeat split; assumption.
  - intros [[-> Hin]|(Hin & Hs & Ht)].
    + exists "tas"%string. split; [reflexivity|]. apply filter_In.
      split; [now apply list_elem_of_In|reflexivity].
    + exists c. rewrite rename_tas_label. split.
      * now destruct (String.eqb_spec c "tas").
      * apply filter_In. split; [now apply list_elem_of_In|].
        apply negb_true_iff, bool_decide_eq_false. now rewrite list_elem_of_singleton.
Qed.

(** X15.  The table [transform_df_to_tas] returns has the labels of its
    input, the sensor column in the place of [tas] and the other columns of
    the input, and no missing cell in any column.  Under the sensor's name
    it holds the back-converted [tas] value (Celsius, rounded to two
    decimals, -999.99 for missing); the sensor column of the input is
    discarded; every other cell is the input's cell rounded to two decimals,
    -999.99 where the input has a NaN or no value at all. *)
Theorem transform_df_to_tas_output (df out : DataFrame float) :
  transform_df_to_tas df = Some out ->
  index out = index df /\
  (forall c, c ∈ columns out <->
             c = tas_sensor \/ (c ∈ columns df /\ c <> tas_sensor /\ c <> "tas"%string)) /\
  Forall2 (fun r r' =>
             r'.2 !! tas_sensor = Some (exported_value (cell_at r.2 "tas")) /\
             r'.2 !! "tas"%string = None /\
             (forall c, c ∈ columns df -> c <> tas_sensor -> c <> "tas"%string ->
                r'.2 !! c =
                Some (let y := Float64.round_digits digit_precision (cell_at r.2 c) in
                      if Float64.isnan y then sentinel else y)) /\
             (forall c, c ∈ columns out ->
                exists x, r'.2 !! c = Some x /\ Float64.isnan x = false))
          (rows df) (rows out).
Proof.
  unfold transform_df_to_tas, drop_columns.
  destruct (forallb _ [tas_sensor]); [|discriminate]. cbn [mbind option_bind].
  case_bool_decide as Hsensor; [|discriminate]. intros [= <-].
  cbn [rename columns] in Hsensor.
  unfold fillna, frame_map, set_column, rename, index. cbn [rows columns]. rewrite !map_map.
  cbn [fst snd]. rewrite bool_decide_eq_true_2 by exact Hsensor.
  set (cols := map (rename_label [("tas"%string, tas_sensor)])
                 (List.filter (fun c => negb (bool_decide (c ∈ [tas_sensor]))) (columns df)))
    in *.
  assert (Hcols : forall c, c ∈ cols <->
            c = tas_sensor \/ (c ∈ columns df /\ c <> tas_sensor /\ c <> "tas"%string)).
  { intros c. unfold cols. rewrite exported_columns. split; [tauto|].
    intros [->|H]; [|tauto]. left. split; [reflexivity|].
    apply exported_columns in Hsensor as [[_ H]|(_ & H & _)]; [exact H|congruence]. }
  split; [reflexivity|]. split; [exact Hcols|].
  induction (rows df) as [|r l IH]; cbn [map]; constructor; [|exact IH].
  cbn [fst snd].
  set (renamed := kmap (M2 := gmap string) (rename_label [("tas"%string, tas_sensor)])
                    (filter (fun kv : string * float => kv.1 ∉ [tas_sensor]) r.2)).
  set (fr := fun x : float => let y := Float64.round_digits digit_precision x in
                              if Float64.isnan y then sentinel else y).
  assert (Hm1 : forall c,
    ((fun x => if Float64.isnan x then sentinel else x) <$>
       (Float64.round_digits digit_precision <$>
          <[tas_sensor := K_to_C (cell_at renamed tas_sensor)]> renamed)) !! c
    = if String.eqb c tas_sensor then Some (exported_value (cell_at r.2 "tas"))
      else if String.eqb c "tas" then None
      else fr <$> r.2 !! c).
  { intros c. rewrite !lookup_fmap.
    destruct (String.eqb_spec c tas_sensor) as [->|Hs].
    - rewrite lookup_insert_eq. cbn [fmap option_fmap option_map].
      unfold exported_value, cell_at, renamed. rewrite renamed_lookup. reflexivity.
    - rewrite lookup_insert_ne by congruence. unfold renamed. rewrite renamed_lookup.
      destruct (String.eqb_spec c tas_sensor); [congruence|].
      destruct (String.eqb_spec c "tas"); [reflexivity|].
      now destruct (r.2 !! c). }
  assert (Hfr : forall x, Float64.isnan (fr x) = false).
  { intros x. unfold fr. cbv zeta.
    destruct (Float64.isnan (Float64.round_digits digit_precision x)) eqn:E;
      [reflexivity|exact E]. }
  split; [|split; [|split]].
  - apply lookup_union_Some_l. rewrite Hm1. now rewrite String.eqb_refl.
  - rewrite lookup_union_r; [|now rewrite Hm1].
    rewrite lookup_constant_row, bool_decide_eq_false_2; [reflexivity|].
    intros H. apply Hcols in H as [H|(_ & _ & H)]; [discriminate|congruence].
  - intros c Hin Hs Ht.
    assert (Hc : c ∈ cols) by (apply Hcols; tauto).
    rewrite lookup_union, Hm1, lookup_constant_row, bool_decide_eq_true_2 by exact Hc.
    destruct (String.eqb_spec c tas_sensor); [congruence|].
    destruct (String.eqb_spec c "tas"); [congruence|].
    unfold cell_at. destruct (r.2 !! c) as [x|]; reflexivity.
  - intros c Hc.
    rewrite lookup_union, Hm1, lookup_constant_row, bool_decide_eq_true_2 by exact Hc.
    destruct (String.eqb_spec c tas_sensor).
    + eexists. split; [reflexivity|]. unfold exported_value. apply Hfr.
    + destruct (String.eqb_spec c "tas").
      * eexists. split; [reflexivity|]. reflexivity.
      * destruct (r.2 !! c) as [x|]; cbn; eexists; (split; [reflexivity|]);
          [apply Hfr|reflexivity].
Qed.

(** A processed table with a row that holds no value under [vis_light]. *)
Lemma transform_df_to_tas_output_witness :
  index (default empty_frame (transform_df_to_tas ragged_table)) = index ragged_table /\
  (forall c, c ∈ columns (default empty_frame (transform_df_to_tas ragged_table)) <->
             c = tas_sensor
             \/ (c ∈ columns ragged_table /\ c <> tas_sensor /\ c <> "tas"%string)) /\
  Forall2 (fun r r' =>
             r'.2 !! tas_sensor = Some (exported_value (cell_at r.2 "tas")) /\
             r'.2 !! "tas"%string = None /\
             (forall c, c ∈ columns ragged_table -> c <> tas_sensor -> c <> "tas"%string ->
                r'.2 !! c =
                Some (let y := Float64.round_digits digit_precision (cell_at r.2 c) in
                      if Float64.isnan y then sentinel else y)) /\
             (forall c, c ∈ columns (default empty_frame (transform_df_to_tas ragged_table)) ->
                exists x, r'.2 !! c = Some x /\ Float64.isnan x = false))
          (rows ragged_table) (rows (default empty_frame (transform_df_to_tas ragged_table))).
Proof.
  apply (transform_df_to_tas_output ragged_table). vm_compute. reflexivity.
Defined.

(** On [ragged_table] the second row, which has no [vis_light] value,
    is exported with -999.99 there. *)
Lemma ragged_row_is_filled :
  (fun out => map (fun r => r.2 !! "vis_light"%string) (rows out))
    <$> transform_df_to_tas ragged_table
  = Some [Some 3.14%float; Some sentinel].
Proof. vm_compute. reflexivity. Qed.

(** ** A directory without logs *)

Lemma get_files_none (listing : list (string * RawTable)) :
  Forall (fun f => endswith ".dat" f.1 = false) listing -> get_files listing = [].
Proof.
  intros H. unfold get_files.
  replace (List.filter (fun f => endswith ".dat" f.1) listing) with (@nil (string * RawTable));
    [reflexivity|].
  symmetry. induction H as [|f l Hf _ IH]; [reflexivity|]. cbn [List.filter]. now rewrite Hf.
Qed.

(** X16.  On a directory without any [.dat] file, [extract] leaves the
    empty frame; [execute] then fails in scalar mode ([dropna] finds no
    [tas] column) and returns the empty table in grid mode. *)
Theorem execute_without_logs (rule : Z -> option (Z * Z)) (listing : list (string * RawTable)) :
  Forall (fun f => endswith ".dat" f.1 = false) listing ->
  extract rule true (get_files listing) None = Some empty_frame /\
  execute rule true listing = None /\
  execute rule false listing = Some empty_frame.
Proof.
  intros H. unfold execute. rewrite (get_files_none _ H). repeat split.
Qed.

(** [execute_without_logs] on a directory that holds a description file
    only. *)
Lemma execute_without_logs_witness :
  extract row_major_rule true (get_files [("notes.rtf"%string, mkRawTable [] [])]) None
  = Some empty_frame /\
  execute row_major_rule true [("notes.rtf"%string, mkRawTable [] [])] = None /\
  execute row_major_rule false [("notes.rtf"%string, mkRawTable [] [])] = Some empty_frame.
Proof.
  apply (execute_without_logs row_major_rule [("notes.rtf"%string, mkRawTable [] [])]).
  repeat constructor.
Defined.

(** * Further properties of the loader and of the attention block *)

(** ** The sample loader *)

Lemma h5_get_nonneg {A} (data : list A) (i : Z) :
  0 <= i -> Loader.h5_get data i = data !! Z.to_nat i.
Proof.
  intros Hi. unfold Loader.h5_get, norm_index.
  destruct (Z.ltb_spec i (Z.of_nat (length data))) as [Hlt|Hge].
  - replace (0 <=? i) with true by (symmetry; apply Z.leb_le; lia). reflexivity.
  - replace (0 <=? i) with true by (symmetry; apply Z.leb_le; lia). cbn.
    replace (i <? 0) with false by (symmetry; apply Z.ltb_ge; lia).
    rewrite andb_false_r. cbn. symmetry. apply lookup_ge_None. lia.
Qed.

Lemma h5_get_elem {A} (data : list A) (i : Z) (a : A) :
  Loader.h5_get data i = Some a -> a ∈ data.
Proof.
  unfold Loader.h5_get. intros H.
  destruct (norm_index _ i) as [k|]; [|discriminate]. cbn in H.
  eapply list_elem_of_lookup_2, H.
Qed.

Lemma window_succ {A} (data : list A) (index m : Z) :
  0 <= m ->
  Loader.window data index (m + 1) =
  (data !! Z.to_nat (Loader.clamp (Z.of_nat (length data)) (index - (m + 1))))
    :: Loader.window data index m
    ++ [data !! Z.to_nat (Loader.clamp (Z.of_nat (length data)) (index + (m + 1)))].
Proof.
  intros Hm. unfold Loader.window.
  rewrite seqZ_cons by lia.
  replace (Z.pred (2 * (m + 1) + 1)) with ((2 * m + 1) + 1) by lia.
  rewrite seqZ_app by lia.
  replace (Z.succ (- (m + 1))) with (- m) by lia.
  rewrite fmap_cons, fmap_app. cbn [fmap list_fmap seqZ].
  replace (index + - (m + 1)) with (index - (m + 1)) by lia.
  replace (- m + (2 * m + 1)) with (m + 1) by lia.
  reflexivity.
Qed.

Lemma window_length {A} (data : list A) (index n : Z) :
  length (Loader.window data index n) = Z.to_nat (2 * n + 1).
Proof. unfold Loader.window. now rewrite length_fmap, length_seqZ. Qed.

Section LoaderFacts.
Context {A : Type} (mul : A -> A -> A).
Implicit Types (ld : Loader.NetCDFLoader (A:=A)) (draws : nat -> Z).

Lemma step_Some ld draws index imgs masks k i st' :
  Loader.step ld draws index (imgs, masks, k) i = Some st' ->
  exists ip inx mp k1 mn k2,
    Loader.h5_get (Loader.img_data ld) (if index - i <? 0 then 0 else index - i) = Some ip /\
    Loader.h5_get (Loader.img_data ld)
      (if Loader.img_length ld - 1 <? index + i then Loader.img_length ld - 1 else index + i)
      = Some inx /\
    Loader.pick_mask ld draws k (if index - i <? 0 then 0 else index - i) = Some (mp, k1) /\
    Loader.pick_mask ld draws k1
      (if Loader.mask_length ld - 1 <? index + i then Loader.mask_length ld - 1 else index + i)
      = Some (mn, k2) /\
    st' = ((ip :: imgs) ++ [inx], (mp :: masks) ++ [mn], k2).
Proof.
  unfold Loader.step. intros H.
  destruct (Loader.h5_get _ (if index - i <? 0 then 0 else index - i)) as [ip|] eqn:E1;
    [|discriminate].
  cbn [mbind option_bind] in H.
  destruct (Loader.h5_get (Loader.img_data ld) _) as [inx|] eqn:E2 in H; [|discriminate].
  cbn [mbind option_bind] in H.
  destruct (Loader.pick_mask ld draws k _) as [[mp k1]|] eqn:E3 in H; [|discriminate].
  cbn [mbind option_bind] in H.
  destruct (Loader.pick_mask ld draws k1 _) as [[mn k2]|] eqn:E4 in H; [|discriminate].
  cbn [mbind option_bind] in H. injection H as <-.
  exists ip, inx, mp, k1, mn, k2. auto.
Qed.

Lemma pick_mask_elem ld draws k i a k' :
  Loader.pick_mask ld draws k i = Some (a, k') -> a ∈ Loader.mask_data ld.
Proof.
  unfold Loader.pick_mask. intros H.
  destruct (Loader.split ld).
  1,2,4: destruct (Loader.randint _ _ _) as [r|]; [|discriminate]; cbn in H;
         destruct (Loader.h5_get _ r) as [b|] eqn:E; [|discriminate];
         injection H as <- _; eapply h5_get_elem, E.
  destruct (Loader.h5_get _ i) as [b|] eqn:E; [|discriminate].
  injection H as <- _; eapply h5_get_elem, E.
Qed.

(** What the loop keeps: one mask per image, every frame taken from its
    file. *)
Lemma loop_frames ld draws index range : forall imgs masks k imgs' masks' k',
  Loader.loop ld draws index (imgs, masks, k) range = Some (imgs', masks', k') ->
  length masks = length imgs ->
  Forall (fun a => a ∈ Loader.img_data ld) imgs ->
  Forall (fun a => a ∈ Loader.mask_data ld) masks ->
  length masks' = length imgs' /\
  Forall (fun a => a ∈ Loader.img_data ld) imgs' /\
  Forall (fun a => a ∈ Loader.mask_data ld) masks'.
Proof.
  induction range as [|i range IH]; intros imgs masks k imgs' masks' k' H Hlen Hi Hm.
  - injection H as <- <- <-. auto.
  - cbn [Loader.loop] in H.
    destruct (Loader.step ld draws index (imgs, masks, k) i) as [st|] eqn:Es; [|discriminate].
    cbn [mbind option_bind] in H.
    destruct (step_Some _ _ _ _ _ _ _ _ Es) as (ip & inx & mp & k1 & mn & k2 & E1 & E2 & E3 & E4 & ->).
    eapply IH; [exact H| | |].
    + rewrite !length_app. cbn. lia.
    + apply Forall_app. split; [constructor; [eapply h5_get_elem, E1|exact Hi]|].
      constructor; [eapply h5_get_elem, E2|constructor].
    + apply Forall_app. split; [constructor; [eapply pick_mask_elem, E3|exact Hm]|].
      constructor; [eapply pick_mask_elem, E4|constructor].
Qed.

(** The images after the passes [m + 1 .. m + r] of the loop. *)
Lemma loop_images ld draws index (r : nat) : forall m imgs masks k imgs' masks' k',
  Loader.img_length ld = Z.of_nat (length (Loader.img_data ld)) ->
  0 <= index < Loader.img_length ld -> 0 <= m ->
  Loader.loop ld draws index (imgs, masks, k) (seqZ (m + 1) (Z.of_nat r))
    = Some (imgs', masks', k') ->
  Some <$> imgs = Loader.window (Loader.img_data ld) index m ->
  Some <$> imgs' = Loader.window (Loader.img_data ld) index (m + Z.of_nat r).
Proof.
  induction r as [|r IH]; intros m imgs masks k imgs' masks' k' Hl Hidx Hm H Hw.
  - cbn in H. injection H as <- <- <-. now rewrite Z.add_0_r.
  - rewrite seqZ_cons in H by lia. cbn [Loader.loop] in H.
    destruct (Loader.step ld draws index (imgs, masks, k) (m + 1)) as [st|] eqn:Es;
      [|discriminate].
    cbn [mbind option_bind] in H.
    destruct (step_Some _ _ _ _ _ _ _ _ Es)
      as (ip & inx & mp & k1 & mn & k2 & E1 & E2 & E3 & E4 & ->).
    replace (Z.succ (m + 1)) with ((m + 1) + 1) in H by lia.
    replace (Z.pred (Z.of_nat (S r))) with (Z.of_nat r) in H by lia.
    replace (m + Z.of_nat (S r)) with ((m + 1) + Z.of_nat r) by lia.
    eapply IH; [exact Hl|exact Hidx|lia|exact H|].
    rewrite window_succ by lia. rewrite fmap_app, fmap_cons, Hw. cbn [fmap list_fmap].
    rewrite h5_get_nonneg in E1 by (destruct (Z.ltb_spec (index - (m + 1)) 0); lia).
    rewrite h5_get_nonneg in E2
      by (destruct (Z.ltb_spec (Loader.img_length ld - 1) (index + (m + 1))); lia).
    rewrite <- Hl.
    replace (Loader.clamp (Loader.img_length ld) (index - (m + 1)))
      with (if index - (m + 1) <? 0 then 0 else index - (m + 1))
      by (unfold Loader.clamp; destruct (Z.ltb_spec (index - (m + 1)) 0); lia).
    replace (Loader.clamp (Loader.img_length ld) (index + (m + 1)))
      with (if Loader.img_length ld - 1 <? index + (m + 1)
            then Loader.img_length ld - 1 else index + (m + 1))
      by (unfold Loader.clamp;
          destruct (Z.ltb_spec (Loader.img_length ld - 1) (index + (m + 1))); lia).
    rewrite E1, E2. reflexivity.
Qed.

Lemma window_zero (data : list A) (index : Z) (a : A) :
  0 <= index -> Loader.h5_get data index = Some a ->
  Some <$> [a] = Loader.window data index 0.
Proof.
  intros Hi H. rewrite h5_get_nonneg in H by lia.
  pose proof (lookup_lt_Some _ _ _ H) as Hlt.
  unfold Loader.window. change (seqZ (- 0) (2 * 0 + 1)) with [0]. cbn [fmap list_fmap].
  replace (Loader.clamp (Z.of_nat (length data)) (index + 0)) with index
    by (unfold Loader.clamp; lia).
  now rewrite H.
Qed.

Lemma getitem_Some ld draws index out :
  Loader.getitem mul ld draws index = Some out ->
  exists ic mc k imgs masks k',
    Loader.h5_get (Loader.img_data ld) index = Some ic /\
    Loader.pick_mask ld draws 0 index = Some (mc, k) /\
    Loader.loop ld draws index ([ic], [mc], k) (seqZ 1 (Loader.prev_next ld))
      = Some (imgs, masks, k') /\
    out = (zip_with mul imgs masks, masks, imgs).
Proof.
  unfold Loader.getitem. intros H.
  destruct (Loader.h5_get _ index) as [ic|] eqn:E1; [|discriminate].
  cbn [mbind option_bind] in H.
  destruct (Loader.pick_mask ld draws 0 index) as [[mc k]|] eqn:E2; [|discriminate].
  cbn [mbind option_bind] in H.
  destruct (Loader.loop _ _ _ _ _) as [[[imgs masks] k']|] eqn:E3; [|discriminate].
  cbn [mbind option_bind] in H. injection H as <-.
  exists ic, mc, k, imgs, masks, k'. auto.
Qed.


Lemma pick_mask_infill ld draws k i a k' :
  Loader.split ld = Loader.infill ->
  Loader.pick_mask ld draws k i = Some (a, k') ->
  Loader.h5_get (Loader.mask_data ld) i = Some a.
Proof.
  unfold Loader.pick_mask. intros -> H.
  destruct (Loader.h5_get _ i) as [b|]; [|discriminate]. now injection H as <- _.
Qed.

(** The masks after the passes [m + 1 .. m + r] of the loop, in the
    [infill] split. *)
Lemma loop_masks_infill ld draws index (r : nat) : forall m imgs masks k imgs' masks' k',
  Loader.split ld = Loader.infill ->
  Loader.mask_length ld = Z.of_nat (length (Loader.mask_data ld)) ->
  0 <= index < Loader.mask_length ld -> 0 <= m ->
  Loader.loop ld draws index (imgs, masks, k) (seqZ (m + 1) (Z.of_nat r))
    = Some (imgs', masks', k') ->
  Some <$> masks = Loader.window (Loader.mask_data ld) index m ->
  Some <$> masks' = Loader.window (Loader.mask_data ld) index (m + Z.of_nat r).
Proof.
  induction r as [|r IH]; intros m imgs masks k imgs' masks' k' Hs Hl Hidx Hm H Hw.
  - cbn in H. injection H as <- <- <-. now rewrite Z.add_0_r.
  - rewrite seqZ_cons in H by lia. cbn [Loader.loop] in H.
    destruct (Loader.step ld draws index (imgs, masks, k) (m + 1)) as [st|] eqn:Es;
      [|discriminate].
    cbn [mbind option_bind] in H.
    destruct (step_Some _ _ _ _ _ _ _ _ Es)
      as (ip & inx & mp & k1 & mn & k2 & E1 & E2 & E3 & E4 & ->).
    replace (Z.succ (m + 1)) with ((m + 1) + 1) in H by lia.
    replace (Z.pred (Z.of_nat (S r))) with (Z.of_nat r) in H by lia.
    replace (m + Z.of_nat (S r)) with ((m + 1) + Z.of_nat r) by lia.
    eapply IH; [exact Hs|exact Hl|exact Hidx|lia|exact H|].
    rewrite window_succ by lia. rewrite fmap_app, fmap_cons, Hw. cbn [fmap list_fmap].
    apply (pick_mask_infill _ _ _ _ _ _ Hs) in E3, E4.
    rewrite h5_get_nonneg in E3 by (destruct (Z.ltb_spec (index - (m + 1)) 0); lia).
    rewrite h5_get_nonneg in E4
      by (destruct (Z.ltb_spec (Loader.mask_length ld - 1) (index + (m + 1))); lia).
    rewrite <- Hl.
    replace (Loader.clamp (Loader.mask_length ld) (index - (m + 1)))
      with (if index - (m + 1) <? 0 then 0 else index - (m + 1))
      by (unfold Loader.clamp; destruct (Z.ltb_spec (index - (m + 1)) 0); lia).
    replace (Loader.clamp (Loader.mask_length ld) (index + (m + 1)))
      with (if Loader.mask_length ld - 1 <? index + (m + 1)
            then Loader.mask_length ld - 1 else index + (m + 1))
      by (unfold Loader.clamp;
          destruct (Z.ltb_spec (Loader.mask_length ld - 1) (index + (m + 1))); lia).
    rewrite E3, E4. reflexivity.
Qed.

Lemma h5_get_is_Some (data : list A) (i : Z) :
  0 <= i < Z.of_nat (length data) -> is_Some (Loader.h5_get data i).
Proof.
  intros Hi. rewrite h5_get_nonneg by lia. apply lookup_lt_is_Some. lia.
Qed.

Lemma loop_is_Some ld draws index range : forall st,
  (forall st i, i ∈ range -> is_Some (Loader.step ld draws index st i)) ->
  is_Some (Loader.loop ld draws index st range).
Proof.
  induction range as [|i range IH]; intros st Hstep; [cbn; eauto|].
  cbn [Loader.loop].
  destruct (Hstep st i) as [st' ->]; [left|]. cbn [mbind option_bind].
  apply IH. intros st0 j Hj. apply Hstep. now right.
Qed.

Lemma step_is_Some ld draws index st i :
  Loader.img_length ld = Z.of_nat (length (Loader.img_data ld)) ->
  0 <= index < Loader.img_length ld -> 1 <= i ->
  (forall k, is_Some (Loader.pick_mask ld draws k (if index - i <? 0 then 0 else index - i))) ->
  (forall k, is_Some (Loader.pick_mask ld draws k
     (if Loader.mask_length ld - 1 <? index + i then Loader.mask_length ld - 1
      else index + i))) ->
  is_Some (Loader.step ld draws index st i).
Proof.
  intros Hl Hidx Hi Hprev Hnext. destruct st as [[imgs masks] k]. unfold Loader.step.
  destruct (h5_get_is_Some (Loader.img_data ld) (if index - i <? 0 then 0 else index - i))
    as [ip ->]; [destruct (Z.ltb_spec (index - i) 0); lia|].
  cbn [mbind option_bind].
  destruct (h5_get_is_Some (Loader.img_data ld)
              (if Loader.img_length ld - 1 <? index + i then Loader.img_length ld - 1
               else index + i)) as [inx ->];
    [destruct (Z.ltb_spec (Loader.img_length ld - 1) (index + i)); lia|].
  cbn [mbind option_bind].
  destruct (Hprev k) as [[mp k1] ->]. cbn [mbind option_bind].
  destruct (Hnext k1) as [[mn k2] ->]. cbn [mbind option_bind]. eauto.
Qed.

Lemma randint_range raw n :
  0 < n -> exists r, Loader.randint raw 0 (n - 1) = Some r /\ 0 <= r < n.
Proof.
  intros Hn. unfold Loader.randint.
  replace (n - 1 <? 0) with false by (symmetry; apply Z.ltb_ge; lia).
  eexists. split; [reflexivity|].
  replace (n - 1 - 0 + 1) with n by lia.
  pose proof (Z.mod_pos_bound raw n Hn). lia.
Qed.

Lemma pick_mask_random ld draws k i :
  Loader.split ld <> Loader.infill ->
  Loader.mask_length ld = Z.of_nat (length (Loader.mask_data ld)) ->
  is_Some (Loader.pick_mask ld draws k i) <-> 0 < Loader.mask_length ld.
Proof.
  intros Hs Hl. unfold Loader.pick_mask.
  assert (is_Some (r ← Loader.randint (draws k) 0 (Loader.mask_length ld - 1);
                   a ← Loader.h5_get (Loader.mask_data ld) r; Some (a, S k))
          <-> 0 < Loader.mask_length ld) as Hrand.
  { split.
    - intros [x Hx]. unfold Loader.randint in Hx.
      destruct (Z.ltb_spec (Loader.mask_length ld - 1) 0); [discriminate|lia].
    - intros Hpos. destruct (randint_range (draws k) _ Hpos) as (r & -> & Hr).
      cbn [mbind option_bind].
      destruct (h5_get_is_Some (Loader.mask_data ld) r) as [a ->]; [lia|].
      cbn. eauto. }
  destruct (Loader.split ld); try exact Hrand. congruence.
Qed.

Lemma getitem_is_Some ld draws index :
  Loader.img_length ld = Z.of_nat (length (Loader.img_data ld)) ->
  0 <= index < Loader.img_length ld ->
  (forall k, is_Some (Loader.pick_mask ld draws k index)) ->
  (forall k i, 1 <= i ->
     is_Some (Loader.pick_mask ld draws k (if index - i <? 0 then 0 else index - i))) ->
  (forall k i, 1 <= i ->
     is_Some (Loader.pick_mask ld draws k
       (if Loader.mask_length ld - 1 <? index + i then Loader.mask_length ld - 1
        else index + i))) ->
  is_Some (Loader.getitem mul ld draws index).
Proof.
  intros Hl Hidx Hcur Hprev Hnext. unfold Loader.getitem.
  destruct (h5_get_is_Some (Loader.img_data ld) index) as [ic ->]; [lia|].
  cbn [mbind option_bind].
  destruct (Hcur 0%nat) as [[mc k] ->]. cbn [mbind option_bind].
  destruct (loop_is_Some ld draws index (seqZ 1 (Loader.prev_next ld)) ([ic], [mc], k))
    as [[[imgs masks] k'] ->].
  - intros st i Hi. apply elem_of_seqZ in Hi.
    apply step_is_Some; [exact Hl|exact Hidx|lia| |]; intros k0; [apply Hprev|apply Hnext]; lia.
  - cbn. eauto.
Qed.

Lemma image_stack_window (sp : Loader.Split) (n : Z) (img mask : list A)
    (draws : nat -> Z) (index : Z) (masked masks imgs : list A) :
  0 <= n -> 0 <= index < Z.of_nat (length img) ->
  Loader.getitem mul (Loader.NetCDFLoader_init sp n img mask) draws index
    = Some (masked, masks, imgs) ->
  Some <$> imgs = Loader.window img index n.
Proof.
  intros Hn Hidx H.
  destruct (getitem_Some _ _ _ _ H) as (ic & mc & k & imgs0 & masks0 & k' & E1 & E2 & E3 & E).
  injection E as -> -> ->.
  cbn [Loader.prev_next Loader.NetCDFLoader_init] in E3.
  replace (seqZ 1 n) with (seqZ (0 + 1) (Z.of_nat (Z.to_nat n))) in E3 by (f_equal; lia).
  pose proof (loop_images (Loader.NetCDFLoader_init sp n img mask) draws index (Z.to_nat n) 0
                [ic] [mc] k imgs0 masks0 k' eq_refl Hidx (Z.le_refl 0) E3
                (window_zero _ _ _ (proj1 Hidx) E1)) as Hw.
  cbn [Loader.img_data Loader.NetCDFLoader_init] in Hw.
  now replace (0 + Z.of_nat (Z.to_nat n)) with n in Hw by lia.
Qed.

(** X17.  For an index of the data set, the image stack [__getitem__]
    returns holds the [2 * prev_next + 1] frames of the time steps
    [index - prev_next .. index + prev_next], in this order, a step before
    the first or after the last frame being replaced by that frame. *)
Theorem getitem_image_window (sp : Loader.Split) (n : Z) (img mask : list A)
    (draws : nat -> Z) (index : Z) (masked masks imgs : list A) :
  0 <= n -> 0 <= index < Z.of_nat (length img) ->
  Loader.getitem mul (Loader.NetCDFLoader_init sp n img mask) draws index
    = Some (masked, masks, imgs) ->
  Some <$> imgs = Loader.window img index n /\ length imgs = Z.to_nat (2 * n + 1).
Proof.
  intros Hn Hidx H.
  pose proof (image_stack_window _ _ _ _ _ _ _ _ _ Hn Hidx H) as Hw.
  split; [exact Hw|].
  rewrite <- (window_length img index n), <- Hw. now rewrite length_fmap.
Qed.

(** X18.  In the [infill] split, [__getitem__] at an index of the data set
    returns a sample exactly when the mask file has a frame at that index:
    a mask file shorter than the data makes the later indices fail. *)
Theorem infill_getitem_defined_iff (n : Z) (img mask : list A) (draws : nat -> Z)
    (index : Z) :
  0 <= index < Z.of_nat (length img) ->
  is_Some (Loader.getitem mul (Loader.NetCDFLoader_init Loader.infill n img mask) draws index)
  <-> index < Z.of_nat (length mask).
Proof.
  intros Hidx. split.
  - intros [out H].
    destruct (getitem_Some _ _ _ _ H) as (ic & mc & k & imgs0 & masks0 & k' & _ & E2 & _).
    apply (pick_mask_infill (Loader.NetCDFLoader_init Loader.infill n img mask) _ _ _ _ _
             eq_refl) in E2.
    rewrite h5_get_nonneg in E2 by lia. apply lookup_lt_Some in E2.
    cbn [Loader.mask_data Loader.NetCDFLoader_init] in E2. lia.
  - intros Hlt.
    assert (forall k j, 0 <= j < Z.of_nat (length mask) ->
              is_Some (Loader.pick_mask (Loader.NetCDFLoader_init Loader.infill n img mask)
                         draws k j)) as Hpick.
    { intros k j Hj. unfold Loader.pick_mask. cbn [Loader.split Loader.NetCDFLoader_init
        Loader.mask_data].
      destruct (h5_get_is_Some mask j Hj) as [a ->]. cbn. eauto. }
    apply getitem_is_Some; [reflexivity|exact Hidx| | |];
      cbn [Loader.mask_length Loader.NetCDFLoader_init].
    + intros k. apply Hpick. lia.
    + intros k i Hi. apply Hpick. destruct (Z.ltb_spec (index - i) 0); lia.
    + intros k i Hi. apply Hpick.
      destruct (Z.ltb_spec (Z.of_nat (length mask) - 1) (index + i)); lia.
Qed.

Lemma same_steps (img mask : list A) (pos : Z -> nat) (ks : list Z) :
  forall imgs masks,
  Some <$> imgs = (fun k => img !! pos k) <$> ks ->
  Some <$> masks = (fun k => mask !! pos k) <$> ks ->
  Forall2 (fun a b => exists t, img !! t = Some a /\ mask !! t = Some b) imgs masks.
Proof.
  induction ks as [|z ks IH]; intros imgs masks Hi Hw.
  - destruct imgs; [|discriminate]. destruct masks; [constructor|discriminate].
  - destruct imgs as [|a imgs]; [discriminate|]. destruct masks as [|b masks]; [discriminate|].
    cbn in Hi, Hw. injection Hi as Ha Hi. injection Hw as Hb Hw.
    constructor; [eauto|]. now apply IH.
Qed.

(** X19.  In the [infill] split the mask stack is the window of the mask
    file around the same index: with a mask file as long as the data, every
    image is paired with the mask of its own time step. *)
Theorem infill_masks_follow_images (n : Z) (img mask : list A) (draws : nat -> Z)
    (index : Z) (masked masks imgs : list A) :
  0 <= n -> 0 <= index < Z.of_nat (length img) ->
  Loader.getitem mul (Loader.NetCDFLoader_init Loader.infill n img mask) draws index
    = Some (masked, masks, imgs) ->
  Some <$> masks = Loader.window mask index n /\
  masked = zip_with mul imgs masks /\
  (length mask = length img ->
   Forall2 (fun a b => exists t, img !! t = Some a /\ mask !! t = Some b) imgs masks).
Proof.
  intros Hn Hidx H.
  pose proof (image_stack_window _ _ _ _ _ _ _ _ _ Hn Hidx H) as Hi.
  destruct (getitem_Some _ _ _ _ H) as (ic & mc & k & imgs0 & masks0 & k' & E1 & E2 & E3 & E).
  injection E as -> -> ->.
  apply (pick_mask_infill (Loader.NetCDFLoader_init Loader.infill n img mask) _ _ _ _ _
           eq_refl) in E2.
  cbn [Loader.mask_data Loader.NetCDFLoader_init] in E2.
  assert (index < Z.of_nat (length mask)) as Hlt.
  { rewrite h5_get_nonneg in E2 by lia. apply lookup_lt_Some in E2. lia. }
  assert (Some <$> masks0 = Loader.window mask index n) as Hw.
  { cbn [Loader.prev_next Loader.NetCDFLoader_init] in E3.
    replace (seqZ 1 n) with (seqZ (0 + 1) (Z.of_nat (Z.to_nat n))) in E3 by (f_equal; lia).
    pose proof (loop_masks_infill (Loader.NetCDFLoader_init Loader.infill n img mask) draws
                  index (Z.to_nat n) 0 [ic] [mc] k imgs0 masks0 k' eq_refl eq_refl
                  (conj (proj1 Hidx) Hlt) (Z.le_refl 0) E3
                  (window_zero _ _ _ (proj1 Hidx) E2)) as Hw.
    cbn [Loader.mask_data Loader.NetCDFLoader_init] in Hw.
    now replace (0 + Z.of_nat (Z.to_nat n)) with n in Hw by lia. }
  split; [exact Hw|]. split; [reflexivity|].
  intros Hlen. unfold Loader.window in Hi, Hw. rewrite Hlen in Hw.
  exact (same_steps img mask
           (fun k => Z.to_nat (Loader.clamp (Z.of_nat (length img)) (index + k))) _ _ _ Hi Hw).
Qed.

(** X20.  Outside the [infill] split the masks are drawn at random, and
    [__getitem__] at an index of the data set returns a sample exactly when
    the mask file is not empty, whatever the generator delivers. *)
Theorem random_mask_getitem_defined_iff (sp : Loader.Split) (n : Z) (img mask : list A)
    (draws : nat -> Z) (index : Z) :
  sp <> Loader.infill -> 0 <= index < Z.of_nat (length img) ->
  is_Some (Loader.getitem mul (Loader.NetCDFLoader_init sp n img mask) draws index)
  <-> 0 < Z.of_nat (length mask).
Proof.
  intros Hs Hidx.
  assert (forall k j, is_Some (Loader.pick_mask (Loader.NetCDFLoader_init sp n img mask)
                                 draws k j) <-> 0 < Z.of_nat (length mask)) as Hpick.
  { intros k j. now apply pick_mask_random. }
  split.
  - intros [out H].
    destruct (getitem_Some _ _ _ _ H) as (ic & mc & k & imgs0 & masks0 & k' & _ & E2 & _).
    apply (Hpick 0%nat index). eauto.
  - intros Hpos. apply getitem_is_Some; [reflexivity|exact Hidx| | |]; intros; now apply Hpick.
Qed.

(** X21.  Whatever the split and the index, a returned sample holds one
    mask per image, every image is a frame of the data file, every mask a
    frame of the mask file, and the first component is their frame-wise
    product. *)
Theorem getitem_frames (ld : Loader.NetCDFLoader (A:=A)) (draws : nat -> Z) (index : Z)
    (masked masks imgs : list A) :
  Loader.getitem mul ld draws index = Some (masked, masks, imgs) ->
  length masks = length imgs /\ length masked = length imgs /\
  Forall (fun a => a ∈ Loader.img_data ld) imgs /\
  Forall (fun a => a ∈ Loader.mask_data ld) masks /\
  (forall t a b, imgs !! t = Some a -> masks !! t = Some b -> masked !! t = Some (mul a b)).
Proof.
  intros H.
  destruct (getitem_Some _ _ _ _ H) as (ic & mc & k & imgs0 & masks0 & k' & E1 & E2 & E3 & E).
  injection E as -> -> ->.
  destruct (loop_frames _ _ _ _ _ _ _ _ _ _ E3) as (Hlen & Hi & Hm).
  - reflexivity.
  - constructor; [eapply h5_get_elem, E1|constructor].
  - constructor; [eapply pick_mask_elem, E2|constructor].
  - repeat split; try assumption.
    + rewrite length_zip_with. lia.
    + intros t a b Ha Hb. rewrite lookup_zip_with, Ha. cbn. now rewrite Hb.
Qed.

End LoaderFacts.

(** [getitem_image_window] at the last of four time steps with two
    neighbours on each side. *)
Lemma getitem_image_window_witness :
  Some <$> [11; 12; 13; 13; 13] = Loader.window four_steps 3 2 /\
  length [11; 12; 13; 13; 13] = Z.to_nat (2 * 2 + 1).
Proof.
  apply (getitem_image_window Z.mul Loader.train 2 four_steps four_masks counting 3
           [11; 0; 13; 13; 13] [1; 0; 1; 1; 1] [11; 12; 13; 13; 13]).
  - lia.
  - vm_compute. split; [discriminate|reflexivity].
  - vm_compute. reflexivity.
Defined.

(** [infill_getitem_defined_iff] with a mask file of two frames under four
    images. *)
Lemma infill_getitem_defined_iff_witness :
  is_Some (Loader.getitem Z.mul (Loader.NetCDFLoader_init Loader.infill 1 four_steps [1; 0])
             counting 2)
  <-> 2 < Z.of_nat (length [1; 0]).
Proof.
  apply (infill_getitem_defined_iff Z.mul 1 four_steps [1; 0] counting 2).
  vm_compute. split; [discriminate|reflexivity].
Defined.

(** [infill_masks_follow_images] at the first of four time steps. *)
Lemma infill_masks_follow_images_witness :
  Some <$> [1; 1; 0] = Loader.window four_masks 0 1 /\
  [10; 10; 0] = zip_with Z.mul [10; 10; 11] [1; 1; 0] /\
  (length four_masks = length four_steps ->
   Forall2 (fun a b => exists t, four_steps !! t = Some a /\ four_masks !! t = Some b)
           [10; 10; 11] [1; 1; 0]).
Proof.
  apply (infill_masks_follow_images Z.mul 1 four_steps four_masks counting 0
           [10; 10; 0] [1; 1; 0] [10; 10; 11]).
  - lia.
  - vm_compute. split; [discriminate|reflexivity].
  - vm_compute. reflexivity.
Defined.

(** [random_mask_getitem_defined_iff] in the [train] split. *)
Lemma random_mask_getitem_defined_iff_witness :
  is_Some (Loader.getitem Z.mul (Loader.NetCDFLoader_init Loader.train 2 four_steps four_masks)
             counting 3)
  <-> 0 < Z.of_nat (length four_masks).
Proof.
  apply (random_mask_getitem_defined_iff Z.mul Loader.train 2 four_steps four_masks counting 3).
  - discriminate.
  - vm_compute. split; [discriminate|reflexivity].
Defined.

(** [getitem_frames] in the [train] split. *)
Lemma getitem_frames_witness :
  length [1; 0; 1; 1; 1] = length [11; 12; 13; 13; 13] /\
  length [11; 0; 13; 13; 13] = length [11; 12; 13; 13; 13] /\
  Forall (fun a => a ∈ four_steps) [11; 12; 13; 13; 13] /\
  Forall (fun a => a ∈ four_masks) [1; 0; 1; 1; 1] /\
  (forall t a b, [11; 12; 13; 13; 13] !! t = Some a -> [1; 0; 1; 1; 1] !! t = Some b ->
     [11; 0; 13; 13; 13] !! t = Some (a * b)).
Proof.
  apply (getitem_frames Z.mul (Loader.NetCDFLoader_init Loader.train 2 four_steps four_masks)
           counting 3 [11; 0; 13; 13; 13] [1; 0; 1; 1; 1] [11; 12; 13; 13; 13]).
  vm_compute. reflexivity.
Defined.

(** ** The attention block *)

Lemma init_block (img_sizes enc_layers pool_layers channels : list Z) (with_lstm : bool)
    (blocks : list (list Attention.EncoderBlock)) (i : nat)
    (layers : list Attention.EncoderBlock) :
  Attention.init img_sizes enc_layers pool_layers channels with_lstm = Some blocks ->
  blocks !! i = Some layers ->
  exists s e p c,
    img_sizes !! i = Some s /\ enc_layers !! i = Some e /\
    pool_layers !! i = Some p /\ channels !! i = Some c /\
    Attention.encoding_layers with_lstm i s e p c = Some layers.
Proof.
  unfold Attention.init. intros H Hi. case_bool_decide; [|discriminate].
  apply mapM_Some in H.
  destruct (Forall2_lookup_r _ _ _ _ _ H Hi) as (j & Hj & Hb).
  apply lookup_seq in Hj as [-> _]. cbn [Nat.add] in Hb.
  destruct (img_sizes !! i) as [s|]; [|discriminate].
  destruct (enc_layers !! i) as [e|]; [|discriminate].
  destruct (pool_layers !! i) as [p|]; [|discriminate].
  destruct (channels !! i) as [c|]; [|discriminate].
  cbn in Hb. exists s, e, p, c. auto.
Qed.

(** The layer at position [k] of a block. *)
Lemma encoding_layers_lookup (with_lstm : bool) (i : nat) (s e p c : Z)
    (layers : list Attention.EncoderBlock) (k : nat) (a : Attention.EncoderBlock) :
  Attention.encoding_layers with_lstm i s e p c = Some layers ->
  layers !! k = Some a ->
  1 <= e /\
  ((k = 0%nat /\
    a = Attention.mkEncoderBlock c (s / 2 ^ (e - 1)) s (7, 7) (2, 2) with_lstm) \/
   (1 <= Z.of_nat k < e /\
    a = Attention.mkEncoderBlock (s / 2 ^ (e - Z.of_nat k)) (s / 2 ^ (e - Z.of_nat k - 1))
          (s / 2 ^ Z.of_nat k) (if Z.of_nat i =? e - 1 then (3, 3) else (5, 5)) (2, 2)
          with_lstm) \/
   (e <= Z.of_nat k < e + p /\
    a = Attention.mkEncoderBlock s s (s / 2 ^ Z.of_nat k) (3, 3) (2, 2) with_lstm)).
Proof.
  unfold Attention.encoding_layers. intros H Hk.
  destruct (Z.ltb_spec e 1) as [|He]; [discriminate|]. injection H as <-.
  split; [exact He|].
  destruct k as [|k]; [left; cbn in Hk; injection Hk as <-; auto|right].
  cbn [app lookup list_lookup] in Hk. change (list_lookup k) with (lookup (M:=list _) k) in Hk.
  apply lookup_app_Some in Hk as [Hk|[Hlen Hk]].
  - left. apply list_lookup_fmap_Some in Hk as (j & -> & Hj).
    apply lookup_seqZ in Hj as [-> Hj].
    replace (1 + Z.of_nat k) with (Z.of_nat (S k)) by lia.
    split; [lia|]. destruct (Z.of_nat i =? e - 1); reflexivity.
  - right. rewrite length_fmap, length_seqZ in Hlen, Hk.
    apply list_lookup_fmap_Some in Hk as (j & -> & Hj).
    apply lookup_seqZ in Hj as [-> Hj].
    split; [lia|]. do 3 f_equal. lia.
Qed.

Lemma encoding_layers_length (with_lstm : bool) (i : nat) (s e p c : Z)
    (layers : list Attention.EncoderBlock) :
  Attention.encoding_layers with_lstm i s e p c = Some layers ->
  Z.of_nat (length layers) = e + Z.max 0 p.
Proof.
  unfold Attention.encoding_layers. intros H.
  destruct (Z.ltb_spec e 1) as [|He]; [discriminate|]. injection H as <-.
  cbn [length]. rewrite length_app, !length_fmap, !length_seqZ. lia.
Qed.

Lemma block_layers (img_sizes enc_layers pool_layers channels : list Z) (with_lstm : bool)
    (blocks : list (list Attention.EncoderBlock)) (i : nat)
    (layers : list Attention.EncoderBlock) (s e p c : Z) :
  Attention.init img_sizes enc_layers pool_layers channels with_lstm = Some blocks ->
  blocks !! i = Some layers ->
  img_sizes !! i = Some s -> enc_layers !! i = Some e ->
  pool_layers !! i = Some p -> channels !! i = Some c ->
  Attention.encoding_layers with_lstm i s e p c = Some layers.
Proof.
  intros Hinit Hblock Hs He Hp Hc.
  destruct (init_block _ _ _ _ _ _ _ _ Hinit Hblock) as (s' & e' & p' & c' & E1 & E2 & E3 & E4 & E).
  congruence.
Qed.

(** X22.  Block [i] of the attention module has [enc_layers[i]] encoding
    layers followed by [pool_layers[i]] pooling layers, and the layer at
    position [k] is built for the image size [img_sizes[i] // 2 ** k]: the
    declared size halves from one layer to the next. *)
Theorem attention_image_size_halves
    (img_sizes enc_layers pool_layers channels : list Z) (with_lstm : bool)
    (blocks : list (list Attention.EncoderBlock)) (i : nat)
    (layers : list Attention.EncoderBlock) (s e p c : Z) :
  Attention.init img_sizes enc_layers pool_layers channels with_lstm = Some blocks ->
  blocks !! i = Some layers ->
  img_sizes !! i = Some s -> enc_layers !! i = Some e ->
  pool_layers !! i = Some p -> channels !! i = Some c ->
  Z.of_nat (length layers) = e + Z.max 0 p /\
  forall (k : nat) a, layers !! k = Some a ->
    Attention.image_size a = s / 2 ^ Z.of_nat k /\ Attention.stride a = (2, 2).
Proof.
  intros Hinit Hblock Hs He Hp Hc.
  pose proof (block_layers _ _ _ _ _ _ _ _ _ _ _ _ Hinit Hblock Hs He Hp Hc) as HL.
  split; [exact (encoding_layers_length _ _ _ _ _ _ _ HL)|].
  intros k a Hk.
  destruct (encoding_layers_lookup _ _ _ _ _ _ _ _ _ HL Hk)
    as (_ & [[-> ->]|[[_ ->]|[_ ->]]]); cbn; auto.
  split; [|reflexivity]. now rewrite Z.div_1_r.
Qed.

(** X23.  The layers of a block fit together: the first layer takes the
    block's input channels, every layer takes as many channels as the layer
    before it delivers, and the last layer delivers [img_sizes[i]]
    channels. *)
Theorem attention_channels_chain
    (img_sizes enc_layers pool_layers channels : list Z) (with_lstm : bool)
    (blocks : list (list Attention.EncoderBlock)) (i : nat)
    (layers : list Attention.EncoderBlock) (s e p c : Z) :
  Attention.init img_sizes enc_layers pool_layers channels with_lstm = Some blocks ->
  blocks !! i = Some layers ->
  img_sizes !! i = Some s -> enc_layers !! i = Some e ->
  pool_layers !! i = Some p -> channels !! i = Some c ->
  (forall a, layers !! 0%nat = Some a -> Attention.in_channels a = c) /\
  (forall (k : nat) a b, layers !! k = Some a -> layers !! S k = Some b ->
     Attention.out_channels a = Attention.in_channels b) /\
  (forall z, last layers = Some z -> Attention.out_channels z = s).
Proof.
  intros Hinit Hblock Hs He Hp Hc.
  pose proof (block_layers _ _ _ _ _ _ _ _ _ _ _ _ Hinit Hblock Hs He Hp Hc) as HL.
  pose proof (encoding_layers_length _ _ _ _ _ _ _ HL) as Hlen.
  split; [|split].
  - intros a Ha.
    destruct (encoding_layers_lookup _ _ _ _ _ _ _ _ _ HL Ha)
      as (He1 & [[_ ->]|[[? _]|[? _]]]); [reflexivity|lia|lia].
  - intros k a b Ha Hb.
    destruct (encoding_layers_lookup _ _ _ _ _ _ _ _ _ HL Ha)
      as (He1 & [[-> ->]|[[Hk ->]|[Hk ->]]]);
    destruct (encoding_layers_lookup _ _ _ _ _ _ _ _ _ HL Hb)
      as (_ & [[? _]|[[Hk' ->]|[Hk' ->]]]); try lia; cbn.
    + do 2 f_equal; lia.
    + replace e with 1 by lia. cbn. now rewrite Z.div_1_r.
    + do 2 f_equal; lia.
    + replace (e - Z.of_nat k - 1) with 0 by lia. cbn. now rewrite Z.div_1_r.
    + reflexivity.
  - intros z Hz. rewrite last_lookup in Hz.
    destruct (encoding_layers_lookup _ _ _ _ _ _ _ _ _ HL Hz)
      as (He1 & [[Hk ->]|[[Hk ->]|[Hk ->]]]); cbn.
    + replace e with 1 by lia. cbn. now rewrite Z.div_1_r.
    + replace (e - Z.of_nat (Nat.pred (length layers)) - 1) with 0 by lia.
      cbn. now rewrite Z.div_1_r.
    + reflexivity.
Qed.

(** X24.  Inside one block the encoding layers after the first share one
    kernel: the test [i == enc_layers[i] - 1] compares the block number,
    not the layer number.  It is 3x3 only in the block whose number is
    [enc_layers[i] - 1], and never in block 0. *)
Theorem attention_encoder_kernel
    (img_sizes enc_layers pool_layers channels : list Z) (with_lstm : bool)
    (blocks : list (list Attention.EncoderBlock)) (i : nat)
    (layers : list Attention.EncoderBlock) (s e p c : Z) :
  Attention.init img_sizes enc_layers pool_layers channels with_lstm = Some blocks ->
  blocks !! i = Some layers ->
  img_sizes !! i = Some s -> enc_layers !! i = Some e ->
  pool_layers !! i = Some p -> channels !! i = Some c ->
  forall (k : nat) a, layers !! k = Some a -> 1 <= Z.of_nat k < e ->
    (Attention.kernel a = (3, 3) /\ e = Z.of_nat i + 1 \/
     Attention.kernel a = (5, 5) /\ e <> Z.of_nat i + 1) /\
    (i = 0%nat -> Attention.kernel a = (5, 5)).
Proof.
  intros Hinit Hblock Hs He Hp Hc k a Hk Hrange.
  pose proof (block_layers _ _ _ _ _ _ _ _ _ _ _ _ Hinit Hblock Hs He Hp Hc) as HL.
  destruct (encoding_layers_lookup _ _ _ _ _ _ _ _ _ HL Hk)
    as (He1 & [[-> _]|[[_ ->]|[? _]]]); [lia| |lia].
  cbn [Attention.kernel].
  destruct (Z.eqb_spec (Z.of_nat i) (e - 1)) as [E|E].
  - split; [left; split; [reflexivity|lia]|]. intros ->. lia.
  - split; [right; split; [reflexivity|lia]|]. reflexivity.
Qed.

(** [attention_image_size_halves] on the module of the default arguments. *)
Lemma attention_image_size_halves_witness :
  Z.of_nat (length default_layers) = 4 + Z.max 0 4 /\
  forall (k : nat) a, default_layers !! k = Some a ->
    Attention.image_size a = 512 / 2 ^ Z.of_nat k /\ Attention.stride a = (2, 2).
Proof.
  apply (attention_image_size_halves [512] [4] [4] [1] true default_blocks 0 default_layers
           512 4 4 1); vm_compute; reflexivity.
Defined.

(** [attention_channels_chain] on the module of the default arguments. *)
Lemma attention_channels_chain_witness :
  (forall a, default_layers !! 0%nat = Some a -> Attention.in_channels a = 1) /\
  (forall (k : nat) a b, default_layers !! k = Some a -> default_layers !! S k = Some b ->
     Attention.out_channels a = Attention.in_channels b) /\
  (forall z, last default_layers = Some z -> Attention.out_channels z = 512).
Proof.
  apply (attention_channels_chain [512] [4] [4] [1] true default_blocks 0 default_layers
           512 4 4 1); vm_compute; reflexivity.
Defined.

(** [attention_encoder_kernel] on the third layer of the module of the
    default arguments. *)
Lemma attention_encoder_kernel_witness :
  (Attention.kernel (Attention.mkEncoderBlock 128 256 128 (5, 5) (2, 2) true) = (3, 3) /\
   4 = Z.of_nat 0 + 1 \/
   Attention.kernel (Attention.mkEncoderBlock 128 256 128 (5, 5) (2, 2) true) = (5, 5) /\
   4 <> Z.of_nat 0 + 1) /\
  (0%nat = 0%nat ->
   Attention.kernel (Attention.mkEncoderBlock 128 256 128 (5, 5) (2, 2) true) = (5, 5)).
Proof.
  apply (attention_encoder_kernel [512] [4] [4] [1] true default_blocks 0 default_layers
           512 4 4 1 eq_refl eq_refl eq_refl eq_refl eq_refl eq_refl 2%nat).
  - vm_compute. reflexivity.
  - lia.
Defined.
